(** * A shallow embedding of the geb-chip-8 execution engine

    The development follows [src/emulator.h] (class [Chip8::Emulator]),
    [src/types.h] (struct [u4]), [src/geblib.h] ([get_nibble] and
    [ChannelCoordinator]), [src/keyboard.h] and [src/timer.h].

    Conventions.
    - [uint8_t] and [uint16_t] values are integers of [Z] whose wrap-around is
      written out with [u8] and [u16]; the 4-bit bit-field of [u4] is [u4].
    - A [std::array] is a list; [operator[]] with an index outside the array
      has no defined behaviour in C++ and is the outcome [OutOfRange].
    - [throw std::runtime_error] is the outcome [Fatal].
    - The two loops whose counter is a [u4] are run with fuel; [OutOfFuel]
      is the outcome of a loop that has not finished in that many rounds.
    - [Keyboard::block_until_next_keypress] returns when a key-down arrives;
      [Waiting] is the outcome of a call that no key-down ever ends.
    - [std::stoi] belongs to the C++ library, not to the engine: the loader
      takes it as a parameter. *)

From Stdlib Require Import ZArith Lia Bool Ascii String.
From stdpp Require Import base tactics option list numbers.

Local Open Scope Z_scope.

(** ** Machine integers *)

Definition u8 (x : Z) : Z := x mod 256.
Definition u16 (x : Z) : Z := x mod 65536.

(** [struct u4 { unsigned int value : 4; u4(size_t x) : value(x % 16) {} }] *)
Definition u4 (x : Z) : Z := x mod 16.

(** [u4::operator++(int)]: [value += 1] on the 4-bit field. *)
Definition u4_incr (i : Z) : Z := (i + 1) mod 16.

Definition Z_of_bool (b : bool) : Z := if b then 1 else 0.

(** ** Outcomes *)

Inductive error : Type :=
| RetEmptyStack          (* "cannot RET when stack is empty" *)
| CallStackFull          (* "cannot CALL when stack is full (stack overflow!)" *)
| CallOutsideMemory (target_address : Z)
| BcdOutsideMemory (i_register : Z)
| InvalidRegister        (* "invalid register number" *)
| NibbleIndex            (* "nibble_i must be in [0, 3]" *)
| SubstrOutOfRange       (* std::out_of_range from substr, never caught *)
| UnknownInstruction (instruction : Z).

Inductive outcome (A : Type) : Type :=
| Ok (a : A)
| Fatal (e : error)
| OutOfRange
| OutOfFuel
| Waiting.
Arguments Ok {A} a.
Arguments Fatal {A} e.
Arguments OutOfRange {A}.
Arguments OutOfFuel {A}.
Arguments Waiting {A}.

Definition bind {A B : Type} (m : outcome A) (k : A -> outcome B) : outcome B :=
  match m with
  | Ok a => k a
  | Fatal e => Fatal e
  | OutOfRange => OutOfRange
  | OutOfFuel => OutOfFuel
  | Waiting => Waiting
  end.

#[global] Instance outcome_ret : MRet outcome := @Ok.
#[global] Instance outcome_bind : MBind outcome := fun A B k m => bind m k.

(** ** The state of [Chip8::Emulator] *)

Definition SCREEN_WIDTH : Z := 64.
Definition SCREEN_HEIGHT : Z := 32.
Definition BUILT_IN_CHAR_STARTING_ADDRESS : Z := 0x100.
Definition PROGRAM_STARTING_ADDRESS : Z := 0x200.
Definition INSTRUCTION_SIZE : Z := 2.
Definition SPRITE_WIDTH : nat := 8.

Record Timer60hz : Type := { _value : Z; timestamp : Z }.

Record Emulator : Type := {
  display_buffer : list bool;   (* display.buffer, 64 * 32 *)
  keyboard_state : list bool;   (* keyboard.keyboard_state, true means down *)
  sound_timer : Timer60hz;
  delay_timer : Timer60hz;
  memory : list Z;              (* std::array<uint8_t, 4096> *)
  program_counter : Z;
  stack_frames : list Z;        (* std::array<uint16_t, 16> *)
  stack_pointer : Z;
  gp_registers : list Z;        (* std::array<uint8_t, 16> *)
  i_register : Z
}.

(** What one instruction takes from outside the engine: the steady clock,
    the random byte drawn from [random_u8_dist], and the key that
    [Keyboard::block_until_next_keypress] returns: the key of the key-down
    that ends the wait of [ChannelCoordinator::request], or [None] when no
    key-down arrives, and the call stays blocked. *)
Record World : Type := { now : Z; random_u8 : Z; next_keypress : option Z }.

Definition with_buffer (s : Emulator) (b : list bool) : Emulator :=
  {| display_buffer := b; keyboard_state := keyboard_state s;
     sound_timer := sound_timer s; delay_timer := delay_timer s;
     memory := memory s; program_counter := program_counter s;
     stack_frames := stack_frames s; stack_pointer := stack_pointer s;
     gp_registers := gp_registers s; i_register := i_register s |}.

Definition with_sound (s : Emulator) (t : Timer60hz) : Emulator :=
  {| display_buffer := display_buffer s; keyboard_state := keyboard_state s;
     sound_timer := t; delay_timer := delay_timer s;
     memory := memory s; program_counter := program_counter s;
     stack_frames := stack_frames s; stack_pointer := stack_pointer s;
     gp_registers := gp_registers s; i_register := i_register s |}.

Definition with_delay (s : Emulator) (t : Timer60hz) : Emulator :=
  {| display_buffer := display_buffer s; keyboard_state := keyboard_state s;
     sound_timer := sound_timer s; delay_timer := t;
     memory := memory s; program_counter := program_counter s;
     stack_frames := stack_frames s; stack_pointer := stack_pointer s;
     gp_registers := gp_registers s; i_register := i_register s |}.

Definition with_memory (s : Emulator) (m : list Z) : Emulator :=
  {| display_buffer := display_buffer s; keyboard_state := keyboard_state s;
     sound_timer := sound_timer s; delay_timer := delay_timer s;
     memory := m; program_counter := program_counter s;
     stack_frames := stack_frames s; stack_pointer := stack_pointer s;
     gp_registers := gp_registers s; i_register := i_register s |}.

Definition with_pc (s : Emulator) (pc : Z) : Emulator :=
  {| display_buffer := display_buffer s; keyboard_state := keyboard_state s;
     sound_timer := sound_timer s; delay_timer := delay_timer s;
     memory := memory s; program_counter := pc;
     stack_frames := stack_frames s; stack_pointer := stack_pointer s;
     gp_registers := gp_registers s; i_register := i_register s |}.

Definition with_stack (s : Emulator) (frames : list Z) (sp : Z) : Emulator :=
  {| display_buffer := display_buffer s; keyboard_state := keyboard_state s;
     sound_timer := sound_timer s; delay_timer := delay_timer s;
     memory := memory s; program_counter := program_counter s;
     stack_frames := frames; stack_pointer := sp;
     gp_registers := gp_registers s; i_register := i_register s |}.

Definition with_registers (s : Emulator) (r : list Z) : Emulator :=
  {| display_buffer := display_buffer s; keyboard_state := keyboard_state s;
     sound_timer := sound_timer s; delay_timer := delay_timer s;
     memory := memory s; program_counter := program_counter s;
     stack_frames := stack_frames s; stack_pointer := stack_pointer s;
     gp_registers := r; i_register := i_register s |}.

Definition with_i (s : Emulator) (i : Z) : Emulator :=
  {| display_buffer := display_buffer s; keyboard_state := keyboard_state s;
     sound_timer := sound_timer s; delay_timer := delay_timer s;
     memory := memory s; program_counter := program_counter s;
     stack_frames := stack_frames s; stack_pointer := stack_pointer s;
     gp_registers := gp_registers s; i_register := i |}.

(** [this->gp_registers[reg]], read and written. A register index is a
    [u4], so it is always inside the 16-entry array. *)
Definition reg (s : Emulator) (r : Z) : Z := gp_registers s !!! Z.to_nat r.
Definition set_reg (s : Emulator) (r v : Z) : Emulator :=
  with_registers s (<[Z.to_nat r := v]> (gp_registers s)).

(** [this->memory[addr]], read and written; [addr] is a [size_t]. *)
Definition mem_read (s : Emulator) (addr : Z) : outcome Z :=
  match memory s !! Z.to_nat addr with
  | Some v => Ok v
  | None => OutOfRange
  end.
Definition mem_write (s : Emulator) (addr v : Z) : outcome Emulator :=
  if addr <? Z.of_nat (length (memory s))
  then Ok (with_memory s (<[Z.to_nat addr := v]> (memory s)))
  else OutOfRange.

(** [this->program_counter += n] on a [uint16_t]. *)
Definition advance (s : Emulator) (n : Z) : Emulator :=
  with_pc s (u16 (program_counter s + n)).

(** The class invariant given by the array types and integer widths. *)
Record well_formed (s : Emulator) : Prop := {
  wf_buffer : length (display_buffer s) = 2048%nat;
  wf_keys : length (keyboard_state s) = 16%nat;
  wf_memory : length (memory s) = 4096%nat;
  wf_frames : length (stack_frames s) = 16%nat;
  wf_registers : length (gp_registers s) = 16%nat;
  wf_bytes : Forall (fun v => 0 <= v < 256) (gp_registers s);
  wf_cells : Forall (fun v => 0 <= v < 256) (memory s);
  wf_pc : 0 <= program_counter s < 65536;
  wf_i : 0 <= i_register s < 65536;
  wf_sp : 0 <= stack_pointer s < 256
}.

(** ** [Chip8::Timer60hz] *)

Module Timer.

(** The conversion to [size_t] of a signed 64-bit count: the count modulo
    2^64, which leaves a count that is not negative as it is. *)
Definition size_t_of_count (z : Z) : Z := if z <? 0 then z + 2 ^ 64 else z.

(** [Timer60hz::value()], a function of the reading [now] of the steady
    clock, in microseconds. [/] and [%] on the signed count truncate toward
    zero ([Z.quot] and [Z.rem]); the sum is converted to [size_t]. *)
Definition value (t : Timer60hz) (now : Z) : Z :=
  if _value t =? 0 then _value t
  else
    let duration := now - timestamp t in
    let ticks_elapsed :=
      size_t_of_count (60 * Z.quot duration (1000 * 1000)
                       + Z.quot (Z.rem duration (1000 * 1000)) 16667) in
    if _value t <=? ticks_elapsed then 0
    else u8 (_value t - u8 ticks_elapsed).

(** [Timer60hz::set(new_value)] *)
Definition set (new_value now : Z) : Timer60hz :=
  {| _value := new_value; timestamp := now |}.

End Timer.

(** ** [GebLib::get_nibble] *)

(** Indices are MSB to LSB of 0x0123; the result is converted to [u4]. *)
Definition get_nibble (word nibble_i : Z) : outcome Z :=
  if 4 <=? nibble_i then Fatal NibbleIndex
  else
    let num_shifts := 4 * (3 - nibble_i) in
    Ok (u4 (Z.shiftr (Z.land word (Z.shiftl 0xf num_shifts)) num_shifts)).

(** ** The instructions, in the order of the source *)

(** 0xxx *)
Definition sys (address : Z) (s : Emulator) : Emulator :=
  advance s INSTRUCTION_SIZE.

(** 00e0 *)
Definition cls (s : Emulator) : Emulator :=
  let s := with_buffer s (replicate (length (display_buffer s)) false) in
  advance s INSTRUCTION_SIZE.

(** 00ee *)
Definition ret (s : Emulator) : outcome Emulator :=
  if stack_pointer s =? 0 then Fatal RetEmptyStack
  else
    let s := with_stack s (stack_frames s) (u8 (stack_pointer s - 1)) in
    match stack_frames s !! Z.to_nat (stack_pointer s) with
    | Some frame => Ok (with_pc s frame)
    | None => OutOfRange
    end.

(** 1xxx *)
Definition jp (address : Z) (s : Emulator) : Emulator :=
  with_pc s address.

(** 2xxx *)
Definition call (target_address : Z) (s : Emulator) : outcome Emulator :=
  if 15 <? stack_pointer s then Fatal CallStackFull
  else if Z.of_nat (length (memory s)) - 1 <=? target_address
  then Fatal (CallOutsideMemory target_address)
  else
    let s := with_stack s
               (<[Z.to_nat (stack_pointer s)
                  := u16 (program_counter s + INSTRUCTION_SIZE)]> (stack_frames s))
               (stack_pointer s) in
    let s := with_stack s (stack_frames s) (u8 (stack_pointer s + 1)) in
    Ok (with_pc s target_address).

(** 3xyy *)
Definition skip_equal (r value : Z) (s : Emulator) : Emulator :=
  if reg s r =? value then advance s (2 * INSTRUCTION_SIZE)
  else advance s INSTRUCTION_SIZE.

(** 4xyy *)
Definition skip_not_equal (r value : Z) (s : Emulator) : Emulator :=
  if negb (reg s r =? value) then advance s (2 * INSTRUCTION_SIZE)
  else advance s INSTRUCTION_SIZE.

(** 5xy0 *)
Definition skip_equal_reg (reg_a reg_b : Z) (s : Emulator) : Emulator :=
  if reg s reg_a =? reg s reg_b then advance s (2 * INSTRUCTION_SIZE)
  else advance s INSTRUCTION_SIZE.

(** 6xyy *)
Definition load (r y : Z) (s : Emulator) : Emulator :=
  let s := set_reg s r y in
  advance s INSTRUCTION_SIZE.

(** 7xyy *)
Definition add (r y : Z) (s : Emulator) : Emulator :=
  let s := set_reg s r (u8 (reg s r + y)) in
  advance s INSTRUCTION_SIZE.

(** 8xy0 *)
Definition load_reg (reg_a reg_b : Z) (s : Emulator) : Emulator :=
  let s := set_reg s reg_a (reg s reg_b) in
  advance s INSTRUCTION_SIZE.

(** 8xy1 *)
Definition bitwise_or (reg_a reg_b : Z) (s : Emulator) : Emulator :=
  let s := set_reg s reg_a (Z.lor (reg s reg_a) (reg s reg_b)) in
  advance s INSTRUCTION_SIZE.

(** 8xy2 *)
Definition bitwise_and (reg_a reg_b : Z) (s : Emulator) : Emulator :=
  let s := set_reg s reg_a (Z.land (reg s reg_a) (reg s reg_b)) in
  advance s INSTRUCTION_SIZE.

(** 8xy3 *)
Definition bitwise_xor (reg_a reg_b : Z) (s : Emulator) : Emulator :=
  let s := set_reg s reg_a (Z.lxor (reg s reg_a) (reg s reg_b)) in
  advance s INSTRUCTION_SIZE.

(** 8xy4: the register is added to in place, then the flag is computed
    from the registers as they are at that point. *)
Definition carry_add_reg (reg_a reg_b : Z) (s : Emulator) : Emulator :=
  let s := set_reg s reg_a (u8 (reg s reg_a + reg s reg_b)) in
  let s := set_reg s 0xf (Z_of_bool (0xff <? reg s reg_a + reg s reg_b)) in
  advance s INSTRUCTION_SIZE.

(** 8xy5 *)
Definition carry_sub_reg (reg_a reg_b : Z) (s : Emulator) : Emulator :=
  let s := set_reg s 0xf (Z_of_bool (reg s reg_b <=? reg s reg_a)) in
  let s := set_reg s reg_a (u8 (reg s reg_a - reg s reg_b)) in
  advance s INSTRUCTION_SIZE.

(** 8x_6 *)
Definition shift_right (r : Z) (s : Emulator) : Emulator :=
  let s := set_reg s r (Z.shiftr (reg s r) 1) in
  let s := set_reg s 0xf (Z.land 0x01 (reg s r)) in
  advance s INSTRUCTION_SIZE.

(** 8xy7 *)
Definition subtract_reversed (reg_a reg_b : Z) (s : Emulator) : Emulator :=
  let s := set_reg s 0xf (Z_of_bool (reg s reg_a <=? reg s reg_b)) in
  let s := set_reg s reg_a (u8 (reg s reg_b - reg s reg_a)) in
  advance s INSTRUCTION_SIZE.

(** 8x_e *)
Definition shift_left (r : Z) (s : Emulator) : Emulator :=
  let s := set_reg s 0xf (Z_of_bool (negb (Z.land 0x80 (reg s r) =? 0))) in
  let s := set_reg s r (u8 (Z.shiftl (reg s r) 1)) in
  advance s INSTRUCTION_SIZE.

(** 9xy0 *)
Definition skip_not_equal_reg (reg_a reg_b : Z) (s : Emulator) : Emulator :=
  if negb (reg s reg_a =? reg s reg_b) then advance s (2 * INSTRUCTION_SIZE)
  else advance s INSTRUCTION_SIZE.

(** axxx *)
Definition load_address (address : Z) (s : Emulator) : Emulator :=
  let s := with_i s address in
  advance s INSTRUCTION_SIZE.

(** bxxx *)
Definition jump_reg0 (address_offset : Z) (s : Emulator) : Emulator :=
  with_pc s (u16 (reg s 0 + address_offset)).

(** cxyy *)
Definition random_int (w : World) (r y : Z) (s : Emulator) : Emulator :=
  let s := set_reg s r (u8 (Z.land (random_u8 w) y)) in
  advance s INSTRUCTION_SIZE.

(** dxyz: one pixel of the inner loop. *)
Definition draw_pixel (ul_xpos ul_ypos row : Z) (row_i bit_i : nat)
    (s : Emulator) : Emulator :=
  let xpos := (ul_xpos + Z.of_nat bit_i) mod SCREEN_WIDTH in
  let ypos := (ul_ypos + Z.of_nat row_i) mod SCREEN_HEIGHT in
  let px := Z.to_nat (xpos + ypos * SCREEN_WIDTH) in
  let before := display_buffer s !!! px in
  let after :=
    xorb before (negb (Z.land row (Z.shiftr 0x80 (Z.of_nat bit_i)) =? 0)) in
  let s := with_buffer s (<[px := after]> (display_buffer s)) in
  if before && negb after then set_reg s 0xf 1 else s.

(** dxyz: [for (size_t bit_i = 0; bit_i < SPRITE_WIDTH; bit_i++)] *)
Definition draw_row (ul_xpos ul_ypos row : Z) (row_i : nat)
    (s : Emulator) : Emulator :=
  foldl (fun s bit_i => draw_pixel ul_xpos ul_ypos row row_i bit_i s)
        s (seq 0 SPRITE_WIDTH).

(** dxyz: [for (size_t row_i = 0; row_i < value; row_i++)], the rows still
    to be drawn being [rows]. *)
Fixpoint draw_rows (ul_xpos ul_ypos : Z) (rows : list nat)
    (s : Emulator) : outcome Emulator :=
  match rows with
  | [] => Ok s
  | row_i :: rows =>
      row ← mem_read s (i_register s + Z.of_nat row_i);
      draw_rows ul_xpos ul_ypos rows (draw_row ul_xpos ul_ypos row row_i s)
  end.

(** dxyz *)
Definition draw_sprite (reg_x reg_y value : Z) (s : Emulator) : outcome Emulator :=
  let s := set_reg s 0xf 0 in
  let ul_xpos := reg s reg_x in
  let ul_ypos := reg s reg_y in
  s ← draw_rows ul_xpos ul_ypos (seq 0 (Z.to_nat value)) s;
  Ok (advance s INSTRUCTION_SIZE).

(** [Keyboard::is_key_pressed] *)
Definition is_key_pressed (s : Emulator) (key : Z) : bool :=
  keyboard_state s !!! Z.to_nat key.

(** ex9e *)
Definition skip_if_key_press (r : Z) (s : Emulator) : Emulator :=
  let key := reg s r mod 16 in
  if is_key_pressed s key then advance s (2 * INSTRUCTION_SIZE)
  else advance s INSTRUCTION_SIZE.

(** exa1 *)
Definition skip_if_not_key_press (r : Z) (s : Emulator) : Emulator :=
  let key := reg s r mod 16 in
  if negb (is_key_pressed s key) then advance s (2 * INSTRUCTION_SIZE)
  else advance s INSTRUCTION_SIZE.

(** fx07 *)
Definition load_from_delay_timer (w : World) (r : Z) (s : Emulator) : Emulator :=
  let s := set_reg s r (Timer.value (delay_timer s) (now w)) in
  advance s INSTRUCTION_SIZE.

(** fx0a: the call of [block_until_next_keypress] comes back with a key, or
    does not come back. *)
Definition load_from_next_keypress (w : World) (r : Z) (s : Emulator)
    : outcome Emulator :=
  match next_keypress w with
  | None => Waiting
  | Some key =>
      let s := set_reg s r (u8 key) in
      Ok (advance s INSTRUCTION_SIZE)
  end.

(** fx15 *)
Definition set_delay (w : World) (r : Z) (s : Emulator) : Emulator :=
  let s := with_delay s (Timer.set (reg s r) (now w)) in
  advance s INSTRUCTION_SIZE.

(** fx18 *)
Definition set_sound (w : World) (r : Z) (s : Emulator) : Emulator :=
  let s := with_sound s (Timer.set (reg s r) (now w)) in
  advance s INSTRUCTION_SIZE.

(** fx1e *)
Definition increment_i_reg (r : Z) (s : Emulator) : Emulator :=
  let s := with_i s (u16 (i_register s + reg s r)) in
  advance s INSTRUCTION_SIZE.

(** fx29 *)
Definition load_sprite (r : Z) (s : Emulator) : Emulator :=
  let s := with_i s (u16 (BUILT_IN_CHAR_STARTING_ADDRESS + 5 * (reg s r mod 16))) in
  advance s INSTRUCTION_SIZE.

(** fx33 *)
Definition load_bcd (r : Z) (s : Emulator) : outcome Emulator :=
  if Z.of_nat (length (memory s)) - 2 <=? i_register s
  then Fatal (BcdOutsideMemory (i_register s))
  else
    s ← mem_write s (i_register s) (u8 (reg s r mod 10));
    s ← mem_write s (i_register s + 1)
          (u8 ((reg s r mod 100 - reg s r mod 10) / 10));
    s ← mem_write s (i_register s + 2)
          (u8 ((reg s r - reg s r mod 100) / 100));
    Ok (advance s INSTRUCTION_SIZE).

(** fx55: [for (u4 i = 0; i <= reg_final; i++)], [i] being the counter on
    entry to the loop test. *)
Fixpoint load_reg_to_mem_loop (fuel : nat) (i reg_final : Z)
    (s : Emulator) : outcome Emulator :=
  match fuel with
  | O => OutOfFuel
  | S fuel =>
      if i <=? reg_final then
        s ← mem_write s (i_register s + i) (reg s i);
        load_reg_to_mem_loop fuel (u4_incr i) reg_final s
      else Ok s
  end.

(** fx55 *)
Definition load_reg_to_mem (fuel : nat) (reg_final : Z)
    (s : Emulator) : outcome Emulator :=
  s ← load_reg_to_mem_loop fuel (u4 0) reg_final s;
  Ok (advance s INSTRUCTION_SIZE).

(** fx65: the same loop, memory to registers. *)
Fixpoint load_mem_to_reg_loop (fuel : nat) (i reg_final : Z)
    (s : Emulator) : outcome Emulator :=
  match fuel with
  | O => OutOfFuel
  | S fuel =>
      if i <=? reg_final then
        v ← mem_read s (i_register s + i);
        load_mem_to_reg_loop fuel (u4_incr i) reg_final (set_reg s i v)
      else Ok s
  end.

(** fx65 *)
Definition load_mem_to_reg (fuel : nat) (reg_final : Z)
    (s : Emulator) : outcome Emulator :=
  if 15 <? reg_final then Fatal InvalidRegister
  else
    s ← load_mem_to_reg_loop fuel (u4 0) reg_final s;
    Ok (advance s INSTRUCTION_SIZE).

(** ** Decode and dispatch *)

(** [instruction & mask == pattern] *)
Definition matches (instruction mask pattern : Z) : bool :=
  Z.land instruction mask =? pattern.

(** [evaluate_instruction]: the result is the new state and the returned
    flag (true when a jump to the current address was seen). *)
Definition evaluate_instruction (fuel : nat) (w : World) (instruction : Z)
    (s : Emulator) : outcome (Emulator * bool) :=
  if instruction =? 0x00e0 then Ok (cls s, false)
  else if instruction =? 0x00ee then s ← ret s; Ok (s, false)
  else if matches instruction 0xf000 0x0000 then
    Ok (sys (Z.land instruction 0x0fff) s, false)
  else if matches instruction 0xf000 0x1000 then
    let target_address := Z.land instruction 0x0fff in
    if target_address =? program_counter s
    then Ok (jp target_address s, true)
    else Ok (jp target_address s, false)
  else if matches instruction 0xf000 0x2000 then
    s ← call (Z.land instruction 0x0fff) s; Ok (s, false)
  else if matches instruction 0xf000 0x3000 then
    x ← get_nibble instruction 1;
    let y := Z.land instruction 0x00ff in
    Ok (skip_equal x y s, false)
  else if matches instruction 0xf000 0x4000 then
    x ← get_nibble instruction 1;
    let y := Z.land instruction 0x00ff in
    Ok (skip_not_equal x y s, false)
  else if matches instruction 0xf00f 0x5000 then
    x ← get_nibble instruction 1;
    y ← get_nibble instruction 2;
    Ok (skip_equal_reg x y s, false)
  else if matches instruction 0xf000 0x6000 then
    x ← get_nibble instruction 1;
    let y := Z.land instruction 0x00ff in
    Ok (load x y s, false)
  else if matches instruction 0xf000 0x7000 then
    x ← get_nibble instruction 1;
    let y := Z.land instruction 0x00ff in
    Ok (add x y s, false)
  else if matches instruction 0xf00f 0x8000 then
    x ← get_nibble instruction 1;
    y ← get_nibble instruction 2;
    Ok (load_reg x y s, false)
  else if matches instruction 0xf00f 0x8001 then
    x ← get_nibble instruction 1;
    y ← get_nibble instruction 2;
    Ok (bitwise_or x y s, false)
  else if matches instruction 0xf00f 0x8002 then
    x ← get_nibble instruction 1;
    y ← get_nibble instruction 2;
    Ok (bitwise_and x y s, false)
  else if matches instruction 0xf00f 0x8003 then
    x ← get_nibble instruction 1;
    y ← get_nibble instruction 2;
    Ok (bitwise_xor x y s, false)
  else if matches instruction 0xf00f 0x8004 then
    x ← get_nibble instruction 1;
    y ← get_nibble instruction 2;
    Ok (carry_add_reg x y s, false)
  else if matches instruction 0xf00f 0x8005 then
    x ← get_nibble instruction 1;
    y ← get_nibble instruction 2;
    Ok (carry_sub_reg x y s, false)
  else if matches instruction 0xf00f 0x8006 then
    x ← get_nibble instruction 1;
    Ok (shift_right x s, false)
  else if matches instruction 0xf00f 0x8007 then
    x ← get_nibble instruction 1;
    y ← get_nibble instruction 2;
    Ok (subtract_reversed x y s, false)
  else if matches instruction 0xf00f 0x800e then
    x ← get_nibble instruction 1;
    Ok (shift_left x s, false)
  else if matches instruction 0xf00f 0x9000 then
    x ← get_nibble instruction 1;
    y ← get_nibble instruction 2;
    Ok (skip_not_equal_reg x y s, false)
  else if matches instruction 0xf000 0xa000 then
    Ok (load_address (Z.land instruction 0x0fff) s, false)
  else if matches instruction 0xf000 0xb000 then
    Ok (jump_reg0 (Z.land instruction 0x0fff) s, false)
  else if matches instruction 0xf000 0xc000 then
    x ← get_nibble instruction 1;
    let y := Z.land instruction 0x00ff in
    Ok (random_int w x y s, false)
  else if matches instruction 0xf000 0xd000 then
    x ← get_nibble instruction 1;
    y ← get_nibble instruction 2;
    z ← get_nibble instruction 3;
    s ← draw_sprite x y z s; Ok (s, false)
  else if matches instruction 0xf0ff 0xe09e then
    x ← get_nibble instruction 1;
    Ok (skip_if_key_press x s, false)
  else if matches instruction 0xf0ff 0xf007 then
    x ← get_nibble instruction 1;
    Ok (load_from_delay_timer w x s, false)
  else if matches instruction 0xf0ff 0xf00a then
    x ← get_nibble instruction 1;
    s ← load_from_next_keypress w x s;
    Ok (s, false)
  else if matches instruction 0xf0ff 0xf015 then
    x ← get_nibble instruction 1;
    Ok (set_delay w x s, false)
  else if matches instruction 0xf0ff 0xf018 then
    x ← get_nibble instruction 1;
    Ok (set_sound w x s, false)
  else if matches instruction 0xf0ff 0xf01e then
    x ← get_nibble instruction 1;
    Ok (increment_i_reg x s, false)
  else if matches instruction 0xf0ff 0xf029 then
    x ← get_nibble instruction 1;
    Ok (load_sprite x s, false)
  else if matches instruction 0xf0ff 0xf033 then
    x ← get_nibble instruction 1;
    s ← load_bcd x s; Ok (s, false)
  else if matches instruction 0xf0ff 0xf055 then
    x ← get_nibble instruction 1;
    s ← load_reg_to_mem fuel x s; Ok (s, false)
  else if matches instruction 0xf0ff 0xf065 then
    x ← get_nibble instruction 1;
    s ← load_mem_to_reg fuel x s; Ok (s, false)
  else Fatal (UnknownInstruction instruction).

(** The fetch of [block_run]: [(memory[pc] << 8) + memory[pc + 1]]. *)
Definition fetch (s : Emulator) : outcome Z :=
  hi ← mem_read s (program_counter s);
  lo ← mem_read s (program_counter s + 1);
  Ok (u16 (Z.shiftl hi 8 + lo)).

(** One round of the execution loop of [block_run]. *)
Definition cycle (fuel : nat) (w : World) (s : Emulator) : outcome (Emulator * bool) :=
  instruction ← fetch s;
  evaluate_instruction fuel w instruction s.

(** ** The program loader *)

(** A [std::string] is the list of its characters. *)
Abbreviation text := (list ascii).

Definition nl : ascii := ascii_of_nat 10.   (* '\n' *)
Definition cr : ascii := ascii_of_nat 13.   (* '\r' *)

(** The characters of [" \t\r\n\v\f"]. *)
Definition whitespace : text :=
  [ascii_of_nat 32; ascii_of_nat 9; cr; nl; ascii_of_nat 11; ascii_of_nat 12].

Definition char_in (c : ascii) (set : text) : bool :=
  existsb (Ascii.eqb c) set.

(** [isspace] in the C locale: space and the characters 9 to 13. *)
Definition isspace (c : ascii) : bool :=
  let n := nat_of_ascii c in
  ((n =? 32) || ((9 <=? n) && (n <=? 13)))%nat.

(** [s.starts_with(prefix)] *)
Fixpoint starts_with (s prefix : text) {struct prefix} : bool :=
  match prefix, s with
  | [], _ => true
  | p :: prefix, c :: s => Ascii.eqb p c && starts_with s prefix
  | _ :: _, [] => false
  end.

(** The first position of [s] at which [pattern] occurs. *)
Fixpoint find_first (pattern s : text) : option nat :=
  if starts_with s pattern then Some O
  else match s with
       | [] => None
       | _ :: s => S <$> find_first pattern s
       end.

(** [s.find(pattern, pos)]; [None] is [std::string::npos]. *)
Definition find (s pattern : text) (pos : nat) : option nat :=
  (fun k => (pos + k)%nat) <$> find_first pattern (drop pos s).

(** [s.substr(pos, count)] for [pos <= s.size()]. *)
Definition substr (s : text) (pos count : nat) : text :=
  take count (drop pos s).

(** [s.find_first_not_of(set)] *)
Fixpoint find_first_not_of (s set : text) : option nat :=
  match s with
  | [] => None
  | c :: s => if char_in c set then S <$> find_first_not_of s set else Some O
  end.

(** [std::stoi(str, nullptr, 16)] either converts or throws. *)
Inductive stoi_result : Type :=
| Converted (value : Z)
| invalid_argument
| out_of_range.

(** *** The library function [std::stoi]

    [std::stoi] is not code of the engine. The loader below takes it as a
    parameter, and the statements about the loader say what they need of it.
    [std_stoi], defined here, is the function of the C++ library: it is used
    to run the loader on given texts. *)

Definition hex_digit (c : ascii) : option Z :=
  let n := Z.of_nat (nat_of_ascii c) in
  if (48 <=? n) && (n <=? 57) then Some (n - 48)         (* 0-9 *)
  else if (97 <=? n) && (n <=? 102) then Some (n - 87)   (* a-f *)
  else if (65 <=? n) && (n <=? 70) then Some (n - 55)    (* A-F *)
  else None.

(** The longest run of hexadecimal digits at the head of [s], read with the
    value [acc] of the digits before it. *)
Fixpoint hex_digits (acc : Z) (s : text) : Z :=
  match s with
  | [] => acc
  | c :: s => match hex_digit c with
              | Some d => hex_digits (16 * acc + d) s
              | None => acc
              end
  end.

Definition starts_with_hex_digit (s : text) : bool :=
  match s with
  | c :: _ => match hex_digit c with Some _ => true | None => false end
  | [] => false
  end.

(** The number after blanks and sign: an optional [0x] or [0X] that a digit
    follows, then at least one hexadecimal digit. *)
Definition stoi_magnitude (s : text) : option Z :=
  let digits :=
    match s with
    | z :: x :: rest =>
        if Ascii.eqb z "0" && (Ascii.eqb x "x" || Ascii.eqb x "X")
           && starts_with_hex_digit rest
        then rest else s
    | _ => s
    end in
  if starts_with_hex_digit digits then Some (hex_digits 0 digits) else None.

Fixpoint skip_spaces (s : text) : text :=
  match s with
  | c :: rest => if isspace c then skip_spaces rest else s
  | [] => []
  end.

(** [std::stoi(str, nullptr, 16)] of the C++ library. It calls [strtol] with
    base 16, which skips leading [isspace] characters, takes an optional
    sign, an optional [0x] prefix and the longest run of hexadecimal digits,
    and ignores what follows; it throws [std::invalid_argument] when no digit
    could be converted and [std::out_of_range] when the value does not fit
    an [int]. *)
Definition std_stoi (str : text) : stoi_result :=
  let s := skip_spaces str in
  let '(negative, s) :=
    match s with
    | c :: rest =>
        if Ascii.eqb c "-" then (true, rest)
        else if Ascii.eqb c "+" then (false, rest)
        else (false, s)
    | [] => (false, s)
    end in
  match stoi_magnitude s with
  | None => invalid_argument
  | Some m =>
      let v := if negative then - m else m in
      if (v <? - 2147483648) || (2147483647 <? v) then out_of_range
      else Converted v
  end.

(** [load_program_bytes]: the stores are inside [memory] by the guard. *)
Definition load_program_bytes (bytes : list Z) (s : Emulator) : bool * Emulator :=
  if Z.of_nat (length (memory s)) - PROGRAM_STARTING_ADDRESS <? Z.of_nat (length bytes)
  then (false, s)
  else
    (true,
     foldl (fun s i =>
              with_memory s
                (<[Z.to_nat (PROGRAM_STARTING_ADDRESS + Z.of_nat i)
                   := bytes !!! i]> (memory s)))
           s (seq 0 (length bytes))).

(** Where the line that begins at [current_pos] ends, from the positions
    of the next ["\n"] and the next ["\r\n"]. [None] is [npos], the largest
    [size_t]. *)
Definition next_line_pos (program_text : text) (current_pos : nat) : nat :=
  let cr_pos := find program_text [nl] current_pos in
  let crlf_pos := find program_text [cr; nl] current_pos in
  match cr_pos, crlf_pos with
  | None, None => length program_text
  | Some c, None => c + 1
  | Some c, Some l => if (c <? l)%nat then c + 1 else l + 2
  | None, Some l => l + 2
  end%nat.

(** What the body of the loop does with one line: skip it, append the two
    bytes of its word, or give up. *)
Inductive line_result : Type :=
| Skipped
| Word (high low : Z)
| Malformed
| NoWordStart.   (* [substr] called with [npos]: throws [std::out_of_range] *)

Section Loader.

(** [std::stoi(., nullptr, 16)], which the loader calls on what follows
    [0x] in a line. *)
Variable stoi : text -> stoi_result.

Definition load_line (line : text) : line_result :=
  if forallb isspace line then Skipped
  else
    match find_first_not_of line whitespace with
    | None => NoWordStart
    | Some word_start =>
        if negb (starts_with
                   (substr line word_start (length line - word_start))
                   ["0"; "x"]%char)
        then Skipped
        else
          let starts_with_bytes :=
            substr line (word_start + 2) (length line - (word_start + 2)) in
          match stoi starts_with_bytes with
          | Converted value =>
              let word := u16 value in
              Word (Z.shiftr (Z.land word 0xff00) 8) (Z.land word 0x00ff)
          | invalid_argument => Malformed
          | out_of_range => Malformed
          end
    end.

(** The loop of [load_program]: [Ok None] is [return false] from inside the
    loop, [Ok (Some bytes)] the byte vector when the loop ends. *)
Fixpoint load_program_loop (fuel : nat) (program_text : text)
    (current_pos : nat) (bytes : list Z) : outcome (option (list Z)) :=
  match fuel with
  | O => OutOfFuel
  | S fuel =>
      if (current_pos <? length program_text)%nat then
        let next_pos := next_line_pos program_text current_pos in
        let line := substr program_text current_pos (next_pos - current_pos) in
        match load_line line with
        | Skipped => load_program_loop fuel program_text next_pos bytes
        | Word high low =>
            load_program_loop fuel program_text next_pos (bytes ++ [high; low])
        | Malformed => Ok None
        | NoWordStart => Fatal SubstrOutOfRange
        end
      else Ok (Some bytes)
  end.

(** [load_program]: every round of the loop moves [current_pos] forward, so
    one round per character and one more is enough. *)
Definition load_program (program_text : text) (s : Emulator)
    : outcome (bool * Emulator) :=
  r ← load_program_loop (S (length program_text)) program_text 0 [];
  match r with
  | None => Ok (false, s)
  | Some bytes => Ok (load_program_bytes bytes s)
  end.

End Loader.

(** ** [GebLib::Threading::ChannelCoordinator<Key>] and its two users

    The execution context calls [request] (through
    [Keyboard::block_until_next_keypress]); the input-polling context calls
    [send_if_requested] from [Keyboard::poll_events] on every key-down and
    then stores the key state. The two contexts are interleaved statement by
    statement. [channel_lock] is a mutex: a context that wants it can only
    move when it is free. [wait(lock, pred)] is [while (!pred()) wait(lock)]:
    it releases the lock while blocked and takes it again on every wake-up,
    notified or spurious. *)

















(** ** States used to run the definitions *)

(** A machine with every array zeroed, the program counter at the start of
    program space and an empty stack. *)
Definition blank : Emulator :=
  {| display_buffer := replicate 2048 false;
     keyboard_state := replicate 16 false;
     sound_timer := Timer.set 0 0;
     delay_timer := Timer.set 0 0;
     memory := replicate 4096 0;
     program_counter := PROGRAM_STARTING_ADDRESS;
     stack_frames := replicate 16 0;
     stack_pointer := 0;
     gp_registers := replicate 16 0;
     i_register := 0 |}.

Definition still : World := {| now := 0; random_u8 := 0; next_keypress := None |}.

(** ** Notions used by the statements *)

(** The instruction word with nibbles [op], [x], [y], [n], most significant
    first. *)
Definition instruction_word (op x y n : Z) : Z :=
  4096 * op + 256 * x + 16 * y + n.

(** The buffer index and the sprite bit that the draw loop combines at row
    [row_i], column [bit_i]. *)
Definition pixel (ul_xpos ul_ypos : Z) (row_i bit_i : nat) : nat :=
  Z.to_nat ((ul_xpos + Z.of_nat bit_i) mod SCREEN_WIDTH
            + ((ul_ypos + Z.of_nat row_i) mod SCREEN_HEIGHT) * SCREEN_WIDTH).

Definition sprite_bit (row : Z) (bit_i : nat) : bool :=
  negb (Z.land row (Z.shiftr 0x80 (Z.of_nat bit_i)) =? 0).

(** A draw seen as the sequence of its strokes, each an index of the buffer
    and the bit XOR-ed into it. *)
Definition stroke : Type := (nat * bool)%type.

(** [buffer[px] ^= bit] *)
Definition xor_at (px : nat) (bit : bool) (b : list bool) : list bool :=
  <[px := xorb (b !!! px) bit]> b.

Fixpoint blit (strokes : list stroke) (b : list bool) : list bool :=
  match strokes with
  | [] => b
  | (px, bit) :: strokes => blit strokes (xor_at px bit b)
  end.

(** Whether some stroke finds its pixel set and leaves it clear. *)
Fixpoint collision (strokes : list stroke) (b : list bool) : bool :=
  match strokes with
  | [] => false
  | (px, bit) :: strokes =>
      ((b !!! px) && negb (xorb (b !!! px) bit))
      || collision strokes (xor_at px bit b)
  end.

Definition row_strokes (ul_xpos ul_ypos row : Z) (row_i : nat) : list stroke :=
  (fun bit_i => (pixel ul_xpos ul_ypos row_i bit_i, sprite_bit row bit_i))
    <$> seq 0 SPRITE_WIDTH.

Definition sprite_strokes (mem : list Z) (i : Z) (ul_xpos ul_ypos : Z)
    (rows : list nat) : list stroke :=
  rows ≫= (fun row_i =>
    row_strokes ul_xpos ul_ypos (mem !!! Z.to_nat (i + Z.of_nat row_i)) row_i).

(** A frame buffer with the strokes [strokes] applied and the collision flag
    [hit] recorded in VF. *)
Definition painted (s : Emulator) (b : list bool) (hit : bool) : Emulator :=
  let s := with_buffer s b in
  if hit then set_reg s 0xf 1 else s.

(** [line] is one of the lines of [program_text]: it begins at the start of
    the text or after a newline, and runs up to and including the next
    newline, or to the end of the text when no newline follows. *)
Definition is_line_of (program_text line : text) : Prop :=
  exists before after : text,
    program_text = before ++ line ++ after
    /\ (before = [] \/ exists lines, before = lines ++ [nl])
    /\ ((exists body, line = body ++ [nl] /\ (nl ∉ body))
        \/ ((nl ∉ line) /\ line <> [] /\ after = [])).

(** [line] is blanks, then [0x], then [rest]. *)
Definition starts_with_0x (line rest : text) : Prop :=
  exists blanks : text,
    forallb isspace blanks = true /\ line = blanks ++ ["0"; "x"]%char ++ rest.

(** The token at the head of [s]: its characters up to the first blank. *)
Fixpoint token (s : text) : text :=
  match s with
  | c :: s => if isspace c then [] else c :: token s
  | [] => []
  end.

(** A well-formed hexadecimal word: one to four hexadecimal digits. *)
Definition is_hex_word (t : text) : bool :=
  negb (length t =? 0)%nat && (length t <=? 4)%nat
  && forallb (fun c => match hex_digit c with Some _ => true | None => false end) t.

Definition ascii_text (s : string) : text := list_ascii_of_string s.

(** A word of the form ExA1 at the program counter. *)
Definition exa1_state : Emulator :=
  with_memory blank (<[513%nat := 0xa1]> (<[512%nat := 0xe0]> (memory blank))).

(** V0 = 200 and V1 = 100, before 8014. *)
Definition carry_state : Emulator := set_reg (set_reg blank 0 200) 1 100.

(** V0 = 1, before 8006. *)
Definition shift_state : Emulator := set_reg blank 0 1.

(** V0 = 5 and VF = 3, before 80f5. *)
Definition borrow_state : Emulator := set_reg (set_reg blank 0 5) 0xf 3.

(** I = 4095, so that the second row of a sprite lies past the memory. *)
Definition edge_state : Emulator := with_i blank 4095.

(** The row 0xf0 at I = 0, and a blank screen. *)
Definition sprite_state : Emulator :=
  with_memory blank (<[0%nat := 0xf0]> (memory blank)).

(** ** Further notions *)

(** The instruction words [instructions] executed one after the other, each
    on the state that the one before it has left. *)
Fixpoint execute (fuel : nat) (w : World) (instructions : list Z)
    (s : Emulator) : outcome Emulator :=
  match instructions with
  | [] => Ok s
  | instruction :: instructions =>
      r ← evaluate_instruction fuel w instruction s;
      execute fuel w instructions r.1
  end.

(** The class invariant together with what the call stack keeps: at most 16
    frames, each a 16-bit address. *)
Record machine_ok (s : Emulator) : Prop := {
  ok_well_formed : well_formed s;
  ok_frames : Forall (fun v => 0 <= v < 65536) (stack_frames s);
  ok_depth : stack_pointer s <= 16
}.

(** ** The constructor [Emulator()] *)

(** The sprites of the sixteen hexadecimal digits, five rows each. *)
Definition data : list (list Z) :=
  [ [0xf0; 0x90; 0x90; 0x90; 0xf0];
    [0x20; 0x60; 0x20; 0x20; 0x70];
    [0xf0; 0x10; 0xf0; 0x80; 0xf0];
    [0xf0; 0x10; 0xf0; 0x10; 0xf0];
    [0x90; 0x90; 0xf0; 0x10; 0x10];
    [0xf0; 0x80; 0xf0; 0x10; 0xf0];
    [0xf0; 0x80; 0xf0; 0x90; 0xf0];
    [0xf0; 0x10; 0x20; 0x40; 0x40];
    [0xf0; 0x90; 0xf0; 0x90; 0xf0];
    [0xf0; 0x90; 0xf0; 0x10; 0xf0];
    [0xf0; 0x90; 0xf0; 0x90; 0x90];
    [0xe0; 0x90; 0xe0; 0x90; 0xe0];
    [0xf0; 0x80; 0x80; 0x80; 0xf0];
    [0xe0; 0x90; 0x90; 0x90; 0xe0];
    [0xf0; 0x80; 0xf0; 0x80; 0xf0];
    [0xf0; 0x80; 0xf0; 0x80; 0x80] ].

(** [std::ranges::copy(sprite, memory.begin() + start)] *)
Definition copy (sprite : list Z) (start : Z) (s : Emulator) : Emulator :=
  with_memory s (list_inserts (Z.to_nat start) sprite (memory s)).

(** The constructor, run on storage [raw] whose arrays hold whatever they
    held: the members with an initialiser and the two timers are set, the
    sprites are copied, nothing else is written. [now_sound] and [now_delay]
    are the clock readings of the two calls of [set]. *)
Definition new_emulator (now_sound now_delay : Z) (raw : Emulator) : Emulator :=
  let s :=
    {| display_buffer := display_buffer raw;
       keyboard_state := keyboard_state raw;
       sound_timer := Timer.set 0 now_sound;
       delay_timer := Timer.set 0 now_delay;
       memory := memory raw;
       program_counter := PROGRAM_STARTING_ADDRESS;
       stack_frames := stack_frames raw;
       stack_pointer := 0;
       gp_registers := gp_registers raw;
       i_register := 0 |} in
  foldl (fun s i =>
           copy (data !!! i)
                (BUILT_IN_CHAR_STARTING_ADDRESS + Z.of_nat i * 5) s)
        s (seq 0 (length data)).

(** ** The program text, line by line *)

(** What the loop of [load_program] makes of lines taken one after the
    other, from the bytes gathered so far: [None] once a line is
    malformed. *)
Fixpoint bytes_of_lines (stoi : text -> stoi_result) (lines : list text)
    (bytes : list Z) : option (list Z) :=
  match lines with
  | [] => Some bytes
  | line :: lines =>
      match load_line stoi line with
      | Skipped => bytes_of_lines stoi lines bytes
      | Word high low => bytes_of_lines stoi lines (bytes ++ [high; low])
      | Malformed => None
      | NoWordStart => None
      end
  end.

(** The unfinished line at the end of a text, if there is one. *)
Definition last_line (rest : text) : list text :=
  match rest with [] => [] | _ => [rest] end.

(** A line that ends with its newline. *)
Definition terminated (line : text) : Prop :=
  exists body, line = body ++ [nl] /\ (nl ∉ body).

(** The two bytes that a line gives for the value [v] that [stoi] converted:
    [uint16_t word = v], then [(word & 0xff00) >> 8] and [word & 0x00ff]. *)
Definition bytes_of_value (v : Z) : list Z := [u16 v / 256; u16 v mod 256].

(** * Properties *)

(** ** Masks and nibbles *)

Lemma land_shiftl_mask w m k :
  0 <= k -> Z.land w (Z.shiftl m k) = Z.shiftl (Z.land (Z.shiftr w k) m) k.
Proof.
  intros Hk. apply Z.bits_inj'. intros n Hn.
  rewrite Z.land_spec. destruct (Z.lt_ge_cases n k).
  - rewrite !Z.shiftl_spec_low by lia. apply andb_false_r.
  - rewrite !Z.shiftl_spec by lia.
    rewrite Z.land_spec, Z.shiftr_spec by lia.
    replace (n - k + k) with n by lia. reflexivity.
Qed.

Lemma land_shiftl_small a b k :
  0 <= k -> 0 <= b < 2 ^ k -> Z.land (Z.shiftl a k) b = 0.
Proof.
  intros Hk Hb. apply Z.bits_inj'. intros n Hn.
  rewrite Z.land_spec, Z.bits_0. destruct (Z.lt_ge_cases n k).
  - by rewrite Z.shiftl_spec_low by lia.
  - assert (Z.testbit b n = false) as ->; [|apply andb_false_r].
    destruct (Z.eq_dec b 0) as [->|Hne]; [apply Z.bits_0|].
    apply Z.bits_above_log2; [lia|].
    assert (Z.log2 b < k); [|lia]. apply Z.log2_lt_pow2; lia.
Qed.

Lemma lor_disjoint_add a b k :
  0 <= k -> 0 <= b < 2 ^ k -> Z.lor (Z.shiftl a k) b = Z.shiftl a k + b.
Proof.
  intros Hk Hb. pose proof (land_shiftl_small a b k Hk Hb).
  by rewrite <- Z.lxor_lor, Z.add_nocarry_lxor.
Qed.

Lemma high_nibble_small w : 0 <= w < 65536 -> (w / 4096) mod 16 = w / 4096.
Proof.
  intros Hw. apply Z.mod_small. split; [apply Z.div_pos; lia|].
  apply Z.div_lt_upper_bound; lia.
Qed.

Lemma mask_f000 w : 0 <= w < 65536 -> Z.land w 0xf000 = 4096 * (w / 4096).
Proof.
  intros Hw. change 0xf000 with (Z.shiftl (Z.ones 4) 12).
  rewrite land_shiftl_mask, Z.land_ones, Z.shiftr_div_pow2, Z.shiftl_mul_pow2 by lia.
  change (2 ^ 12) with 4096. change (2 ^ 4) with 16.
  rewrite high_nibble_small by done. lia.
Qed.

Lemma mask_0fff w : Z.land w 0x0fff = w mod 4096.
Proof. change 0x0fff with (Z.ones 12). by rewrite Z.land_ones. Qed.

Lemma mask_00ff w : Z.land w 0x00ff = w mod 256.
Proof. change 0x00ff with (Z.ones 8). by rewrite Z.land_ones. Qed.

Lemma mask_f00f w :
  0 <= w < 65536 -> Z.land w 0xf00f = 4096 * (w / 4096) + w mod 16.
Proof.
  intros Hw. change 0xf00f with (Z.lor (Z.shiftl (Z.ones 4) 12) (Z.ones 4)).
  rewrite Z.land_lor_distr_r, land_shiftl_mask, !Z.land_ones by lia.
  rewrite lor_disjoint_add; [|lia|].
  - rewrite Z.shiftr_div_pow2, Z.shiftl_mul_pow2 by lia.
    change (2 ^ 12) with 4096. change (2 ^ 4) with 16.
    rewrite high_nibble_small by done. lia.
  - change (2 ^ 4) with 16. change (2 ^ 12) with 4096.
    pose proof (Z.mod_pos_bound w 16). lia.
Qed.

Lemma mask_f0ff w :
  0 <= w < 65536 -> Z.land w 0xf0ff = 4096 * (w / 4096) + w mod 256.
Proof.
  intros Hw. change 0xf0ff with (Z.lor (Z.shiftl (Z.ones 4) 12) (Z.ones 8)).
  rewrite Z.land_lor_distr_r, land_shiftl_mask, !Z.land_ones by lia.
  rewrite lor_disjoint_add; [|lia|].
  - rewrite Z.shiftr_div_pow2, Z.shiftl_mul_pow2 by lia.
    change (2 ^ 12) with 4096. change (2 ^ 4) with 16. change (2 ^ 8) with 256.
    rewrite high_nibble_small by done. lia.
  - change (2 ^ 8) with 256. change (2 ^ 12) with 4096.
    pose proof (Z.mod_pos_bound w 256). lia.
Qed.

Lemma get_nibble_spec w i :
  0 <= i < 4 -> get_nibble w i = Ok ((w / 2 ^ (4 * (3 - i))) mod 16).
Proof.
  intros Hi. unfold get_nibble.
  destruct (4 <=? i) eqn:E; [lia|].
  f_equal. unfold u4. change 0xf with (Z.ones 4).
  rewrite land_shiftl_mask, Z.shiftr_shiftl_l by lia.
  rewrite Z.sub_diag, Z.shiftl_0_r, Z.land_ones, Z.shiftr_div_pow2 by lia.
  change (2 ^ 4) with 16. by rewrite Z.mod_mod.
Qed.

Lemma instruction_word_nibbles op x y n :
  0 <= op < 16 -> 0 <= x < 16 -> 0 <= y < 16 -> 0 <= n < 16 ->
  let w := instruction_word op x y n in
  0 <= w < 65536 /\ w / 4096 = op
  /\ get_nibble w 1 = Ok x /\ get_nibble w 2 = Ok y /\ get_nibble w 3 = Ok n
  /\ w mod 16 = n /\ w mod 256 = 16 * y + n
  /\ w mod 4096 = 256 * x + 16 * y + n.
Proof.
  intros Hop Hx Hy Hn w. subst w. rewrite !get_nibble_spec by lia.
  change (2 ^ (4 * (3 - 1))) with 256. change (2 ^ (4 * (3 - 2))) with 16.
  change (2 ^ (4 * (3 - 3))) with 1. rewrite Z.div_1_r.
  unfold instruction_word.
  repeat split; try lia; try f_equal.
  all: Z.div_mod_to_equations; lia.
Qed.

(** Decide the tests of [evaluate_instruction] one after the other. *)
Ltac dispatch_step :=
  match goal with
  | |- (if ?c then _ else _) = _ =>
      let E := fresh "E" in
      destruct c eqn:E;
      [apply Z.eqb_eq in E; try (exfalso; lia)
      |apply Z.eqb_neq in E; try (exfalso; lia)]
  end.

Ltac dispatch op x y n :=
  let Hw := fresh "Hw" in let Hop := fresh "Hop" in
  let Hx := fresh "Hx" in let Hy := fresh "Hy" in let Hz := fresh "Hz" in
  let Hn := fresh "Hn" in let Hlo := fresh "Hlo" in let Hadr := fresh "Hadr" in
  let Hi := fresh "Hi" in let i := fresh "i" in
  destruct (instruction_word_nibbles op x y n)
    as (Hw & Hop & Hx & Hy & Hz & Hn & Hlo & Hadr); [lia..|];
  remember (instruction_word op x y n) as i eqn:Hi;
  unfold instruction_word in Hi;
  unfold evaluate_instruction, matches;
  rewrite ?mask_f000, ?mask_f00f, ?mask_f0ff, ?mask_0fff, ?mask_00ff by done;
  rewrite ?Hop, ?Hn, ?Hlo, ?Hadr, ?Hx, ?Hy, ?Hz;
  repeat dispatch_step;
  change (@mbind outcome _) with (fun A B k m => @bind A B m k);
  cbv beta; cbn [bind].

(** ** Registers and the class invariant *)

Lemma reg_set_reg_eq s r v :
  (Z.to_nat r < length (gp_registers s))%nat -> reg (set_reg s r v) r = v.
Proof. intros H. unfold reg, set_reg. cbn. by apply list_lookup_total_insert_eq. Qed.

Lemma reg_set_reg_ne s r r' v :
  Z.to_nat r <> Z.to_nat r' -> reg (set_reg s r v) r' = reg s r'.
Proof. intros H. unfold reg, set_reg. cbn. by apply list_lookup_total_insert_ne. Qed.

Lemma reg_advance s n r : reg (advance s n) r = reg s r.
Proof. reflexivity. Qed.

Lemma registers_set_reg s r v :
  length (gp_registers (set_reg s r v)) = length (gp_registers s).
Proof. unfold set_reg. cbn. apply length_insert. Qed.

Lemma blank_well_formed : well_formed blank.
Proof.
  split; unfold blank;
    cbn [display_buffer keyboard_state memory stack_frames gp_registers
         program_counter i_register stack_pointer];
    rewrite ?length_replicate; try reflexivity.
  1, 2: apply Forall_replicate; lia.
  all: unfold PROGRAM_STARTING_ADDRESS; lia.
Qed.

Lemma well_formed_set_reg s r v :
  well_formed s -> 0 <= v < 256 -> well_formed (set_reg s r v).
Proof.
  intros [] Hv. split; cbn; rewrite ?length_insert; try done.
  destruct (decide (Z.to_nat r < length (gp_registers s))%nat).
  - by apply Forall_insert.
  - rewrite list_insert_ge by lia. done.
Qed.

Lemma well_formed_with_memory s m :
  well_formed s -> length m = 4096%nat -> Forall (fun v => 0 <= v < 256) m ->
  well_formed (with_memory s m).
Proof. intros [] Hm Hc. by split. Qed.

Lemma well_formed_with_i s i :
  well_formed s -> 0 <= i < 65536 -> well_formed (with_i s i).
Proof. intros [] Hi. by split. Qed.

Ltac regs H :=
  pose proof (wf_registers _ H);
  rewrite ?reg_advance;
  repeat first
    [ rewrite reg_set_reg_eq by (rewrite ?registers_set_reg; lia)
    | rewrite reg_set_reg_ne by lia ].

(** ** Skip if key not pressed (ExA1) *)

(** The handler written for exa1 does what its name says. *)
Lemma skip_if_not_key_press_spec s r :
  program_counter (skip_if_not_key_press r s)
  = u16 (program_counter s
         + (if is_key_pressed s (reg s r mod 16) then 2 else 4)).
Proof.
  unfold skip_if_not_key_press. by destruct (is_key_pressed _ _).
Qed.

Lemma evaluate_exa1 fuel w x s :
  0 <= x < 16 ->
  evaluate_instruction fuel w (instruction_word 0xe x 0xa 0x1) s
  = Fatal (UnknownInstruction (instruction_word 0xe x 0xa 0x1)).
Proof.
  intros Hx. dispatch 0xe x 0xa 0x1. reflexivity.
Qed.

(** The sibling ex9e is dispatched to its handler. *)
Lemma evaluate_ex9e fuel w x s :
  0 <= x < 16 ->
  evaluate_instruction fuel w (instruction_word 0xe x 0x9 0xe) s
  = Ok (skip_if_key_press x s, false).
Proof.
  intros Hx. dispatch 0xe x 0x9 0xe. reflexivity.
Qed.

(** C1 (the code departs from the claim). A cycle that fetches a word of
    the form ExA1 does not reach [skip_if_not_key_press]: no test of
    [evaluate_instruction] matches the word, and the cycle ends in the fatal
    "unknown instruction" error, whatever the key state is. *)
Theorem exa1_is_unknown_instruction fuel w s x :
  0 <= x < 16 ->
  mem_read s (program_counter s) = Ok (0xe0 + x) ->
  mem_read s (program_counter s + 1) = Ok 0xa1 ->
  cycle fuel w s = Fatal (UnknownInstruction (instruction_word 0xe x 0xa 0x1)).
Proof.
  intros Hx Hhi Hlo. unfold cycle, fetch.
  change (@mbind outcome _) with (fun A B k m => @bind A B m k). cbv beta.
  rewrite Hhi, Hlo. cbn [bind].
  replace (u16 (Z.shiftl (0xe0 + x) 8 + 0xa1)) with (instruction_word 0xe x 0xa 0x1).
  - by apply evaluate_exa1.
  - unfold instruction_word, u16. rewrite Z.shiftl_mul_pow2 by lia.
    change (2 ^ 8) with 256. rewrite Z.mod_small; lia.
Qed.

Lemma exa1_is_unknown_instruction_witness :
  cycle 0 still exa1_state = Fatal (UnknownInstruction 0xe0a1).
Proof.
  apply (exa1_is_unknown_instruction 0 still exa1_state 0);
    [lia | reflexivity | reflexivity].
Defined.

(** ** Add with carry (8xy4) *)

(** C2 (the code departs from the claim). 8xy4 on two distinct registers
    other than VF leaves (a + b) mod 256 in Vx, but computes the flag from
    the registers after that store: VF is 1 exactly when
    ((a + b) mod 256) + b exceeds 255, not when a + b does. *)
Theorem carry_add_reg_flag_after_store fuel w s x y :
  well_formed s -> 0 <= x < 15 -> 0 <= y < 15 -> x <> y ->
  exists s',
    evaluate_instruction fuel w (instruction_word 8 x y 4) s = Ok (s', false)
    /\ reg s' x = (reg s x + reg s y) mod 256
    /\ reg s' 0xf = Z_of_bool (0xff <? (reg s x + reg s y) mod 256 + reg s y).
Proof.
  intros Hwf Hx Hy Hxy. eexists. split; [dispatch 8 x y 4; reflexivity|].
  unfold carry_add_reg, u8. regs Hwf. done.
Qed.

(** At V0 = 200 and V1 = 100 the sum 300 exceeds 255 and VF is 0. *)
Lemma carry_add_reg_flag_after_store_witness :
  exists s',
    evaluate_instruction 0 still 0x8014 carry_state = Ok (s', false)
    /\ reg s' 0 = 44 /\ reg s' 0xf = 0 /\ reg carry_state 0 + reg carry_state 1 = 300.
Proof.
  destruct (carry_add_reg_flag_after_store 0 still carry_state 0 1)
    as (s' & He & Hx & Hf); [|lia|lia|lia|].
  - unfold carry_state. repeat apply well_formed_set_reg; try lia.
    apply blank_well_formed.
  - exists s'. split; [exact He|]. split; [exact Hx|]. split; [exact Hf|reflexivity].
Defined.

(** ** Shift right (8x_6) *)

(** C3 (the code departs from the claim). 8x_6 stores v >> 1 in Vx and then
    takes the flag from the register it has just shifted: VF receives bit 1
    of v, not the bit shifted out. *)
Theorem shift_right_flag_after_shift fuel w s x y :
  well_formed s -> 0 <= x < 15 -> 0 <= y < 16 ->
  exists s',
    evaluate_instruction fuel w (instruction_word 8 x y 6) s = Ok (s', false)
    /\ reg s' x = Z.shiftr (reg s x) 1
    /\ reg s' 0xf = Z.land 1 (Z.shiftr (reg s x) 1).
Proof.
  intros Hwf Hx Hy. eexists. split; [dispatch 8 x y 6; reflexivity|].
  unfold shift_right. regs Hwf. done.
Qed.

(** At V0 = 1 the bit shifted out is 1 and VF is 0. *)
Lemma shift_right_flag_after_shift_witness :
  exists s',
    evaluate_instruction 0 still 0x8006 shift_state = Ok (s', false)
    /\ reg s' 0 = 0 /\ reg s' 0xf = 0 /\ Z.land (reg shift_state 0) 1 = 1.
Proof.
  destruct (shift_right_flag_after_shift 0 still shift_state 0 0)
    as (s' & He & Hx & Hf); [|lia|lia|].
  - unfold shift_state. apply well_formed_set_reg; [apply blank_well_formed|lia].
  - exists s'. split; [exact He|]. split; [exact Hx|]. split; [exact Hf|reflexivity].
Defined.

(** ** Subtract with borrow flag (8xy5) *)

(** C4, as stated, fails when VF is the subtrahend: 80f5 at V0 = 5, VF = 3
    writes the flag 1 into VF first and leaves 5 - 1 in V0. *)
Lemma carry_sub_reg_flag_is_operand :
  exists s',
    evaluate_instruction 0 still 0x80f5 borrow_state = Ok (s', false)
    /\ reg s' 0 = 4
    /\ reg s' 0 <> (reg borrow_state 0 - reg borrow_state 0xf) mod 256.
Proof. eexists. split; [reflexivity|]. split; [reflexivity|]. by vm_compute. Qed.

(** C4 (amended). For every register x other than VF and every register y,
    8xy5 sets VF to 1 if a >= b and to 0 otherwise, a and b being the
    values of Vx and Vy before the instruction; when y is not VF either, Vx
    receives (a - b) mod 256, and equal operands give flag 1 and result 0. *)
Theorem carry_sub_reg_borrow fuel w s x y :
  well_formed s -> 0 <= x < 15 -> 0 <= y < 16 ->
  exists s',
    evaluate_instruction fuel w (instruction_word 8 x y 5) s = Ok (s', false)
    /\ (reg s' 0xf = 1 <-> reg s y <= reg s x)
    /\ (reg s' 0xf = 0 <-> reg s x < reg s y)
    /\ (y <> 15 -> reg s' x = (reg s x - reg s y) mod 256)
    /\ (y <> 15 -> reg s x = reg s y -> reg s' 0xf = 1 /\ reg s' x = 0).
Proof.
  intros Hwf Hx Hy. eexists. split; [dispatch 8 x y 5; reflexivity|].
  unfold carry_sub_reg, u8. regs Hwf.
  assert (Hf : forall b, (Z_of_bool b = 1 <-> b = true) /\ (Z_of_bool b = 0 <-> b = false))
    by (intros []; cbn; split; split; congruence).
  destruct (Hf (reg s y <=? reg s x)) as [H1 H0].
  rewrite H1, H0, Z.leb_le, Z.leb_gt.
  repeat split; try tauto.
  - intros Hy'. regs Hwf. done.
  - regs Hwf. apply Z.leb_le. lia.
  - regs Hwf. replace (reg s x - reg s y) with 0 by lia. done.
Qed.

Lemma carry_sub_reg_borrow_witness :
  exists s',
    evaluate_instruction 0 still 0x8015 carry_state = Ok (s', false)
    /\ reg s' 0xf = 1 /\ reg s' 0 = 100.
Proof.
  destruct (carry_sub_reg_borrow 0 still carry_state 0 1)
    as (s' & He & H1 & _ & Hd & _); [|lia|lia|].
  - unfold carry_state. repeat apply well_formed_set_reg; try lia.
    apply blank_well_formed.
  - exists s'. split; [exact He|]. split.
    + apply H1. vm_compute. discriminate.
    + rewrite Hd by lia. reflexivity.
Defined.

(** ** Call (2nnn) *)

Lemma instruction_word_address op a :
  0 <= a < 4096 ->
  4096 * op + a = instruction_word op (a / 256) ((a / 16) mod 16) (a mod 16)
  /\ 0 <= a / 256 < 16 /\ 0 <= (a / 16) mod 16 < 16 /\ 0 <= a mod 16 < 16
  /\ 256 * (a / 256) + 16 * ((a / 16) mod 16) + a mod 16 = a.
Proof.
  intros Ha. unfold instruction_word.
  repeat split; Z.div_mod_to_equations; lia.
Qed.

Lemma evaluate_call fuel w s target :
  0 <= target < 4096 ->
  evaluate_instruction fuel w (0x2000 + target) s
  = bind (call target s) (fun s => Ok (s, false)).
Proof.
  intros Ht. change (0x2000 + target) with (4096 * 2 + target).
  destruct (instruction_word_address 2 target Ht) as (-> & Hx & Hy & Hn & Ha).
  dispatch 2 (target / 256) ((target / 16) mod 16) (target mod 16).
  rewrite Ha. by destruct (call target s).
Qed.

(** C6, as stated, fails at the target 0xFFF: the address lies inside the
    4096-byte memory and the stack is empty, and the call is fatal. *)
Lemma call_to_last_byte_is_fatal :
  evaluate_instruction 0 still 0x2fff blank = Fatal (CallOutsideMemory 0xfff)
  /\ stack_pointer blank = 0
  /\ 0 <= 0xfff < Z.of_nat (length (memory blank)).
Proof. split; [reflexivity|]. split; [reflexivity|]. by vm_compute. Qed.

(** C6 (amended). With at most 16 frames on the stack, 2nnn fails fatally
    exactly when the stack already holds 16 return addresses or the target
    is 4095 or more, the last address at which a two-byte instruction does
    not fit in memory. Otherwise it stores PC + 2 (as a 16-bit value) in the
    next free slot, leaves every frame below it as it was, adds one to the
    stack pointer and sets PC to the target. *)
Theorem call_checked fuel w s target :
  well_formed s -> stack_pointer s <= 16 -> 0 <= target < 4096 ->
  let r := evaluate_instruction fuel w (0x2000 + target) s in
  ((exists e, r = Fatal e) <-> stack_pointer s = 16 \/ 4095 <= target)
  /\ (stack_pointer s < 16 -> target < 4095 ->
      exists s',
        r = Ok (s', false)
        /\ stack_frames s' !! Z.to_nat (stack_pointer s)
           = Some ((program_counter s + 2) mod 65536)
        /\ (forall j, (j < Z.to_nat (stack_pointer s))%nat ->
                      stack_frames s' !! j = stack_frames s !! j)
        /\ stack_pointer s' = stack_pointer s + 1
        /\ program_counter s' = target).
Proof.
  intros Hwf Hsp Ht r. subst r. rewrite evaluate_call by done.
  pose proof (wf_memory _ Hwf) as Hm. pose proof (wf_frames _ Hwf) as Hf.
  pose proof (wf_sp _ Hwf) as Hsp0.
  unfold call. rewrite Hm. change (Z.of_nat 4096 - 1) with 4095.
  destruct (15 <? stack_pointer s) eqn:E1; [apply Z.ltb_lt in E1|apply Z.ltb_ge in E1].
  { cbn [bind]. split; [split; [intros _; lia|eauto]|lia]. }
  destruct (4095 <=? target) eqn:E2; [apply Z.leb_le in E2|apply Z.leb_gt in E2].
  { cbn [bind]. split; [split; [intros _; lia|eauto]|lia]. }
  cbn [bind]. split.
  - split; [intros [e He]; discriminate|lia].
  - intros _ _. eexists. split; [reflexivity|]. cbn.
    split; [apply list_lookup_insert_eq; lia|].
    split; [intros j Hj; apply list_lookup_insert_ne; lia|].
    split; [|reflexivity]. unfold u8. rewrite Z.mod_small; lia.
Qed.

Lemma call_checked_witness :
  exists s',
    evaluate_instruction 0 still 0x2ffe blank = Ok (s', false)
    /\ stack_frames s' !! 0%nat = Some 0x202
    /\ stack_pointer s' = 1 /\ program_counter s' = 0xffe.
Proof.
  destruct (call_checked 0 still blank 0xffe blank_well_formed)
    as [_ Hok]; [vm_compute; discriminate|lia|].
  destruct Hok as (s' & He & Hf & _ & Hsp & Hpc);
    [vm_compute; reflexivity|lia|].
  exists s'. split; [exact He|]. split; [exact Hf|]. split; [exact Hsp|exact Hpc].
Defined.

(** ** Bulk transfers (Fx55, Fx65) *)

Lemma u4_incr_range i : 0 <= u4_incr i < 16.
Proof. unfold u4_incr. apply Z.mod_pos_bound. lia. Qed.

Lemma mem_write_in_range s addr v :
  0 <= addr < Z.of_nat (length (memory s)) ->
  mem_write s addr v
  = Ok (with_memory s (<[Z.to_nat addr := v]> (memory s))).
Proof.
  intros H. unfold mem_write.
  destruct (addr <? Z.of_nat (length (memory s))) eqn:E; [done|lia].
Qed.

Lemma mem_read_in_range s addr :
  0 <= addr < Z.of_nat (length (memory s)) ->
  mem_read s addr = Ok (memory s !!! Z.to_nat addr).
Proof.
  intros H. unfold mem_read.
  rewrite (list_lookup_lookup_total_lt (memory s) (Z.to_nat addr)) by lia. done.
Qed.

Lemma mem_read_out_of_range s addr :
  Z.of_nat (length (memory s)) <= addr -> mem_read s addr = OutOfRange.
Proof.
  intros H. unfold mem_read.
  rewrite (proj2 (lookup_ge_None (memory s) (Z.to_nat addr))) by lia. done.
Qed.

(** With 15 as the last register, the test [i <= reg_final] holds for every
    value of the 4-bit counter, and the loop runs for as long as it is
    given. *)
Lemma load_reg_to_mem_loop_all fuel : forall i s,
  0 <= i < 16 -> length (memory s) = 4096%nat ->
  0 <= i_register s -> i_register s + 15 < 4096 ->
  load_reg_to_mem_loop fuel i 15 s = OutOfFuel.
Proof.
  induction fuel as [|fuel IH]; intros i s Hi Hm HI0 HI; [done|].
  cbn [load_reg_to_mem_loop].
  destruct (i <=? 15) eqn:E; [|lia].
  rewrite mem_write_in_range by lia.
  change (@mbind outcome _) with (fun A B k m => @bind A B m k).
  cbv beta. cbn [bind].
  apply IH; cbn; rewrite ?length_insert; try done. apply u4_incr_range.
Qed.

Lemma load_mem_to_reg_loop_all fuel : forall i s,
  0 <= i < 16 -> length (memory s) = 4096%nat ->
  0 <= i_register s -> i_register s + 15 < 4096 ->
  load_mem_to_reg_loop fuel i 15 s = OutOfFuel.
Proof.
  induction fuel as [|fuel IH]; intros i s Hi Hm HI0 HI; [done|].
  cbn [load_mem_to_reg_loop].
  destruct (i <=? 15) eqn:E; [|lia].
  rewrite mem_read_in_range by lia.
  change (@mbind outcome _) with (fun A B k m => @bind A B m k).
  cbv beta. cbn [bind].
  apply IH; cbn; try done. apply u4_incr_range.
Qed.

(** With an operand below 15 the loop of Fx55 ends after one round per
    register and one more, having copied registers [i] to [reg_final]. *)
Lemma load_reg_to_mem_loop_below fuel : forall i reg_final s,
  0 <= i <= reg_final + 1 -> reg_final < 15 ->
  (Z.to_nat (reg_final + 1 - i) < fuel)%nat ->
  length (memory s) = 4096%nat ->
  0 <= i_register s -> i_register s + reg_final < 4096 ->
  exists s',
    load_reg_to_mem_loop fuel i reg_final s = Ok s'
    /\ gp_registers s' = gp_registers s
    /\ i_register s' = i_register s
    /\ program_counter s' = program_counter s
    /\ length (memory s') = 4096%nat
    /\ (forall j, i <= j <= reg_final ->
          memory s' !! Z.to_nat (i_register s + j) = Some (reg s j))
    /\ (forall a, (a < Z.to_nat (i_register s + i))%nat ->
          memory s' !! a = memory s !! a).
Proof.
  induction fuel as [|fuel IH]; intros i reg_final s Hi Hr Hfuel Hm HI0 HI; [lia|].
  cbn [load_reg_to_mem_loop].
  destruct (i <=? reg_final) eqn:E; [apply Z.leb_le in E|apply Z.leb_gt in E].
  - rewrite mem_write_in_range by lia.
    change (@mbind outcome _) with (fun A B k m => @bind A B m k).
    cbv beta. cbn [bind].
    assert (Hincr : u4_incr i = i + 1)
      by (unfold u4_incr; rewrite Z.mod_small; lia).
    rewrite Hincr.
    set (s1 := with_memory s (<[Z.to_nat (i_register s + i) := reg s i]> (memory s))).
    destruct (IH (i + 1) reg_final s1) as (s' & Hrun & Hg & Hir & Hpc & Hlen & Hcopy & Hlow);
      try (subst s1; cbn; rewrite ?length_insert; done || lia).
    exists s'. split; [done|]. repeat split; try done.
    + intros j Hj. destruct (decide (j = i)) as [->|Hne].
      * rewrite Hlow by (subst s1; cbn; lia). subst s1. cbn.
        apply list_lookup_insert_eq. lia.
      * apply Hcopy. lia.
    + intros a Ha. rewrite Hlow by (subst s1; cbn; lia). subst s1. cbn.
      apply list_lookup_insert_ne. lia.
  - exists s. repeat split; try done. intros j Hj. lia.
Qed.

(** For the operands 0 to 14, Fx55 does what its comment says. *)
Lemma load_reg_to_mem_below fuel w s x :
  well_formed s -> 0 <= x < 15 -> (16 <= fuel)%nat ->
  i_register s + x < 4096 ->
  exists s',
    evaluate_instruction fuel w (instruction_word 0xf x 5 5) s = Ok (s', false)
    /\ program_counter s' = u16 (program_counter s + 2)
    /\ gp_registers s' = gp_registers s
    /\ (forall j, 0 <= j <= x ->
          memory s' !! Z.to_nat (i_register s + j) = Some (reg s j))
    /\ (forall a, (a < Z.to_nat (i_register s))%nat ->
          memory s' !! a = memory s !! a).
Proof.
  intros Hwf Hx Hfuel HI.
  pose proof (wf_memory _ Hwf). pose proof (wf_i _ Hwf).
  destruct (load_reg_to_mem_loop_below fuel 0 x s)
    as (s' & Hrun & Hg & Hir & Hpc & Hlen & Hcopy & Hlow); try (done || lia).
  exists (advance s' INSTRUCTION_SIZE). split.
  - dispatch 0xf x 5 5. unfold load_reg_to_mem. change (u4 0) with 0.
    rewrite Hrun. reflexivity.
  - cbn. rewrite Hpc. repeat split; try done.
    intros a Ha. apply Hlow. lia.
Qed.

(** The same for Fx65: registers [i] to [reg_final] are read from memory. *)
Lemma load_mem_to_reg_loop_below fuel : forall i reg_final s,
  0 <= i <= reg_final + 1 -> reg_final < 15 ->
  (Z.to_nat (reg_final + 1 - i) < fuel)%nat ->
  length (memory s) = 4096%nat -> length (gp_registers s) = 16%nat ->
  0 <= i_register s -> i_register s + reg_final < 4096 ->
  exists s',
    load_mem_to_reg_loop fuel i reg_final s = Ok s'
    /\ memory s' = memory s
    /\ i_register s' = i_register s
    /\ program_counter s' = program_counter s
    /\ (forall j, i <= j <= reg_final ->
          reg s' j = memory s !!! Z.to_nat (i_register s + j))
    /\ (forall j, 0 <= j < i \/ reg_final < j -> reg s' j = reg s j).
Proof.
  induction fuel as [|fuel IH];
    intros i reg_final s Hi Hr Hfuel Hm Hg HI0 HI; [lia|].
  cbn [load_mem_to_reg_loop].
  destruct (i <=? reg_final) eqn:E; [apply Z.leb_le in E|apply Z.leb_gt in E].
  - rewrite mem_read_in_range by lia.
    change (@mbind outcome _) with (fun A B k m => @bind A B m k).
    cbv beta. cbn [bind].
    assert (Hincr : u4_incr i = i + 1)
      by (unfold u4_incr; rewrite Z.mod_small; lia).
    rewrite Hincr.
    set (v := memory s !!! Z.to_nat (i_register s + i)).
    destruct (IH (i + 1) reg_final (set_reg s i v))
      as (s' & Hrun & Hmem & Hir & Hpc & Hcopy & Hrest);
      try (rewrite ?registers_set_reg; done || lia).
    exists s'. split; [done|]. repeat split; try done.
    + intros j Hj. destruct (decide (j = i)) as [->|Hne].
      * rewrite Hrest by lia. apply reg_set_reg_eq. lia.
      * apply Hcopy. lia.
    + intros j Hj. rewrite Hrest by lia. apply reg_set_reg_ne. lia.
  - exists s. repeat split; try done. intros j Hj. lia.
Qed.

Lemma load_mem_to_reg_below fuel w s x :
  well_formed s -> 0 <= x < 15 -> (16 <= fuel)%nat ->
  i_register s + x < 4096 ->
  exists s',
    evaluate_instruction fuel w (instruction_word 0xf x 6 5) s = Ok (s', false)
    /\ program_counter s' = u16 (program_counter s + 2)
    /\ memory s' = memory s
    /\ (forall j, 0 <= j <= x ->
          reg s' j = memory s !!! Z.to_nat (i_register s + j))
    /\ (forall j, x < j -> reg s' j = reg s j).
Proof.
  intros Hwf Hx Hfuel HI.
  pose proof (wf_memory _ Hwf). pose proof (wf_i _ Hwf).
  pose proof (wf_registers _ Hwf).
  destruct (load_mem_to_reg_loop_below fuel 0 x s)
    as (s' & Hrun & Hmem & Hir & Hpc & Hcopy & Hrest); try (done || lia).
  exists (advance s' INSTRUCTION_SIZE). split.
  - dispatch 0xf x 6 5. unfold load_mem_to_reg.
    destruct (15 <? x) eqn:Hguard; [lia|]. change (u4 0) with 0.
    rewrite Hrun. reflexivity.
  - cbn. rewrite Hpc. repeat split; try done.
    intros j Hj. rewrite reg_advance. apply Hrest. lia.
Qed.

(** C5 (the code departs from the claim). With the operand 15 and the
    sixteen cells at I inside memory, neither FF55 nor FF65 ends: whatever
    number of rounds the copy loop is given, it has not finished, because
    its 4-bit counter wraps from 15 to 0 and never exceeds the operand. *)
Theorem bulk_transfer_of_all_registers_never_ends fuel w s :
  well_formed s -> i_register s + 15 < 4096 ->
  evaluate_instruction fuel w (instruction_word 0xf 0xf 5 5) s = OutOfFuel
  /\ evaluate_instruction fuel w (instruction_word 0xf 0xf 6 5) s = OutOfFuel.
Proof.
  intros Hwf HI. pose proof (wf_memory _ Hwf). pose proof (wf_i _ Hwf).
  split.
  - dispatch 0xf 0xf 5 5. unfold load_reg_to_mem.
    rewrite load_reg_to_mem_loop_all; try done; try lia.
  - dispatch 0xf 0xf 6 5. unfold load_mem_to_reg.
    destruct (15 <? 15) eqn:Hguard; [lia|].
    rewrite load_mem_to_reg_loop_all; try done; try lia.
Qed.

Lemma bulk_transfer_of_all_registers_never_ends_witness :
  evaluate_instruction 1000 still 0xff55 blank = OutOfFuel
  /\ evaluate_instruction 1000 still 0xff65 blank = OutOfFuel.
Proof.
  apply (bulk_transfer_of_all_registers_never_ends 1000 still blank);
    [apply blank_well_formed | vm_compute; reflexivity].
Defined.

(** ** Drawing (DxyN) *)

Lemma xor_at_length px bit b : length (xor_at px bit b) = length b.
Proof. apply length_insert. Qed.

Lemma xor_at_lookup_ne px bit b k : px <> k -> xor_at px bit b !!! k = b !!! k.
Proof. intros. unfold xor_at. by apply list_lookup_total_insert_ne. Qed.

Lemma xor_at_lookup_eq px bit b :
  (px < length b)%nat -> xor_at px bit b !!! px = xorb (b !!! px) bit.
Proof. intros. unfold xor_at. by apply list_lookup_total_insert_eq. Qed.

Lemma xor_at_twice px bit b : xor_at px bit (xor_at px bit b) = b.
Proof.
  destruct (decide (px < length b)%nat) as [Hlt|Hge].
  - unfold xor_at at 1. rewrite xor_at_lookup_eq by done.
    unfold xor_at. rewrite list_insert_insert_eq.
    apply list_insert_id. rewrite list_lookup_lookup_total_lt by done.
    by destruct (b !!! px), bit.
  - unfold xor_at. rewrite (list_insert_ge b) by lia.
    apply list_insert_ge. lia.
Qed.

Lemma xor_at_comm p1 t1 p2 t2 b :
  xor_at p1 t1 (xor_at p2 t2 b) = xor_at p2 t2 (xor_at p1 t1 b).
Proof.
  destruct (decide (p1 = p2)) as [->|Hne].
  - destruct (decide (p2 < length b)%nat) as [Hlt|Hge].
    + unfold xor_at at 1 3. rewrite !xor_at_lookup_eq by done.
      unfold xor_at. rewrite !list_insert_insert_eq.
      by destruct (b !!! p2), t1, t2.
    + unfold xor_at. by rewrite !(list_insert_ge b) by lia.
  - unfold xor_at at 1 3. rewrite !xor_at_lookup_ne by done.
    unfold xor_at. by apply list_insert_insert_ne.
Qed.

Lemma blit_xor_at strokes : forall px bit b,
  blit strokes (xor_at px bit b) = xor_at px bit (blit strokes b).
Proof.
  induction strokes as [|[p t] strokes IH]; intros px bit b; [done|].
  cbn [blit]. by rewrite xor_at_comm, IH.
Qed.

Lemma blit_length strokes : forall b, length (blit strokes b) = length b.
Proof.
  induction strokes as [|[p t] strokes IH]; intros b; [done|].
  cbn [blit]. by rewrite IH, xor_at_length.
Qed.

Lemma blit_app l1 l2 b : blit (l1 ++ l2) b = blit l2 (blit l1 b).
Proof.
  revert b. induction l1 as [|[p t] l1 IH]; intros b; [done|]. cbn. apply IH.
Qed.

Lemma collision_app l1 l2 b :
  collision (l1 ++ l2) b = collision l1 b || collision l2 (blit l1 b).
Proof.
  revert b. induction l1 as [|[p t] l1 IH]; intros b; [done|].
  cbn. by rewrite IH, orb_assoc.
Qed.

(** XOR-ing the same strokes in twice gives the buffer back. *)
Lemma blit_twice strokes : forall b, blit strokes (blit strokes b) = b.
Proof.
  induction strokes as [|[p t] strokes IH]; intros b; [done|].
  cbn [blit]. by rewrite !blit_xor_at, IH, xor_at_twice.
Qed.

Lemma blit_lookup_outside strokes : forall b k,
  k ∉ strokes.*1 -> blit strokes b !!! k = b !!! k.
Proof.
  induction strokes as [|[p t] strokes IH]; intros b k Hk; [done|].
  cbn in Hk. apply not_elem_of_cons in Hk as [Hne Hk].
  cbn [blit]. rewrite IH by done. by apply xor_at_lookup_ne.
Qed.

Lemma blit_lookup_stroke strokes : forall b px bit,
  NoDup strokes.*1 -> (px, bit) ∈ strokes -> (px < length b)%nat ->
  blit strokes b !!! px = xorb (b !!! px) bit.
Proof.
  induction strokes as [|[p t] strokes IH]; intros b px bit Hnd Hin Hlt.
  - by apply elem_of_nil in Hin.
  - cbn in Hnd. apply list.NoDup_cons in Hnd as [Hp Hnd].
    apply elem_of_cons in Hin as [Heq|Hin]; cbn [blit].
    + injection Heq as -> ->.
      rewrite blit_lookup_outside by done. by apply xor_at_lookup_eq.
    + assert (p <> px).
      { intros ->. apply Hp. apply list_elem_of_fmap. by exists (px, bit). }
      rewrite (IH _ px bit) by (rewrite ?xor_at_length; done).
      by rewrite xor_at_lookup_ne.
Qed.

Lemma collision_spec strokes : forall b,
  NoDup strokes.*1 ->
  collision strokes b = true
  <-> exists px, (px, true) ∈ strokes /\ b !!! px = true.
Proof.
  induction strokes as [|[p t] strokes IH]; intros b Hnd.
  - split; [done|]. intros (px & Hin & _). by apply elem_of_nil in Hin.
  - cbn in Hnd. apply list.NoDup_cons in Hnd as [Hp Hnd].
    cbn [collision]. rewrite orb_true_iff, IH by done. split.
    + intros [Hhere|(px & Hin & Hpx)].
      * exists p. destruct (b !!! p), t; cbn in Hhere; try discriminate.
        split; [apply elem_of_cons; by left|done].
      * exists px. split; [by apply list_elem_of_further|].
        rewrite xor_at_lookup_ne in Hpx; [done|].
        intros ->. apply Hp. apply list_elem_of_fmap. by exists (px, true).
    + intros (px & Hin & Hpx). apply elem_of_cons in Hin as [Heq|Hin].
      * injection Heq as -> <-. left. by rewrite Hpx.
      * right. exists px. split; [done|].
        rewrite xor_at_lookup_ne; [done|].
        intros ->. apply Hp. apply list_elem_of_fmap. by exists (px, true).
Qed.

(** The draw loops, seen from a buffer and a collision flag. *)

Lemma painted_memory s b hit : memory (painted s b hit) = memory s.
Proof. by destruct hit. Qed.

Lemma painted_i_register s b hit : i_register (painted s b hit) = i_register s.
Proof. by destruct hit. Qed.

Lemma painted_buffer s b hit : display_buffer (painted s b hit) = b.
Proof. by destruct hit. Qed.

Lemma painted_here s : painted s (display_buffer s) false = s.
Proof. by destruct s. Qed.

Lemma draw_pixel_painted ul_xpos ul_ypos row row_i bit_i s b hit :
  draw_pixel ul_xpos ul_ypos row row_i bit_i (painted s b hit)
  = painted s
      (xor_at (pixel ul_xpos ul_ypos row_i bit_i) (sprite_bit row bit_i) b)
      (hit || collision [(pixel ul_xpos ul_ypos row_i bit_i, sprite_bit row bit_i)] b).
Proof.
  unfold draw_pixel. rewrite painted_buffer.
  fold (pixel ul_xpos ul_ypos row_i bit_i). fold (sprite_bit row bit_i).
  cbn [collision]. rewrite orb_false_r.
  set (px := pixel ul_xpos ul_ypos row_i bit_i).
  set (bit := sprite_bit row bit_i).
  fold (xor_at px bit b).
  destruct hit, (b !!! px && negb (xorb (b !!! px) bit)); try reflexivity.
  unfold painted, set_reg, with_buffer, with_registers. cbn.
  by rewrite list_insert_insert_eq.
Qed.

Lemma draw_bits_painted ul_xpos ul_ypos row row_i cols : forall s b hit,
  foldl (fun s bit_i => draw_pixel ul_xpos ul_ypos row row_i bit_i s)
        (painted s b hit) cols
  = let strokes :=
      (fun bit_i => (pixel ul_xpos ul_ypos row_i bit_i, sprite_bit row bit_i))
        <$> cols in
    painted s (blit strokes b) (hit || collision strokes b).
Proof.
  induction cols as [|c cols IH]; intros s b hit; cbn [foldl fmap list_fmap].
  - cbv zeta. cbn. by rewrite orb_false_r.
  - rewrite draw_pixel_painted, IH. cbv zeta. cbn [blit collision].
    by rewrite orb_false_r, orb_assoc.
Qed.

Lemma draw_row_painted ul_xpos ul_ypos row row_i s b hit :
  draw_row ul_xpos ul_ypos row row_i (painted s b hit)
  = painted s (blit (row_strokes ul_xpos ul_ypos row row_i) b)
              (hit || collision (row_strokes ul_xpos ul_ypos row row_i) b).
Proof. apply draw_bits_painted. Qed.

Lemma draw_rows_painted ul_xpos ul_ypos rows : forall s b hit,
  Forall (fun row_i =>
            0 <= i_register s + Z.of_nat row_i < Z.of_nat (length (memory s)))
         rows ->
  draw_rows ul_xpos ul_ypos rows (painted s b hit)
  = let strokes :=
      sprite_strokes (memory s) (i_register s) ul_xpos ul_ypos rows in
    Ok (painted s (blit strokes b) (hit || collision strokes b)).
Proof.
  induction rows as [|r rows IH]; intros s b hit Hin; cbn [draw_rows].
  - cbv zeta. cbn. by rewrite orb_false_r.
  - apply list.Forall_cons in Hin as [Hr Hin].
    rewrite painted_i_register, mem_read_in_range
      by (rewrite painted_memory; done).
    change (@mbind outcome _) with (fun A B k m => @bind A B m k).
    cbv beta. cbn [bind].
    rewrite painted_memory, draw_row_painted, IH by done. cbv zeta.
    unfold sprite_strokes. rewrite bind_cons, blit_app, collision_app.
    by rewrite orb_assoc.
Qed.

Lemma draw_rows_out_of_range ul_xpos ul_ypos rows : forall s,
  Exists (fun row_i =>
            Z.of_nat (length (memory s)) <= i_register s + Z.of_nat row_i)
         rows ->
  0 <= i_register s ->
  draw_rows ul_xpos ul_ypos rows s = OutOfRange.
Proof.
  induction rows as [|r rows IH]; intros s Hex HI.
  - by apply List.Exists_nil in Hex.
  - cbn [draw_rows].
    destruct (decide (Z.of_nat (length (memory s)) <= i_register s + Z.of_nat r))
      as [Hout|Hin].
    + by rewrite mem_read_out_of_range.
    + apply List.Exists_cons in Hex as [?|Hex]; [done|].
      rewrite mem_read_in_range by lia.
      change (@mbind outcome _) with (fun A B k m => @bind A B m k).
      cbv beta. cbn [bind].
      set (row := memory s !!! Z.to_nat (i_register s + Z.of_nat r)).
      replace (draw_row ul_xpos ul_ypos row r s)
        with (draw_row ul_xpos ul_ypos row r (painted s (display_buffer s) false))
        by (by rewrite painted_here).
      rewrite draw_row_painted.
      apply IH; by rewrite ?painted_memory, ?painted_i_register.
Qed.

Lemma draw_rows_never_fatal ul_xpos ul_ypos rows : forall s e,
  draw_rows ul_xpos ul_ypos rows s <> Fatal e.
Proof.
  induction rows as [|r rows IH]; intros s e; [done|].
  cbn [draw_rows]. unfold mem_read.
  destruct (memory s !! Z.to_nat (i_register s + Z.of_nat r)); [|done].
  apply IH.
Qed.

(** The indices a sprite touches are distinct and inside the buffer. *)

Lemma pixel_range ul_xpos ul_ypos row_i bit_i :
  (pixel ul_xpos ul_ypos row_i bit_i < 2048)%nat.
Proof.
  unfold pixel, SCREEN_WIDTH, SCREEN_HEIGHT.
  pose proof (Z.mod_pos_bound (ul_xpos + Z.of_nat bit_i) 64).
  pose proof (Z.mod_pos_bound (ul_ypos + Z.of_nat row_i) 32). lia.
Qed.

Lemma pixel_inj ul_xpos ul_ypos r1 c1 r2 c2 :
  (r1 < 32)%nat -> (r2 < 32)%nat -> (c1 < 64)%nat -> (c2 < 64)%nat ->
  pixel ul_xpos ul_ypos r1 c1 = pixel ul_xpos ul_ypos r2 c2 ->
  r1 = r2 /\ c1 = c2.
Proof.
  unfold pixel, SCREEN_WIDTH, SCREEN_HEIGHT. intros Hr1 Hr2 Hc1 Hc2 Heq.
  apply Z2Nat.inj in Heq.
  - Z.div_mod_to_equations. lia.
  - Z.div_mod_to_equations. lia.
  - Z.div_mod_to_equations. lia.
Qed.

Lemma sprite_strokes_in mem i ul_xpos ul_ypos rows px bit :
  (px, bit) ∈ sprite_strokes mem i ul_xpos ul_ypos rows ->
  (px < 2048)%nat.
Proof.
  unfold sprite_strokes, row_strokes. intros Hin.
  apply list_elem_of_bind in Hin as (r & Hin & _).
  apply list_elem_of_fmap in Hin as (c & Heq & _).
  injection Heq as -> _. apply pixel_range.
Qed.

Lemma fmap_list_bind {A B C : Type} (g : B -> C) (f : A -> list B) (l : list A) :
  g <$> (l ≫= f) = l ≫= (fun x => g <$> f x).
Proof.
  induction l as [|x l IH]; [done|].
  by rewrite !bind_cons, fmap_app, IH.
Qed.

Lemma sprite_strokes_NoDup mem i ul_xpos ul_ypos n :
  (n <= 32)%nat ->
  NoDup (sprite_strokes mem i ul_xpos ul_ypos (seq 0 n)).*1.
Proof.
  intros Hn. unfold sprite_strokes, row_strokes.
  rewrite fmap_list_bind. apply NoDup_bind.
  - intros r1 r2 px Hr1 Hr2 H1 H2.
    apply elem_of_seq in Hr1, Hr2.
    rewrite <- list_fmap_compose in H1, H2.
    apply list_elem_of_fmap in H1 as (c1 & -> & Hc1).
    apply list_elem_of_fmap in H2 as (c2 & Heq & Hc2).
    apply elem_of_seq in Hc1, Hc2. unfold SPRITE_WIDTH in *. cbn in Heq.
    apply pixel_inj in Heq; [tauto|lia..].
  - intros r Hr. rewrite <- list_fmap_compose.
    apply NoDup_fmap_2_strong; [|apply NoDup_seq].
    intros c1 c2 Hc1 Hc2 Heq. apply elem_of_seq in Hc1, Hc2.
    unfold SPRITE_WIDTH in *. cbn in Heq.
    apply elem_of_seq in Hr.
    apply pixel_inj in Heq; [tauto|lia..].
  - apply NoDup_seq.
Qed.

(** What one draw leaves behind. *)
Lemma draw_sprite_spec x y n s :
  length (memory s) = 4096%nat -> 0 <= i_register s -> 0 <= n ->
  n = 0 \/ i_register s + n <= 4096 ->
  let s0 := set_reg s 0xf 0 in
  let strokes :=
    sprite_strokes (memory s) (i_register s) (reg s0 x) (reg s0 y)
                   (seq 0 (Z.to_nat n)) in
  draw_sprite x y n s
  = Ok (advance (painted s0 (blit strokes (display_buffer s))
                            (collision strokes (display_buffer s)))
                INSTRUCTION_SIZE).
Proof.
  intros Hm HI Hn Hin s0 strokes. unfold draw_sprite. fold s0.
  rewrite <- (painted_here s0) at 3.
  rewrite draw_rows_painted.
  - reflexivity.
  - apply list.Forall_forall. intros r Hr. apply elem_of_seq in Hr.
    change (memory s0) with (memory s). change (i_register s0) with (i_register s).
    rewrite Hm. lia.
Qed.

Lemma evaluate_draw fuel w s x y n :
  0 <= x < 16 -> 0 <= y < 16 -> 0 <= n < 16 ->
  evaluate_instruction fuel w (instruction_word 0xd x y n) s
  = bind (draw_sprite x y n s) (fun s => Ok (s, false)).
Proof.
  intros Hx Hy Hn. dispatch 0xd x y n. by destruct (draw_sprite x y n s).
Qed.

Lemma evaluate_bcd fuel w s x :
  0 <= x < 16 ->
  evaluate_instruction fuel w (instruction_word 0xf x 3 3) s
  = bind (load_bcd x s) (fun s => Ok (s, false)).
Proof.
  intros Hx. dispatch 0xf x 3 3. by destruct (load_bcd x s).
Qed.

(** C10. DxyN has no bounds check of its own: when I + N <= 4096 every row
    it reads lies in memory and the draw succeeds; when N >= 1 and
    I + N > 4096 it reads past the end of [memory], which is outside the
    defined behaviour of the array; and in no case does it raise the fatal
    error that Fx33 raises for I >= 4094 and that 2nnn raises for a target
    of 4095. *)
Theorem draw_sprite_reads_unguarded fuel w s x y n :
  well_formed s -> 0 <= x < 16 -> 0 <= y < 16 -> 0 <= n < 16 ->
  let r := evaluate_instruction fuel w (instruction_word 0xd x y n) s in
  (i_register s + n <= 4096 -> exists s', r = Ok (s', false))
  /\ (0 < n -> 4096 < i_register s + n -> r = OutOfRange)
  /\ (forall e, r <> Fatal e)
  /\ (4094 <= i_register s ->
      evaluate_instruction fuel w (instruction_word 0xf x 3 3) s
      = Fatal (BcdOutsideMemory (i_register s)))
  /\ (stack_pointer s <= 15 ->
      evaluate_instruction fuel w (0x2000 + 0xfff) s
      = Fatal (CallOutsideMemory 0xfff)).
Proof.
  intros Hwf Hx Hy Hn r. subst r. rewrite evaluate_draw by done.
  pose proof (wf_memory _ Hwf) as Hm. pose proof (wf_i _ Hwf) as HI.
  repeat split.
  - intros Hin. rewrite draw_sprite_spec by (done || lia). eauto.
  - intros Hn0 Hout. unfold draw_sprite.
    rewrite draw_rows_out_of_range; [done| |cbn; lia].
    apply list.Exists_exists. exists (Z.to_nat (n - 1)). split.
    + apply elem_of_seq. lia.
    + cbn. rewrite Hm. lia.
  - intros e. unfold draw_sprite.
    set (s0 := set_reg s 15 0).
    pose proof (draw_rows_never_fatal (reg s0 x) (reg s0 y)
                  (seq 0 (Z.to_nat n)) s0 e) as Hnf.
    destruct (draw_rows _ _ _ _);
      change (@mbind outcome _) with (fun A B k m => @bind A B m k);
      cbv beta; cbn [bind]; congruence.
  - intros Hbcd. rewrite evaluate_bcd by done. unfold load_bcd. rewrite Hm.
    change (Z.of_nat 4096 - 2) with 4094.
    destruct (4094 <=? i_register s) eqn:E; [done|lia].
  - intros Hsp. rewrite evaluate_call by lia. unfold call. rewrite Hm.
    change (Z.of_nat 4096 - 1) with 4095.
    destruct (15 <? stack_pointer s) eqn:E; [lia|]. done.
Qed.

Lemma draw_sprite_reads_unguarded_witness :
  evaluate_instruction 0 still 0xd002 edge_state = OutOfRange
  /\ evaluate_instruction 0 still 0xf033 edge_state = Fatal (BcdOutsideMemory 4095).
Proof.
  assert (Hwf : well_formed edge_state)
    by (apply well_formed_with_i; [apply blank_well_formed|lia]).
  destruct (draw_sprite_reads_unguarded 0 still edge_state 0 0 2 Hwf)
    as (_ & Hout & _ & Hbcd & _); [lia..|].
  split; [apply Hout; vm_compute; reflexivity|apply Hbcd; vm_compute; discriminate].
Defined.

Lemma repaint_registers s b hit n :
  gp_registers (set_reg (advance (painted (set_reg s 0xf 0) b hit) n) 0xf 0)
  = gp_registers (set_reg s 0xf 0).
Proof.
  destruct hit; cbn; by rewrite !list_insert_insert_eq.
Qed.

Lemma painted_flag s b hit :
  (15 < length (gp_registers s))%nat -> reg s 0xf = 0 ->
  reg (painted s b hit) 0xf = Z_of_bool hit.
Proof.
  intros Hlen H0. destruct hit; unfold painted; [|exact H0].
  apply reg_set_reg_eq. cbn. lia.
Qed.

(** C7, as stated, fails for an I next to the end of memory: at I = 4095 a
    two-row draw reads [memory[4096]], and there is no state after it. *)
Lemma draw_past_memory_end :
  evaluate_instruction 0 still 0xd002 edge_state = OutOfRange
  /\ well_formed edge_state /\ i_register edge_state + 2 = 4097.
Proof.
  split; [by vm_compute|]. split; [|reflexivity].
  apply well_formed_with_i; [apply blank_well_formed|lia].
Qed.

(** C7 (amended). When the N rows at I lie inside memory (N = 0 or
    I + N <= 4096), executing the same DxyN twice in succession gives back
    the frame buffer of before the first draw, and VF after the second draw
    is 1 exactly when the first draw turned a clear pixel on, and 0
    otherwise. *)
Theorem draw_twice_restores fuel1 w1 fuel2 w2 s x y n :
  well_formed s -> 0 <= x < 16 -> 0 <= y < 16 -> 0 <= n < 16 ->
  n = 0 \/ i_register s + n <= 4096 ->
  exists s1 s2,
    evaluate_instruction fuel1 w1 (instruction_word 0xd x y n) s = Ok (s1, false)
    /\ evaluate_instruction fuel2 w2 (instruction_word 0xd x y n) s1 = Ok (s2, false)
    /\ display_buffer s2 = display_buffer s
    /\ (reg s2 0xf = 1
        <-> exists k, (k < 2048)%nat
                      /\ display_buffer s !!! k = false
                      /\ display_buffer s1 !!! k = true)
    /\ (reg s2 0xf = 0 \/ reg s2 0xf = 1).
Proof.
  intros Hwf Hx Hy Hn Hin.
  pose proof (wf_memory _ Hwf) as Hm. pose proof (wf_i _ Hwf) as HI.
  pose proof (wf_registers _ Hwf) as Hr. pose proof (wf_buffer _ Hwf) as Hb.
  set (s0 := set_reg s 0xf 0).
  set (strokes := sprite_strokes (memory s) (i_register s) (reg s0 x) (reg s0 y)
                                 (seq 0 (Z.to_nat n))).
  set (b := display_buffer s) in *.
  set (s1 := advance (painted s0 (blit strokes b) (collision strokes b))
                     INSTRUCTION_SIZE).
  set (s2 := advance (painted (set_reg s1 0xf 0) (blit strokes (blit strokes b))
                              (collision strokes (blit strokes b)))
                     INSTRUCTION_SIZE).
  assert (Hm1 : memory s1 = memory s) by (subst s1; cbn; by rewrite painted_memory).
  assert (HI1 : i_register s1 = i_register s)
    by (subst s1; cbn; by rewrite painted_i_register).
  assert (Hb1 : display_buffer s1 = blit strokes b)
    by (subst s1; cbn; by rewrite painted_buffer).
  assert (Hr1 : gp_registers (set_reg s1 0xf 0) = gp_registers s0)
    by apply repaint_registers.
  exists s1, s2. split; [|split].
  - rewrite evaluate_draw, draw_sprite_spec by (done || lia). reflexivity.
  - rewrite evaluate_draw, draw_sprite_spec by (rewrite ?Hm1, ?HI1; done || lia).
    assert (Hreg : forall r, reg (set_reg s1 0xf 0) r = reg s0 r)
      by (intros r; unfold reg; by rewrite Hr1).
    cbv zeta. rewrite !Hreg, Hm1, HI1, Hb1. reflexivity.
  - assert (Hnd : NoDup strokes.*1) by (apply sprite_strokes_NoDup; lia).
    assert (Hvf : reg s2 0xf = Z_of_bool (collision strokes (blit strokes b))).
    { subst s2. rewrite reg_advance. apply painted_flag.
      - rewrite Hr1. subst s0. rewrite registers_set_reg. lia.
      - unfold reg. rewrite Hr1. apply reg_set_reg_eq. lia. }
    split; [subst s2; cbn; rewrite painted_buffer; apply blit_twice|].
    rewrite Hvf, Hb1. split.
    + destruct (collision strokes (blit strokes b)) eqn:Hc; cbn; split; try done.
      * intros _. apply collision_spec in Hc as (px & Hpx & Hset); [|done].
        exists px. split; [by eapply sprite_strokes_in|].
        split; [|done].
        rewrite (blit_lookup_stroke strokes b px true) in Hset; try done.
        -- by destruct (b !!! px).
        -- rewrite Hb. by eapply sprite_strokes_in.
      * intros (k & Hk & Hclear & Hset). exfalso.
        assert (collision strokes (blit strokes b) = true); [|congruence].
        apply collision_spec; [done|]. exists k. split; [|done].
        destruct (decide (k ∈ strokes.*1)) as [Hmem|Hnot].
        -- apply list_elem_of_fmap in Hmem as ([px bit] & -> & Hmem). cbn in *.
           rewrite (blit_lookup_stroke strokes b px bit) in Hset; try lia; try done.
           rewrite Hclear in Hset. cbn in Hset. by subst bit.
        -- rewrite blit_lookup_outside in Hset by done. congruence.
    + destruct (collision strokes (blit strokes b)); cbn; lia.
Qed.

Lemma draw_twice_restores_witness :
  exists s1 s2,
    evaluate_instruction 0 still 0xd001 sprite_state = Ok (s1, false)
    /\ evaluate_instruction 0 still 0xd001 s1 = Ok (s2, false)
    /\ display_buffer s2 = display_buffer sprite_state.
Proof.
  assert (Hwf : well_formed sprite_state).
  { pose proof blank_well_formed as Hb. unfold sprite_state.
    apply well_formed_with_memory; [done| |].
    - rewrite length_insert. apply Hb.
    - apply Forall_insert; [apply Hb|lia]. }
  destruct (draw_twice_restores 0 still 0 still sprite_state 0 0 1 Hwf)
    as (s1 & s2 & H1 & H2 & Hb & _); [lia..|right; vm_compute; discriminate|].
  exists s1, s2. split; [exact H1|]. split; [exact H2|exact Hb].
Defined.

(** ** The key channel *)












(** ** Loading a program *)

Lemma isspace_whitespace c : isspace c = char_in c whitespace.
Proof. by destruct c as [[] [] [] [] [] [] [] []]. Qed.

Lemma eqb_nl c : Ascii.eqb nl c = true <-> c = nl.
Proof. rewrite Ascii.eqb_eq. split; congruence. Qed.

Lemma find_first_nl_split body after :
  nl ∉ body -> find_first [nl] (body ++ nl :: after) = Some (length body).
Proof.
  induction body as [|c body IH]; intros Hnl.
  - reflexivity.
  - apply not_elem_of_cons in Hnl as [Hc Hnl].
    cbn [app find_first starts_with length].
    destruct (Ascii.eqb nl c) eqn:E; [apply eqb_nl in E; congruence|].
    cbn [andb]. by rewrite IH.
Qed.

Lemma find_first_nl_none s : nl ∉ s -> find_first [nl] s = None.
Proof.
  induction s as [|c s IH]; intros Hnl; [done|].
  apply not_elem_of_cons in Hnl as [Hc Hnl].
  cbn [find_first starts_with].
  destruct (Ascii.eqb nl c) eqn:E; [apply eqb_nl in E; congruence|].
  cbn [andb]. by rewrite IH.
Qed.

Lemma find_first_crlf_Some s : forall l,
  find_first [cr; nl] s = Some l ->
  s !! l = Some cr /\ s !! S l = Some nl.
Proof.
  induction s as [|c s IH]; intros l Hf; [done|].
  cbn [find_first] in Hf.
  destruct (starts_with (c :: s) [cr; nl]) eqn:E.
  - injection Hf as <-. cbn in E. destruct s as [|d s]; [by rewrite andb_false_r in E|].
    apply andb_true_iff in E as [E1 E2]. apply andb_true_iff in E2 as [E2 _].
    apply Ascii.eqb_eq in E1, E2. by subst.
  - destruct (find_first [cr; nl] s) as [l'|] eqn:El; [|done].
    injection Hf as <-. by apply IH.
Qed.

(** The line that begins at a position ends just after the next newline,
    whether or not a carriage return precedes it, or at the end of the
    text. *)
Lemma next_line_pos_newline before body after :
  nl ∉ body ->
  next_line_pos (before ++ body ++ nl :: after) (length before)
  = (length before + length body + 1)%nat.
Proof.
  intros Hnl. unfold next_line_pos, find.
  rewrite drop_app_length, find_first_nl_split by done. cbn [fmap option_fmap option_map].
  destruct (find_first [cr; nl] (body ++ nl :: after)) as [l|] eqn:El;
    cbn [fmap option_fmap option_map]; [|lia].
  apply find_first_crlf_Some in El as [Hcr Hlf].
  destruct (decide (S l < length body)%nat) as [Hlt|Hge].
  { rewrite lookup_app_l in Hlf by done.
    exfalso. apply Hnl. by eapply list_elem_of_lookup_2. }
  destruct (decide (l = length body)) as [->|Hne].
  { rewrite list_lookup_middle in Hcr by done. by injection Hcr. }
  destruct (length before + length body <? length before + l)%nat eqn:E;
    [apply Nat.ltb_lt in E|apply Nat.ltb_ge in E]; lia.
Qed.

Lemma next_line_pos_end before body :
  nl ∉ body ->
  next_line_pos (before ++ body) (length before) = length (before ++ body).
Proof.
  intros Hnl. unfold next_line_pos, find.
  rewrite drop_app_length, find_first_nl_none by done. cbn [fmap option_fmap option_map].
  destruct (find_first [cr; nl] body) as [l|] eqn:El;
    cbn [fmap option_fmap option_map]; [|done].
  apply find_first_crlf_Some in El as [_ Hlf].
  exfalso. apply Hnl. by eapply list_elem_of_lookup_2.
Qed.

Lemma first_newline s :
  nl ∈ s -> exists body after, s = body ++ nl :: after /\ (nl ∉ body).
Proof.
  induction s as [|c s IH]; intros Hin; [by apply elem_of_nil in Hin|].
  destruct (ascii_dec c nl) as [->|Hc].
  - exists [], s. split; [done|]. apply not_elem_of_nil.
  - apply elem_of_cons in Hin as [?|Hin]; [congruence|].
    destruct (IH Hin) as (body & after & -> & Hnl).
    exists (c :: body), after. split; [done|].
    apply not_elem_of_cons. split; [congruence|done].
Qed.

(** [load_line] never calls [substr] with [npos]. *)
Lemma find_first_not_of_blank line :
  forallb isspace line = false ->
  exists word_start, find_first_not_of line whitespace = Some word_start.
Proof.
  induction line as [|c line IH]; intros Hb; [done|].
  cbn [forallb find_first_not_of] in *. rewrite <- isspace_whitespace.
  destruct (isspace c); [|eauto].
  destruct (IH Hb) as [k ->]. eauto.
Qed.

Lemma load_line_word_start stoi line : load_line stoi line <> NoWordStart.
Proof.
  unfold load_line. destruct (forallb isspace line) eqn:Hb; [done|].
  destruct (find_first_not_of_blank line Hb) as [k ->].
  destruct (negb _); [done|]. by destruct (stoi _).
Qed.

Lemma find_first_not_of_blanks blanks c rest :
  forallb isspace blanks = true -> isspace c = false ->
  find_first_not_of (blanks ++ c :: rest) whitespace = Some (length blanks).
Proof.
  induction blanks as [|b blanks IH]; intros Hb Hc; cbn [app find_first_not_of].
  - by rewrite <- isspace_whitespace, Hc.
  - cbn [forallb] in Hb. apply andb_true_iff in Hb as [Hb1 Hb].
    rewrite <- isspace_whitespace, Hb1, IH by done. done.
Qed.

(** A line that is blanks, [0x] and something [stoi] rejects is
    malformed. *)
Lemma load_line_malformed stoi line rest :
  starts_with_0x line rest ->
  stoi rest = invalid_argument \/ stoi rest = out_of_range ->
  load_line stoi line = Malformed.
Proof.
  intros (blanks & Hb & ->) Hstoi. unfold load_line.
  assert (forallb isspace (blanks ++ ["0"; "x"]%char ++ rest) = false) as ->.
  { rewrite forallb_app. cbn [forallb app].
    change (isspace "0") with false. by rewrite andb_false_r. }
  cbn [app].
  rewrite find_first_not_of_blanks by done.
  unfold substr. rewrite drop_app_length.
  rewrite take_ge by (rewrite length_app; lia).
  cbn [starts_with]. cbn [Ascii.eqb Bool.eqb andb negb].
  replace (length blanks + 2)%nat with (length (blanks ++ ["0"%char; "x"%char]))
    by (rewrite length_app; cbn; lia).
  replace (blanks ++ "0"%char :: "x"%char :: rest)
    with ((blanks ++ ["0"%char; "x"%char]) ++ rest) by (by rewrite <- app_assoc).
  rewrite drop_app_length, take_ge by (rewrite !length_app; cbn; lia).
  by destruct Hstoi as [-> | ->].
Qed.

Lemma next_line_pos_bounds program_text current_pos :
  (current_pos < length program_text)%nat ->
  (current_pos < next_line_pos program_text current_pos <= length program_text)%nat.
Proof.
  intros Hlt.
  pose proof (take_drop current_pos program_text) as Htd.
  assert (Hp : current_pos = length (take current_pos program_text))
    by (rewrite length_take; lia).
  assert (Hd : (0 < length (drop current_pos program_text))%nat)
    by (rewrite length_drop; lia).
  revert Htd Hp Hd.
  generalize (take current_pos program_text) as pre.
  generalize (drop current_pos program_text) as post.
  intros post pre <- -> Hd. clear Hlt.
  destruct (In_dec ascii_dec nl post) as [Hin|Hnot].
  - apply list_elem_of_In, first_newline in Hin as (body & after & -> & Hnl).
    rewrite next_line_pos_newline by done.
    rewrite !length_app. cbn [length]. lia.
  - rewrite <- list_elem_of_In in Hnot.
    rewrite next_line_pos_end by done. rewrite !length_app. lia.
Qed.

(** The loop of [load_program] comes to an end, by [return false] or at the
    end of the text, within one round per character left. *)
Lemma load_program_loop_total stoi fuel : forall program_text current_pos bytes,
  (length program_text - current_pos < fuel)%nat ->
  exists r, load_program_loop stoi fuel program_text current_pos bytes = Ok r.
Proof.
  induction fuel as [|fuel IH]; intros program_text current_pos bytes Hfuel; [lia|].
  cbn [load_program_loop].
  destruct (current_pos <? length program_text)%nat eqn:E; [|eauto].
  apply Nat.ltb_lt in E.
  pose proof (next_line_pos_bounds program_text current_pos E) as Hnext.
  destruct (load_line stoi _) eqn:Hline; eauto.
  - apply IH. lia.
  - apply IH. lia.
  - by apply load_line_word_start in Hline.
Qed.

Lemma aligned_tail (l body tail : list ascii) :
  l ++ [nl] = body ++ nl :: tail ->
  tail = [] \/ exists l', tail = l' ++ [nl].
Proof.
  intros Heq. destruct tail as [|x tail _] using rev_ind; [by left|right].
  replace (body ++ nl :: tail ++ [x]) with ((body ++ nl :: tail) ++ [x]) in Heq
    by (by rewrite <- app_assoc).
  apply app_inj_tail in Heq as [_ <-]. eauto.
Qed.

(** Once the loop stands at the start of a line and a malformed line lies
    ahead, it returns false, whatever the lines in between are. *)
Lemma load_program_loop_malformed stoi fuel :
  forall (done todo line after : list ascii) bytes,
  (todo = [] \/ exists l, todo = l ++ [nl]) ->
  ((exists body, line = body ++ [nl] /\ (nl ∉ body))
   \/ ((nl ∉ line) /\ line <> [] /\ after = [])) ->
  load_line stoi line = Malformed ->
  (length (todo ++ line ++ after) < fuel)%nat ->
  load_program_loop stoi fuel (done ++ todo ++ line ++ after) (length done) bytes
  = Ok None.
Proof.
  induction fuel as [|fuel IH]; intros done todo line after bytes Htodo Hline Hbad Hfuel;
    [lia|].
  cbn [load_program_loop].
  destruct Htodo as [->|[l ->]].
  - cbn [app]. destruct Hline as [(body & -> & Hnl)|(Hnl & Hne & ->)].
    + rewrite <- !app_assoc. cbn [app].
      rewrite next_line_pos_newline by done.
      assert ((length done <? length (done ++ body ++ nl :: after))%nat = true) as ->
        by (apply Nat.ltb_lt; rewrite !length_app; cbn; lia).
      unfold substr. rewrite drop_app_length.
      replace (length done + length body + 1 - length done)%nat
        with (length (body ++ [nl])) by (rewrite length_app; cbn; lia).
      replace (body ++ nl :: after) with ((body ++ [nl]) ++ after)
        by (by rewrite <- app_assoc).
      rewrite take_app_length. by rewrite Hbad.
    + rewrite app_nil_r, next_line_pos_end by done.
      assert ((length done <? length (done ++ line))%nat = true) as ->.
      { apply Nat.ltb_lt. rewrite length_app. destruct line; [done|cbn; lia]. }
      unfold substr. rewrite drop_app_length, take_ge
        by (rewrite length_app; lia).
      by rewrite Hbad.
  - assert (Hin : nl ∈ l ++ [nl])
      by (apply elem_of_app; right; by apply list_elem_of_singleton).
    apply first_newline in Hin as (body & tail & Heq & Hnl).
    pose proof (aligned_tail _ _ _ Heq) as Htail. rewrite Heq in *.
    replace (done ++ (body ++ nl :: tail) ++ line ++ after)
      with (done ++ body ++ nl :: (tail ++ line ++ after))
      by (by rewrite <- !app_assoc).
    rewrite next_line_pos_newline by done.
    assert ((length done <? length (done ++ body ++ nl :: tail ++ line ++ after))%nat
            = true) as -> by (apply Nat.ltb_lt; rewrite !length_app; cbn; lia).
    unfold substr. rewrite drop_app_length.
    replace (length done + length body + 1 - length done)%nat
      with (length (body ++ [nl])) by (rewrite length_app; cbn; lia).
    replace (body ++ nl :: tail ++ line ++ after)
      with ((body ++ [nl]) ++ tail ++ line ++ after)
      by (by rewrite <- !app_assoc).
    rewrite take_app_length.
    replace (done ++ (body ++ [nl]) ++ tail ++ line ++ after)
      with ((done ++ body ++ [nl]) ++ tail ++ line ++ after)
      by (by rewrite <- !app_assoc).
    replace (length done + length body + 1)%nat
      with (length (done ++ body ++ [nl])) by (rewrite !length_app; cbn; lia).
    assert (Hless : (length (tail ++ line ++ after) < fuel)%nat).
    { rewrite !length_app in *. cbn [length] in *. lia. }
    destruct (load_line stoi (body ++ [nl])) eqn:Hhere.
    + by apply IH.
    + by apply IH.
    + reflexivity.
    + by apply load_line_word_start in Hhere.
Qed.

(** A load that fails leaves the engine as it was. *)
Lemma load_program_atomic stoi program_text s s' :
  load_program stoi program_text s = Ok (false, s') -> s' = s.
Proof.
  unfold load_program.
  destruct (load_program_loop stoi _ _ _ _) as [[bytes|]| | | |] eqn:Hloop;
    change (@mbind outcome _) with (fun A B k m => @bind A B m k);
    cbv beta; cbn [bind]; try discriminate.
  - unfold load_program_bytes. destruct (_ <? _); [|discriminate].
    by intros [= <-].
  - by intros [= <-].
Qed.

(** [load_program] returns, for every text. *)
Lemma load_program_total stoi program_text s :
  exists b s', load_program stoi program_text s = Ok (b, s').
Proof.
  unfold load_program.
  destruct (load_program_loop_total stoi (S (length program_text)) program_text 0 [])
    as [r ->]; [lia|].
  change (@mbind outcome _) with (fun A B k m => @bind A B m k).
  cbv beta. cbn [bind]. destruct r as [bytes|]; [|eauto].
  destruct (load_program_bytes bytes s) as [b s']. eauto.
Qed.

Lemma not_elem_of_text c (s : text) :
  forallb (fun d => negb (Ascii.eqb d c)) s = true -> c ∉ s.
Proof.
  intros Hs Hin. rewrite forallb_forall in Hs.
  apply list_elem_of_In, Hs in Hin. by rewrite Ascii.eqb_refl in Hin.
Qed.

Lemma one_line_text body : nl ∉ body -> is_line_of (body ++ [nl]) (body ++ [nl]).
Proof.
  intros Hnl. exists [], []. split; [by rewrite app_nil_r|]. split; [by left|].
  left. by exists body.
Qed.

(** C8, as stated, fails wherever [std::stoi] converts something that is
    not a well-formed hexadecimal word: digits followed by other characters
    ([0x12zz] loads as 0x0012), a sign ([0x-1] loads as 0xffff), blanks
    before the digits ([0x 7] loads as 0x0007), a second prefix ([0x0x12]
    loads as 0x0012) and more than four digits ([0x12345] loads as
    0x2345). *)
Lemma load_program_accepts_malformed_tokens :
  Forall (fun '(rest, address, byte) =>
            let program_text := ["0"; "x"]%char ++ rest ++ [nl] in
            is_line_of program_text program_text
            /\ starts_with_0x program_text (rest ++ [nl])
            /\ is_hex_word (token (rest ++ [nl])) = false
            /\ exists s',
                 load_program std_stoi program_text blank = Ok (true, s')
                 /\ memory s' !! address = Some byte
                 /\ memory blank !! address = Some 0)
         [ (ascii_text "12zz", 513%nat, 0x12);
           (ascii_text "-1", 512%nat, 0xff);
           (ascii_text " 7", 513%nat, 0x07);
           (ascii_text "0x12", 513%nat, 0x12);
           (ascii_text "12345", 512%nat, 0x23) ].
Proof.
  repeat apply list.Forall_cons_2; [..|apply Forall_nil_2]; cbv zeta.
  all: split; [|split; [|split]].
  all: try (apply (one_line_text (_ :: _ :: _)); by apply not_elem_of_text).
  all: try (exists []; split; reflexivity).
  all: try reflexivity.
  all: eexists; split; [vm_compute; reflexivity|]; split; reflexivity.
Qed.

(** C8 (amended). If the program text has a line that, after leading
    blanks, starts with [0x], and [std::stoi] throws on the rest of that
    line ([std::invalid_argument] or [std::out_of_range], the two exceptions
    that [load_program] catches), then [load_program] returns false and
    leaves the engine, its 4096-byte memory included, exactly as it was. *)
Theorem load_program_malformed_line stoi program_text line rest s :
  is_line_of program_text line ->
  starts_with_0x line rest ->
  stoi rest = invalid_argument \/ stoi rest = out_of_range ->
  load_program stoi program_text s = Ok (false, s).
Proof.
  intros (before & after & -> & Hbefore & Hline) H0x Hstoi.
  unfold load_program.
  rewrite (load_program_loop_malformed stoi _ [] before line after []);
    [reflexivity|done|done|by eapply load_line_malformed|lia].
Qed.

Lemma load_program_malformed_line_witness :
  load_program std_stoi
    (ascii_text "0x00e0" ++ [nl] ++ ascii_text "  0xzz" ++ [cr; nl]
     ++ ascii_text "0xa100")
    blank
  = Ok (false, blank)
  /\ load_program std_stoi
       (ascii_text "0x00e0" ++ [nl] ++ ascii_text "0x80000000" ++ [nl]) blank
     = Ok (false, blank).
Proof.
  split.
  - apply (load_program_malformed_line std_stoi _
             (ascii_text "  0xzz" ++ [cr; nl]) (ascii_text "zz" ++ [cr; nl])).
    + exists (ascii_text "0x00e0" ++ [nl]), (ascii_text "0xa100").
      split; [reflexivity|]. split; [right; by exists (ascii_text "0x00e0")|].
      left. exists (ascii_text "  0xzz" ++ [cr]). split; [reflexivity|].
      by apply not_elem_of_text.
    + exists (ascii_text "  "). split; reflexivity.
    + left. reflexivity.
  - apply (load_program_malformed_line std_stoi _
             (ascii_text "0x80000000" ++ [nl]) (ascii_text "80000000" ++ [nl])).
    + exists (ascii_text "0x00e0" ++ [nl]), [].
      split; [reflexivity|]. split; [right; by exists (ascii_text "0x00e0")|].
      left. exists (ascii_text "0x80000000"). split; [reflexivity|].
      by apply not_elem_of_text.
    + exists []. split; reflexivity.
    + right. reflexivity.
Defined.

(** * Further properties of the engine *)

Ltac unbind :=
  change (@mbind outcome _) with (fun A B k m => @bind A B m k);
  cbv beta; cbn [bind].

(** ** Register values *)

Lemma reg_range s r :
  well_formed s -> 0 <= r < 16 -> 0 <= reg s r < 256.
Proof.
  intros Hwf Hr. unfold reg.
  pose proof (wf_registers _ Hwf) as Hlen. pose proof (wf_bytes _ Hwf) as Hb.
  rewrite list.Forall_forall in Hb. apply Hb.
  apply list_elem_of_lookup_total_2. lia.
Qed.

Lemma immediate_word op x kk :
  0 <= kk < 256 ->
  4096 * op + 256 * x + kk = instruction_word op x (kk / 16) (kk mod 16)
  /\ 0 <= kk / 16 < 16 /\ 0 <= kk mod 16 < 16
  /\ 16 * (kk / 16) + kk mod 16 = kk.
Proof.
  intros Hk. unfold instruction_word. repeat split; Z.div_mod_to_equations; lia.
Qed.

(** X1. 7xkk adds the immediate modulo 256 and touches no other register:
    there is no carry flag. *)
Theorem add_wraps_without_flag fuel w s x kk :
  well_formed s -> 0 <= x < 16 -> 0 <= kk < 256 ->
  exists s',
    evaluate_instruction fuel w (4096 * 7 + 256 * x + kk) s = Ok (s', false)
    /\ reg s' x = (reg s x + kk) mod 256
    /\ (forall r, 0 <= r < 16 -> r <> x -> reg s' r = reg s r)
    /\ program_counter s' = (program_counter s + 2) mod 65536.
Proof.
  intros Hwf Hx Hk.
  destruct (immediate_word 7 x kk Hk) as (-> & Hy & Hn & Hkk).
  eexists. split; [dispatch 7 x (kk / 16) (kk mod 16); rewrite Hkk; reflexivity|].
  unfold add, u8. regs Hwf. repeat split; try done.
  intros r Hr Hne. regs Hwf. done.
Qed.

Lemma add_wraps_without_flag_witness :
  exists s',
    evaluate_instruction 0 still 0x70ff carry_state = Ok (s', false)
    /\ reg s' 0 = 199 /\ reg s' 0xf = 0.
Proof.
  assert (Hwf : well_formed carry_state).
  { unfold carry_state. repeat apply well_formed_set_reg; try lia.
    apply blank_well_formed. }
  destruct (add_wraps_without_flag 0 still carry_state 0 0xff Hwf)
    as (s' & He & Hx & Hrest & _); [lia..|].
  exists s'. split; [exact He|]. split; [exact Hx|].
  rewrite Hrest by lia. reflexivity.
Defined.

(** X2. 8xy7 on registers other than VF: VF is 1 exactly when Vy >= Vx (no
    borrow), and Vx receives (Vy - Vx) mod 256. *)
Theorem subtract_reversed_borrow fuel w s x y :
  well_formed s -> 0 <= x < 15 -> 0 <= y < 15 ->
  exists s',
    evaluate_instruction fuel w (instruction_word 8 x y 7) s = Ok (s', false)
    /\ (reg s' 0xf = 1 <-> reg s x <= reg s y)
    /\ (reg s' 0xf = 0 <-> reg s y < reg s x)
    /\ reg s' x = (reg s y - reg s x) mod 256.
Proof.
  intros Hwf Hx Hy. eexists. split; [dispatch 8 x y 7; reflexivity|].
  unfold subtract_reversed, u8. regs Hwf.
  destruct (reg s x <=? reg s y) eqn:E;
    [apply Z.leb_le in E|apply Z.leb_gt in E]; cbn; repeat split; try done; lia.
Qed.

Lemma subtract_reversed_borrow_witness :
  exists s',
    evaluate_instruction 0 still 0x8017 carry_state = Ok (s', false)
    /\ reg s' 0xf = 0 /\ reg s' 0 = 156.
Proof.
  assert (Hwf : well_formed carry_state).
  { unfold carry_state. repeat apply well_formed_set_reg; try lia.
    apply blank_well_formed. }
  destruct (subtract_reversed_borrow 0 still carry_state 0 1 Hwf)
    as (s' & He & _ & H0 & Hd); [lia..|].
  exists s'. split; [exact He|]. split; [|exact Hd].
  apply H0. vm_compute. reflexivity.
Defined.

Lemma land_bit7 v : 0 <= v < 256 -> Z.land 0x80 v = 128 * (v / 128).
Proof.
  intros Hv. rewrite Z.land_comm.
  change (Z.land v 0x80) with (Z.land v (Z.shiftl (Z.ones 1) 7)).
  rewrite land_shiftl_mask, Z.land_ones, Z.shiftr_div_pow2, Z.shiftl_mul_pow2 by lia.
  change (2 ^ 7) with 128. change (2 ^ 1) with 2.
  assert (0 <= v / 128 < 2) by (Z.div_mod_to_equations; lia).
  rewrite Z.mod_small by done. lia.
Qed.

(** X3. 8x_E on a register other than VF: VF receives bit 7 of the value, the
    bit shifted out, and Vx the low eight bits of the doubled value, so that
    256 * VF + Vx is twice the old value. *)
Theorem shift_left_flag_before_shift fuel w s x y :
  well_formed s -> 0 <= x < 15 -> 0 <= y < 16 ->
  exists s',
    evaluate_instruction fuel w (instruction_word 8 x y 0xe) s = Ok (s', false)
    /\ reg s' 0xf = reg s x / 128
    /\ reg s' x = (2 * reg s x) mod 256
    /\ 256 * reg s' 0xf + reg s' x = 2 * reg s x.
Proof.
  intros Hwf Hx Hy. pose proof (reg_range s x Hwf) as Hv.
  eexists. split; [dispatch 8 x y 0xe; reflexivity|].
  unfold shift_left, u8. regs Hwf.
  rewrite land_bit7, Z.shiftl_mul_pow2 by lia. change (2 ^ 1) with 2.
  assert (Hflag : Z_of_bool (negb (128 * (reg s x / 128) =? 0)) = reg s x / 128).
  { destruct (128 * (reg s x / 128) =? 0) eqn:E;
      [apply Z.eqb_eq in E|apply Z.eqb_neq in E]; cbn;
      Z.div_mod_to_equations; lia. }
  rewrite Hflag. replace (reg s x * 2) with (2 * reg s x) by lia.
  repeat split; try done. Z.div_mod_to_equations. lia.
Qed.

Lemma shift_left_flag_before_shift_witness :
  exists s',
    evaluate_instruction 0 still 0x800e carry_state = Ok (s', false)
    /\ reg s' 0xf = 1 /\ reg s' 0 = 144.
Proof.
  assert (Hwf : well_formed carry_state).
  { unfold carry_state. repeat apply well_formed_set_reg; try lia.
    apply blank_well_formed. }
  destruct (shift_left_flag_before_shift 0 still carry_state 0 0 Hwf)
    as (s' & He & Hf & Hx & _); [lia..|].
  exists s'. split; [exact He|]. split; [exact Hf|exact Hx].
Defined.

(** X4. Cxkk stores the random byte masked by kk: every bit set in Vx is set
    in kk, and Vx is a byte. *)
Theorem random_int_within_mask fuel w s x kk :
  well_formed s -> 0 <= x < 16 -> 0 <= kk < 256 ->
  exists s',
    evaluate_instruction fuel w (4096 * 0xc + 256 * x + kk) s = Ok (s', false)
    /\ reg s' x = Z.land (random_u8 w) kk
    /\ Z.land (reg s' x) kk = reg s' x
    /\ 0 <= reg s' x < 256.
Proof.
  intros Hwf Hx Hk.
  destruct (immediate_word 0xc x kk Hk) as (-> & Hy & Hn & Hkk).
  eexists. split; [dispatch 0xc x (kk / 16) (kk mod 16); rewrite Hkk; reflexivity|].
  unfold random_int, u8. regs Hwf.
  assert (Hbyte : Z.land (random_u8 w) kk mod 256 = Z.land (random_u8 w) kk).
  { change 256 with (2 ^ 8). rewrite <- Z.land_ones by lia.
    rewrite <- Z.land_assoc, Z.land_ones by lia.
    change (2 ^ 8) with 256. by rewrite (Z.mod_small kk). }
  rewrite Hbyte. split; [done|]. split.
  - by rewrite <- Z.land_assoc, Z.land_diag.
  - rewrite <- Hbyte. apply Z.mod_pos_bound. lia.
Qed.

Lemma random_int_within_mask_witness :
  exists s',
    evaluate_instruction 0 {| now := 0; random_u8 := 0xb7; next_keypress := None |}
                         0xc00f blank = Ok (s', false)
    /\ reg s' 0 = 7.
Proof.
  destruct (random_int_within_mask 0
              {| now := 0; random_u8 := 0xb7; next_keypress := None |}
              blank 0 0x0f blank_well_formed)
    as (s' & He & Hx & _); [lia..|].
  exists s'. split; [exact He|exact Hx].
Defined.

(** ** Words and nibbles *)

(** X5. The four nibbles that [get_nibble] reads from a 16-bit word, most
    significant first, put the word together again; an index of 4 or more
    is the fatal error. *)
Theorem get_nibble_decomposes word :
  0 <= word < 65536 ->
  exists a b c d,
    get_nibble word 0 = Ok a /\ get_nibble word 1 = Ok b
    /\ get_nibble word 2 = Ok c /\ get_nibble word 3 = Ok d
    /\ 0 <= a < 16 /\ 0 <= b < 16 /\ 0 <= c < 16 /\ 0 <= d < 16
    /\ instruction_word a b c d = word
    /\ (forall i, 4 <= i -> get_nibble word i = Fatal NibbleIndex).
Proof.
  intros Hw. rewrite !get_nibble_spec by lia.
  change (2 ^ (4 * (3 - 0))) with 4096. change (2 ^ (4 * (3 - 1))) with 256.
  change (2 ^ (4 * (3 - 2))) with 16. change (2 ^ (4 * (3 - 3))) with 1.
  do 4 eexists. repeat split; try reflexivity.
  all: try (apply Z.mod_pos_bound; lia).
  - unfold instruction_word. Z.div_mod_to_equations. lia.
  - intros i Hi. unfold get_nibble. destruct (4 <=? i) eqn:E; [done|lia].
Qed.

Lemma get_nibble_decomposes_witness :
  exists a b c d,
    get_nibble 0xd125 0 = Ok a /\ get_nibble 0xd125 1 = Ok b
    /\ get_nibble 0xd125 2 = Ok c /\ get_nibble 0xd125 3 = Ok d
    /\ instruction_word a b c d = 0xd125.
Proof.
  destruct (get_nibble_decomposes 0xd125)
    as (a & b & c & d & Ha & Hb & Hc & Hd & _ & _ & _ & _ & Hw & _); [lia|].
  exists a, b, c, d. repeat split; assumption.
Defined.

(** ** Return and nested calls *)

Lemma evaluate_ret fuel w s :
  evaluate_instruction fuel w 0x00ee s = bind (ret s) (fun s => Ok (s, false)).
Proof. unfold evaluate_instruction. cbn. unbind. by destruct (ret s). Qed.

Lemma ret_pops s frame :
  0 < stack_pointer s <= 16 ->
  stack_frames s !! Z.to_nat (stack_pointer s - 1) = Some frame ->
  ret s = Ok (with_pc (with_stack s (stack_frames s) (stack_pointer s - 1)) frame).
Proof.
  intros Hsp Hframe. unfold ret.
  destruct (stack_pointer s =? 0) eqn:E; [lia|].
  cbn [stack_frames stack_pointer with_stack].
  unfold u8. rewrite Z.mod_small by lia. by rewrite Hframe.
Qed.

(** X6. 00EE fails fatally exactly when the stack is empty; with 1 to 16
    frames on the stack it takes the frame below the stack pointer as the new
    PC, lowers the stack pointer by one and leaves the frames as they are. *)
Theorem ret_checked fuel w s :
  well_formed s -> stack_pointer s <= 16 ->
  let r := evaluate_instruction fuel w 0x00ee s in
  (stack_pointer s = 0 -> r = Fatal RetEmptyStack)
  /\ (stack_pointer s <> 0 ->
      exists s',
        r = Ok (s', false)
        /\ stack_frames s !! Z.to_nat (stack_pointer s - 1)
           = Some (program_counter s')
        /\ stack_pointer s' = stack_pointer s - 1
        /\ stack_frames s' = stack_frames s
        /\ gp_registers s' = gp_registers s /\ memory s' = memory s).
Proof.
  intros Hwf Hsp r. subst r. rewrite evaluate_ret.
  pose proof (wf_frames _ Hwf) as Hf. pose proof (wf_sp _ Hwf) as Hsp0.
  unfold ret. split.
  - intros ->. reflexivity.
  - intros Hne.
    destruct (stack_frames s !! Z.to_nat (stack_pointer s - 1)) as [frame|] eqn:El.
    + fold (ret s). rewrite (ret_pops s frame) by (done || lia).
      cbn [bind]. eexists. split; [reflexivity|]. done.
    + apply lookup_ge_None in El. lia.
Qed.

Lemma ret_checked_witness :
  evaluate_instruction 0 still 0x00ee blank = Fatal RetEmptyStack.
Proof.
  destruct (ret_checked 0 still blank blank_well_formed) as [Hempty _];
    [vm_compute; discriminate|].
  apply Hempty. reflexivity.
Defined.

Lemma execute_app fuel w l1 l2 s :
  execute fuel w (l1 ++ l2) s
  = bind (execute fuel w l1 s) (execute fuel w l2).
Proof.
  revert s. induction l1 as [|i l1 IH]; intros s; [done|].
  cbn [app execute]. unbind.
  destruct (evaluate_instruction fuel w i s) as [[s1 b]| | | |]; cbn [bind]; [|done..].
  apply IH.
Qed.

Lemma call_pushes target s :
  length (stack_frames s) = 16%nat -> length (memory s) = 4096%nat ->
  0 <= stack_pointer s < 16 -> 0 <= target < 4095 ->
  exists s',
    call target s = Ok s'
    /\ program_counter s' = target
    /\ stack_pointer s' = stack_pointer s + 1
    /\ stack_frames s' !! Z.to_nat (stack_pointer s)
       = Some ((program_counter s + 2) mod 65536)
    /\ (forall j, (j < Z.to_nat (stack_pointer s))%nat ->
                  stack_frames s' !! j = stack_frames s !! j)
    /\ length (stack_frames s') = 16%nat
    /\ memory s' = memory s /\ gp_registers s' = gp_registers s
    /\ i_register s' = i_register s
    /\ display_buffer s' = display_buffer s.
Proof.
  intros Hf Hm Hsp Ht. unfold call. rewrite Hm.
  change (Z.of_nat 4096 - 1) with 4095.
  destruct (15 <? stack_pointer s) eqn:E1; [lia|].
  destruct (4095 <=? target) eqn:E2; [lia|].
  eexists. split; [reflexivity|]. cbn. unfold u8. rewrite Z.mod_small by lia.
  repeat split; try done.
  - apply list_lookup_insert_eq. lia.
  - intros j Hj. apply list_lookup_insert_ne. lia.
  - by rewrite length_insert.
Qed.

(** Calls to [targets], one inside the other, and as many returns. *)
Lemma calls_then_returns_nested fuel w targets : forall s,
  length (stack_frames s) = 16%nat -> length (memory s) = 4096%nat ->
  0 <= stack_pointer s -> stack_pointer s + Z.of_nat (length targets) <= 16 ->
  Forall (fun t => 0 <= t < 4095) targets ->
  exists s',
    execute fuel w (((fun t => 0x2000 + t) <$> targets)
                    ++ replicate (length targets) 0x00ee) s = Ok s'
    /\ program_counter s'
       = match targets with
         | [] => program_counter s
         | _ => (program_counter s + 2) mod 65536
         end
    /\ stack_pointer s' = stack_pointer s
    /\ length (stack_frames s') = 16%nat
    /\ (forall j, (j < Z.to_nat (stack_pointer s))%nat ->
                  stack_frames s' !! j = stack_frames s !! j)
    /\ memory s' = memory s /\ gp_registers s' = gp_registers s
    /\ i_register s' = i_register s
    /\ display_buffer s' = display_buffer s.
Proof.
  induction targets as [|t targets IH]; intros s Hf Hm Hsp0 Hsp Ht.
  - exists s. cbn. repeat split; done.
  - apply list.Forall_cons in Ht as [Ht Hts]. cbn [length] in Hsp.
    destruct (call_pushes t s) as (s1 & Hcall & Hpc1 & Hsp1 & Htop & Hlow & Hf1 & Hm1 & Hg1 & Hi1 & Hb1);
      try (done || lia).
    destruct (IH s1) as (s2 & Hrun & Hpc2 & Hsp2 & Hf2 & Hlow2 & Hm2 & Hg2 & Hi2 & Hb2);
      try (done || lia); [congruence|].
    set (calls := (fun t => 0x2000 + t) <$> targets) in *.
    replace (((fun t => 0x2000 + t) <$> t :: targets)
             ++ replicate (length (t :: targets)) 0x00ee)
      with (((0x2000 + t) :: (calls ++ replicate (length targets) 0x00ee))
            ++ [0x00ee])
      by (cbn [length]; rewrite replicate_S_end; subst calls; cbn;
          by rewrite <- app_assoc).
    rewrite execute_app. cbn [execute].
    rewrite evaluate_call by lia. rewrite Hcall. unbind. cbn [fst].
    rewrite Hrun. cbn [bind execute]. rewrite evaluate_ret.
    rewrite (ret_pops s2 ((program_counter s + 2) mod 65536)).
    + cbn [bind]. unbind. eexists. split; [reflexivity|]. cbn.
      repeat split; try congruence; try lia.
      intros j Hj. rewrite Hlow2 by lia. apply Hlow. lia.
    + lia.
    + rewrite Hsp2, Hsp1. replace (stack_pointer s + 1 - 1) with (stack_pointer s) by lia.
      rewrite Hlow2 by lia. exact Htop.
Qed.

(** X7. A sequence of nested calls followed by the same number of returns
    ends at the instruction after the first call, with the stack pointer,
    the frames below it, the memory, the registers and I as they were
    before. *)
Theorem calls_then_returns fuel w targets s :
  well_formed s ->
  targets <> [] ->
  stack_pointer s + Z.of_nat (length targets) <= 16 ->
  Forall (fun t => 0 <= t < 4095) targets ->
  exists s',
    execute fuel w (((fun t => 0x2000 + t) <$> targets)
                    ++ replicate (length targets) 0x00ee) s = Ok s'
    /\ program_counter s' = (program_counter s + 2) mod 65536
    /\ stack_pointer s' = stack_pointer s
    /\ (forall j, (j < Z.to_nat (stack_pointer s))%nat ->
                  stack_frames s' !! j = stack_frames s !! j)
    /\ memory s' = memory s /\ gp_registers s' = gp_registers s
    /\ i_register s' = i_register s.
Proof.
  intros Hwf Hne Hsp Ht.
  destruct (calls_then_returns_nested fuel w targets s)
    as (s' & Hrun & Hpc & Hsp' & _ & Hlow & Hm & Hg & Hi & _);
    try done; try apply Hwf.
  exists s'. destruct targets; [done|]. repeat split; done.
Qed.

Lemma calls_then_returns_witness :
  exists s',
    execute 0 still [0x2300; 0x2400; 0x2500; 0x00ee; 0x00ee; 0x00ee] blank = Ok s'
    /\ program_counter s' = 0x202 /\ stack_pointer s' = 0.
Proof.
  destruct (calls_then_returns 0 still [0x300; 0x400; 0x500] blank
              blank_well_formed)
    as (s' & Hrun & Hpc & Hsp & _); [discriminate|vm_compute; discriminate|..].
  - repeat constructor; lia.
  - exists s'. split; [exact Hrun|]. split; [exact Hpc|exact Hsp].
Defined.

(** ** Binary-coded decimal (Fx33) *)

(** X8. Fx33 is fatal for I >= 4094; otherwise it writes the three decimal
    digits of Vx, the ones at I, the tens at I + 1 and the hundreds at
    I + 2, changes no other cell of memory and no register. *)
Theorem load_bcd_digits fuel w s x :
  well_formed s -> 0 <= x < 16 ->
  let r := evaluate_instruction fuel w (instruction_word 0xf x 3 3) s in
  let v := reg s x in
  let i := i_register s in
  (4094 <= i -> r = Fatal (BcdOutsideMemory i))
  /\ (i < 4094 ->
      exists s',
        r = Ok (s', false)
        /\ memory s' !! Z.to_nat i = Some (v mod 10)
        /\ memory s' !! Z.to_nat (i + 1) = Some ((v / 10) mod 10)
        /\ memory s' !! Z.to_nat (i + 2) = Some (v / 100)
        /\ v = 100 * (v / 100) + 10 * ((v / 10) mod 10) + v mod 10
        /\ (forall a, (a < Z.to_nat i \/ Z.to_nat i + 2 < a)%nat ->
                      memory s' !! a = memory s !! a)
        /\ gp_registers s' = gp_registers s
        /\ i_register s' = i).
Proof.
  intros Hwf Hx r v i. subst r. rewrite evaluate_bcd by done.
  pose proof (wf_memory _ Hwf) as Hm. pose proof (wf_i _ Hwf) as HI.
  pose proof (reg_range s x Hwf Hx) as Hv. fold v in Hv. fold i in HI.
  unfold load_bcd. rewrite Hm. change (Z.of_nat 4096 - 2) with 4094. fold i.
  destruct (4094 <=? i) eqn:E; [apply Z.leb_le in E|apply Z.leb_gt in E].
  { split; [done|lia]. }
  split; [lia|]. intros _.
  rewrite mem_write_in_range by (rewrite Hm; lia). unbind.
  rewrite mem_write_in_range by (cbn; rewrite length_insert, Hm; lia). unbind.
  rewrite mem_write_in_range by (cbn; rewrite !length_insert, Hm; lia). unbind.
  eexists. split; [reflexivity|]. cbn. unfold reg, u8 in *. cbn.
  subst v. set (v := gp_registers s !!! Z.to_nat x) in *. fold i.
  assert (Hd0 : (v mod 10) mod 256 = v mod 10)
    by (apply Z.mod_small; Z.div_mod_to_equations; lia).
  assert (Hd1 : ((v mod 100 - v mod 10) / 10) mod 256 = (v / 10) mod 10)
    by (Z.div_mod_to_equations; lia).
  assert (Hd2 : ((v - v mod 100) / 100) mod 256 = v / 100)
    by (Z.div_mod_to_equations; lia).
  rewrite Hd0, Hd1, Hd2.
  split; [|split; [|split; [|split; [|split]]]]; try done.
  - rewrite !list_lookup_insert_ne by lia. apply list_lookup_insert_eq. lia.
  - rewrite list_lookup_insert_ne by lia. apply list_lookup_insert_eq.
    rewrite length_insert. lia.
  - apply list_lookup_insert_eq. rewrite !length_insert. lia.
  - Z.div_mod_to_equations. lia.
  - intros a Ha. rewrite !list_lookup_insert_ne by lia. done.
Qed.

Lemma load_bcd_digits_witness :
  exists s',
    evaluate_instruction 0 still 0xf033 carry_state = Ok (s', false)
    /\ memory s' !! 0%nat = Some 0 /\ memory s' !! 1%nat = Some 0
    /\ memory s' !! 2%nat = Some 2.
Proof.
  assert (Hwf : well_formed carry_state).
  { unfold carry_state. repeat apply well_formed_set_reg; try lia.
    apply blank_well_formed. }
  destruct (load_bcd_digits 0 still carry_state 0 Hwf) as [_ Hok]; [lia|].
  destruct Hok as (s' & He & H0 & H1 & H2 & _); [vm_compute; reflexivity|].
  exists s'. split; [exact He|]. split; [exact H0|]. split; [exact H1|exact H2].
Defined.

(** ** The infinite-loop flag of [evaluate_instruction] *)

Lemma with_pc_same s : with_pc s (program_counter s) = s.
Proof. by destruct s. Qed.

(** X9. [evaluate_instruction] returns true only for a jump 1nnn to the
    current program counter, and then the state is left exactly as it was;
    conversely every such jump returns true. *)
Theorem loop_flag_means_no_change fuel w s :
  0 <= program_counter s < 4096 ->
  evaluate_instruction fuel w (0x1000 + program_counter s) s = Ok (s, true)
  /\ (forall instruction s',
        evaluate_instruction fuel w instruction s = Ok (s', true) ->
        s' = s /\ Z.land instruction 0xf000 = 0x1000
        /\ Z.land instruction 0x0fff = program_counter s).
Proof.
  intros Hpc. split.
  - change (0x1000 + program_counter s) with (4096 * 1 + program_counter s).
    destruct (instruction_word_address 1 (program_counter s) Hpc) as (-> & Hx & Hy & Hn & Ha).
    dispatch 1 (program_counter s / 256) ((program_counter s / 16) mod 16)
             (program_counter s mod 16).
    rewrite Ha. unfold jp. by rewrite with_pc_same.
  - intros instruction s'. unfold evaluate_instruction, matches.
    repeat match goal with
           | |- context [if ?c then _ else _] => destruct c eqn:?
           end;
      unbind;
      repeat match goal with
             | |- context [bind ?m _] => destruct m; cbn [bind]
             end;
      try discriminate.
    intros [= <-]. unfold jp.
    repeat match goal with
           | H : (_ =? _) = true |- _ => apply Z.eqb_eq in H
           end.
    split; [|done].
    match goal with H : Z.land instruction 4095 = _ |- _ => rewrite H end.
    apply with_pc_same.
Qed.

Lemma loop_flag_means_no_change_witness :
  evaluate_instruction 0 still 0x1200 blank = Ok (blank, true).
Proof.
  apply (loop_flag_means_no_change 0 still blank).
  cbn. unfold PROGRAM_STARTING_ADDRESS. lia.
Defined.

(** ** What a draw does to each pixel *)

Lemma sprite_strokes_elem mem i ul_xpos ul_ypos n px bit :
  (px, bit) ∈ sprite_strokes mem i ul_xpos ul_ypos (seq 0 n)
  <-> exists r c, (r < n)%nat /\ (c < 8)%nat
                  /\ px = pixel ul_xpos ul_ypos r c
                  /\ bit = sprite_bit (mem !!! Z.to_nat (i + Z.of_nat r)) c.
Proof.
  unfold sprite_strokes, row_strokes. rewrite list_elem_of_bind. split.
  - intros (r & Hin & Hr). apply list_elem_of_fmap in Hin as (c & Heq & Hc).
    apply elem_of_seq in Hr, Hc. injection Heq as -> ->.
    exists r, c. unfold SPRITE_WIDTH in *. repeat split; lia.
  - intros (r & c & Hr & Hc & -> & ->). exists r. split.
    + apply list_elem_of_fmap. exists c. split; [done|].
      apply elem_of_seq. unfold SPRITE_WIDTH. lia.
    + apply elem_of_seq. lia.
Qed.

(** The state after one draw, pixel by pixel. *)
Lemma draw_sprite_pixels fuel w s x y n :
  well_formed s -> 0 <= x < 16 -> 0 <= y < 16 -> 0 <= n < 16 ->
  n = 0 \/ i_register s + n <= 4096 ->
  let ul_xpos := reg (set_reg s 0xf 0) x in
  let ul_ypos := reg (set_reg s 0xf 0) y in
  let row r := memory s !!! Z.to_nat (i_register s + Z.of_nat r) in
  exists s',
    evaluate_instruction fuel w (instruction_word 0xd x y n) s = Ok (s', false)
    /\ (forall r c, (r < Z.to_nat n)%nat -> (c < 8)%nat ->
          display_buffer s' !!! pixel ul_xpos ul_ypos r c
          = xorb (display_buffer s !!! pixel ul_xpos ul_ypos r c)
                 (sprite_bit (row r) c))
    /\ (forall k,
          (forall r c, (r < Z.to_nat n)%nat -> (c < 8)%nat ->
                       k <> pixel ul_xpos ul_ypos r c) ->
          display_buffer s' !!! k = display_buffer s !!! k)
    /\ (reg s' 0xf = 1
        <-> exists r c, (r < Z.to_nat n)%nat /\ (c < 8)%nat
                        /\ sprite_bit (row r) c = true
                        /\ display_buffer s !!! pixel ul_xpos ul_ypos r c = true)
    /\ (reg s' 0xf = 0 \/ reg s' 0xf = 1)
    /\ (forall r, 0 <= r < 15 -> reg s' r = reg s r)
    /\ length (display_buffer s') = 2048%nat
    /\ memory s' = memory s /\ i_register s' = i_register s
    /\ stack_frames s' = stack_frames s /\ stack_pointer s' = stack_pointer s
    /\ program_counter s' = (program_counter s + 2) mod 65536.
Proof.
  intros Hwf Hx Hy Hn Hin ul_xpos ul_ypos row.
  pose proof (wf_memory _ Hwf) as Hm. pose proof (wf_i _ Hwf) as HI.
  pose proof (wf_registers _ Hwf) as Hr. pose proof (wf_buffer _ Hwf) as Hb.
  set (s0 := set_reg s 0xf 0).
  set (strokes := sprite_strokes (memory s) (i_register s) ul_xpos ul_ypos
                                 (seq 0 (Z.to_nat n))).
  set (b := display_buffer s) in *.
  assert (Hnd : NoDup strokes.*1) by (apply sprite_strokes_NoDup; lia).
  exists (advance (painted s0 (blit strokes b) (collision strokes b))
                  INSTRUCTION_SIZE).
  split.
  { rewrite evaluate_draw, draw_sprite_spec by (done || lia). reflexivity. }
  assert (Hvf : reg (advance (painted s0 (blit strokes b) (collision strokes b))
                             INSTRUCTION_SIZE) 0xf
                = Z_of_bool (collision strokes b)).
  { rewrite reg_advance. apply painted_flag.
    - subst s0. rewrite registers_set_reg. lia.
    - apply reg_set_reg_eq. lia. }
  rewrite Hvf. cbn [display_buffer advance with_pc]. rewrite painted_buffer.
  split; [|split; [|split; [|split; [|split; [|split]]]]].
  - intros r c Hr' Hc.
    apply (blit_lookup_stroke strokes b); [done| |rewrite Hb; apply pixel_range].
    apply sprite_strokes_elem. eauto 10.
  - intros k Hk. apply blit_lookup_outside.
    intros Hmem. apply list_elem_of_fmap in Hmem as ([px bit] & -> & Hmem).
    apply sprite_strokes_elem in Hmem as (r & c & Hr' & Hc & -> & _).
    by eapply Hk.
  - destruct (collision strokes b) eqn:Hc; cbn; split; try done.
    + intros _. apply collision_spec in Hc as (px & Hpx & Hset); [|done].
      apply sprite_strokes_elem in Hpx as (r & c & Hr' & Hc' & -> & Hbit).
      exists r, c. eauto.
    + intros (r & c & Hr' & Hc' & Hbit & Hset). exfalso.
      assert (collision strokes b = true); [|congruence].
      apply collision_spec; [done|]. exists (pixel ul_xpos ul_ypos r c).
      split; [|done]. apply sprite_strokes_elem. exists r, c. eauto.
  - destruct (collision strokes b); cbn; lia.
  - intros r Hr'. rewrite reg_advance. unfold painted.
    destruct (collision strokes b).
    + rewrite reg_set_reg_ne by lia. subst s0. apply reg_set_reg_ne. lia.
    + subst s0. apply (reg_set_reg_ne s 0xf r 0). lia.
  - by rewrite blit_length.
  - unfold advance, painted. by destruct (collision strokes b).
Qed.

(** X10. DxyN with its rows inside memory XORs bit c of row r into the pixel
    at column (Vx + c) mod 64 and line (Vy + r) mod 32, leaves every other
    pixel, the memory, I, the stack and the registers V0 to VE as they
    were, and sets VF to 1 exactly when a sprite bit met a pixel that was
    set, and to 0 otherwise. *)
Theorem draw_sprite_xor_blit fuel w s x y n :
  well_formed s -> 0 <= x < 16 -> 0 <= y < 16 -> 0 <= n < 16 ->
  n = 0 \/ i_register s + n <= 4096 ->
  let ul_xpos := reg (set_reg s 0xf 0) x in
  let ul_ypos := reg (set_reg s 0xf 0) y in
  let row r := memory s !!! Z.to_nat (i_register s + Z.of_nat r) in
  exists s',
    evaluate_instruction fuel w (instruction_word 0xd x y n) s = Ok (s', false)
    /\ (forall r c, (r < Z.to_nat n)%nat -> (c < 8)%nat ->
          display_buffer s' !!! pixel ul_xpos ul_ypos r c
          = xorb (display_buffer s !!! pixel ul_xpos ul_ypos r c)
                 (sprite_bit (row r) c))
    /\ (forall k,
          (forall r c, (r < Z.to_nat n)%nat -> (c < 8)%nat ->
                       k <> pixel ul_xpos ul_ypos r c) ->
          display_buffer s' !!! k = display_buffer s !!! k)
    /\ (reg s' 0xf = 1
        <-> exists r c, (r < Z.to_nat n)%nat /\ (c < 8)%nat
                        /\ sprite_bit (row r) c = true
                        /\ display_buffer s !!! pixel ul_xpos ul_ypos r c = true)
    /\ (reg s' 0xf = 0 \/ reg s' 0xf = 1)
    /\ (forall r, 0 <= r < 15 -> reg s' r = reg s r)
    /\ memory s' = memory s /\ i_register s' = i_register s
    /\ stack_frames s' = stack_frames s /\ stack_pointer s' = stack_pointer s.
Proof.
  intros Hwf Hx Hy Hn Hin ul_xpos ul_ypos row.
  destruct (draw_sprite_pixels fuel w s x y n Hwf Hx Hy Hn Hin)
    as (s' & He & Hpx & Hout & Hvf & Hvf01 & Hregs & _ & Hm & Hi & Hf & Hsp & _).
  exists s'. repeat split; try done; apply Hvf.
Qed.

Lemma draw_sprite_xor_blit_witness :
  exists s',
    evaluate_instruction 0 still 0xd001 sprite_state = Ok (s', false)
    /\ display_buffer s' !!! 0%nat = true
    /\ display_buffer s' !!! 4%nat = false
    /\ reg s' 0xf = 0.
Proof.
  assert (Hwf : well_formed sprite_state).
  { pose proof blank_well_formed as Hb. unfold sprite_state.
    apply well_formed_with_memory; [done| |].
    - rewrite length_insert. apply Hb.
    - apply Forall_insert; [apply Hb|lia]. }
  destruct (draw_sprite_xor_blit 0 still sprite_state 0 0 1 Hwf)
    as (s' & He & Hpx & _ & Hvf & Hvf01 & _); [lia..|right; vm_compute; discriminate|].
  exists s'. split; [exact He|].
  split; [exact (Hpx 0%nat 0%nat ltac:(vm_compute; lia) ltac:(lia))|].
  split; [exact (Hpx 0%nat 4%nat ltac:(vm_compute; lia) ltac:(lia))|].
  destruct Hvf01 as [H0|H1]; [exact H0|].
  apply Hvf in H1 as (r & c & Hr & Hc & _ & Hset).
  exfalso. revert Hset. unfold sprite_state. cbn [display_buffer with_memory blank].
  rewrite lookup_total_replicate_2 by apply pixel_range. discriminate.
Defined.

(** ** Clear, then draw *)

Lemma well_formed_cls s : well_formed s -> well_formed (cls s).
Proof.
  intros []. split; cbn; try done.
  - by rewrite length_replicate.
  - apply Z.mod_pos_bound. lia.
Qed.

(** X11. After 00E0 the screen is blank, so a DxyN that follows it shows
    exactly the sprite: each pixel of the sprite rectangle equals its sprite
    bit, every other pixel of the 2048 is clear, and VF is 0. *)
Theorem clear_then_draw_shows_sprite fuel w s x y n :
  well_formed s -> 0 <= x < 16 -> 0 <= y < 16 -> 0 <= n < 16 ->
  n = 0 \/ i_register s + n <= 4096 ->
  let ul_xpos := reg (set_reg s 0xf 0) x in
  let ul_ypos := reg (set_reg s 0xf 0) y in
  exists s',
    execute fuel w [0x00e0; instruction_word 0xd x y n] s = Ok s'
    /\ (forall r c, (r < Z.to_nat n)%nat -> (c < 8)%nat ->
          display_buffer s' !!! pixel ul_xpos ul_ypos r c
          = sprite_bit (memory s !!! Z.to_nat (i_register s + Z.of_nat r)) c)
    /\ (forall k, (k < 2048)%nat ->
          (forall r c, (r < Z.to_nat n)%nat -> (c < 8)%nat ->
                       k <> pixel ul_xpos ul_ypos r c) ->
          display_buffer s' !!! k = false)
    /\ reg s' 0xf = 0.
Proof.
  intros Hwf Hx Hy Hn Hin ul_xpos ul_ypos.
  pose proof (well_formed_cls s Hwf) as Hwf1.
  destruct (draw_sprite_pixels fuel w (cls s) x y n Hwf1 Hx Hy Hn Hin)
    as (s' & He & Hpx & Hout & Hvf & Hvf01 & _).
  assert (Hblank : forall k, (k < 2048)%nat -> display_buffer (cls s) !!! k = false).
  { intros k Hk. cbn. apply lookup_total_replicate_2.
    by rewrite (wf_buffer _ Hwf). }
  exists s'. split; [|split; [|split]].
  - cbn [execute]. change (evaluate_instruction fuel w 224 s) with (Ok (cls s, false) : outcome _).
    change (@mbind outcome _) with (fun A B k m => @bind A B m k).
    cbv beta. cbn [bind fst]. rewrite He. reflexivity.
  - intros r c Hr Hc. etransitivity; [exact (Hpx r c Hr Hc)|].
    cbv zeta. rewrite Hblank by apply pixel_range. done.
  - intros k Hlt Hk. etransitivity; [exact (Hout k Hk)|]. by apply Hblank.
  - destruct Hvf01 as [H0|H1]; [done|].
    apply Hvf in H1 as (r & c & _ & _ & _ & Hset).
    by rewrite Hblank in Hset by apply pixel_range.
Qed.

Lemma clear_then_draw_shows_sprite_witness :
  exists s',
    execute 0 still [0x00e0; 0xd001] sprite_state = Ok s'
    /\ display_buffer s' !!! 3%nat = true /\ reg s' 0xf = 0.
Proof.
  assert (Hwf : well_formed sprite_state).
  { pose proof blank_well_formed as Hb. unfold sprite_state.
    apply well_formed_with_memory; [done| |].
    - rewrite length_insert. apply Hb.
    - apply Forall_insert; [apply Hb|lia]. }
  destruct (clear_then_draw_shows_sprite 0 still sprite_state 0 0 1 Hwf)
    as (s' & He & Hpx & _ & Hvf); [lia..|right; vm_compute; discriminate|].
  exists s'. split; [exact He|]. split; [|exact Hvf].
  exact (Hpx 0%nat 3%nat ltac:(vm_compute; lia) ltac:(lia)).
Defined.

(** ** The invariant that every instruction keeps *)

Lemma byte_log2 a : 0 <= a -> (a < 256 <-> Z.log2 a < 8).
Proof.
  intros Ha. destruct (Z.eq_dec a 0) as [->|Hne]; [cbn; lia|].
  change 256 with (2 ^ 8). apply Z.log2_lt_pow2. lia.
Qed.

Lemma lor_byte a b : 0 <= a < 256 -> 0 <= b < 256 -> 0 <= Z.lor a b < 256.
Proof.
  intros Ha Hb. assert (0 <= Z.lor a b) by (apply Z.lor_nonneg; lia).
  split; [done|]. apply byte_log2; [done|].
  rewrite Z.log2_lor by lia.
  apply Z.max_lub_lt; apply byte_log2; lia.
Qed.

Lemma land_byte a b : 0 <= a < 256 -> 0 <= b < 256 -> 0 <= Z.land a b < 256.
Proof.
  intros Ha Hb. assert (0 <= Z.land a b) by (apply Z.land_nonneg; lia).
  split; [done|]. apply byte_log2; [done|].
  pose proof (Z.log2_land a b ltac:(lia) ltac:(lia)).
  assert (Z.log2 a < 8) by (apply byte_log2; lia). lia.
Qed.

Lemma lxor_byte a b : 0 <= a < 256 -> 0 <= b < 256 -> 0 <= Z.lxor a b < 256.
Proof.
  intros Ha Hb. assert (0 <= Z.lxor a b) by (apply Z.lxor_nonneg; lia).
  split; [done|]. apply byte_log2; [done|].
  pose proof (Z.log2_lxor a b ltac:(lia) ltac:(lia)).
  assert (Z.log2 a < 8) by (apply byte_log2; lia).
  assert (Z.log2 b < 8) by (apply byte_log2; lia). lia.
Qed.

Lemma u8_range x : 0 <= u8 x < 256.
Proof. apply Z.mod_pos_bound. lia. Qed.

Lemma u16_range x : 0 <= u16 x < 65536.
Proof. apply Z.mod_pos_bound. lia. Qed.

Lemma Z_of_bool_range b : 0 <= Z_of_bool b < 256.
Proof. destruct b; cbn; lia. Qed.

Lemma timer_value_range t now : 0 <= Timer.value t now < 256.
Proof.
  unfold Timer.value. destruct (_value t =? 0) eqn:E.
  - apply Z.eqb_eq in E. lia.
  - destruct (_ <=? _); [lia|apply u8_range].
Qed.

Lemma machine_ok_reg s r : machine_ok s -> 0 <= r < 16 -> 0 <= reg s r < 256.
Proof. intros [Hwf _ _]. by apply reg_range. Qed.

Lemma machine_ok_set_reg s r v :
  machine_ok s -> 0 <= v < 256 -> machine_ok (set_reg s r v).
Proof. intros [Hwf Hf Hd] Hv. split; [by apply well_formed_set_reg|done..]. Qed.

Lemma machine_ok_with_pc s pc :
  machine_ok s -> 0 <= pc < 65536 -> machine_ok (with_pc s pc).
Proof. intros [[] Hf Hd] Hpc. split; [by split|done..]. Qed.

Lemma machine_ok_advance s n : machine_ok s -> machine_ok (advance s n).
Proof. intros H. apply machine_ok_with_pc; [done|apply u16_range]. Qed.

Lemma machine_ok_with_i s i :
  machine_ok s -> 0 <= i < 65536 -> machine_ok (with_i s i).
Proof. intros [[] Hf Hd] Hi. split; [by split|done..]. Qed.

Lemma machine_ok_with_buffer s b :
  machine_ok s -> length b = 2048%nat -> machine_ok (with_buffer s b).
Proof. intros [[] Hf Hd] Hb. split; [by split|done..]. Qed.

Lemma machine_ok_with_delay s t : machine_ok s -> machine_ok (with_delay s t).
Proof. intros [[] Hf Hd]. split; [by split|done..]. Qed.

Lemma machine_ok_with_sound s t : machine_ok s -> machine_ok (with_sound s t).
Proof. intros [[] Hf Hd]. split; [by split|done..]. Qed.

Lemma machine_ok_mem_write s addr v s' :
  machine_ok s -> 0 <= v < 256 -> mem_write s addr v = Ok s' -> machine_ok s'.
Proof.
  intros [[] Hf Hd] Hv. unfold mem_write.
  destruct (addr <? _) eqn:E; [|done]. intros [= <-].
  split; [split; cbn; rewrite ?length_insert; try done|done..].
  destruct (decide (Z.to_nat addr < length (memory s))%nat).
  - by apply Forall_insert.
  - by rewrite list_insert_ge by lia.
Qed.

Lemma machine_ok_mem_read s addr v :
  machine_ok s -> mem_read s addr = Ok v -> 0 <= v < 256.
Proof.
  intros [Hwf _ _]. unfold mem_read.
  destruct (memory s !! Z.to_nat addr) as [c|] eqn:E; [|done]. intros [= <-].
  exact (Forall_lookup_1 _ (memory s) _ _ (wf_cells _ Hwf) E).
Qed.

Lemma machine_ok_painted s b hit :
  machine_ok s -> length b = 2048%nat -> machine_ok (painted s b hit).
Proof.
  intros Hok Hb. unfold painted. destruct hit.
  - apply machine_ok_set_reg; [by apply machine_ok_with_buffer|lia].
  - by apply machine_ok_with_buffer.
Qed.

Lemma draw_rows_shape ul_xpos ul_ypos rows : forall s b hit s',
  draw_rows ul_xpos ul_ypos rows (painted s b hit) = Ok s' ->
  exists b' hit', s' = painted s b' hit' /\ length b' = length b.
Proof.
  induction rows as [|r rows IH]; intros s b hit s' Hrun; cbn [draw_rows] in Hrun.
  - injection Hrun as <-. eauto.
  - revert Hrun. unfold mem_read.
    destruct (memory (painted s b hit) !! _) as [row|]; [|done].
    change (@mbind outcome _) with (fun A B k m => @bind A B m k).
    cbv beta. cbn [bind]. rewrite draw_row_painted. intros Hrun.
    apply IH in Hrun as (b' & hit' & -> & Hlen).
    exists b', hit'. split; [done|]. by rewrite Hlen, blit_length.
Qed.

Lemma machine_ok_draw_sprite x y n s s' :
  machine_ok s -> draw_sprite x y n s = Ok s' -> machine_ok s'.
Proof.
  intros Hok. unfold draw_sprite.
  set (s0 := set_reg s 15 0).
  assert (Hok0 : machine_ok s0) by (apply machine_ok_set_reg; [done|lia]).
  rewrite <- (painted_here s0) at 3.
  destruct (draw_rows _ _ _ _) as [s1| | | |] eqn:Hrun;
    change (@mbind outcome _) with (fun A B k m => @bind A B m k);
    cbv beta; cbn [bind]; [|done..].
  intros [= <-]. apply draw_rows_shape in Hrun as (b' & hit' & -> & Hlen).
  apply machine_ok_advance, machine_ok_painted; [done|].
  rewrite Hlen. apply Hok.
Qed.

Lemma machine_ok_load_bcd x s s' :
  machine_ok s -> load_bcd x s = Ok s' -> machine_ok s'.
Proof.
  intros Hok. unfold load_bcd. destruct (_ <=? _); [done|].
  change (@mbind outcome _) with (fun A B k m => @bind A B m k). cbv beta.
  destruct (mem_write s _ _) as [s1| | | |] eqn:H1; cbn [bind]; [|done..].
  destruct (mem_write s1 _ _) as [s2| | | |] eqn:H2; cbn [bind]; [|done..].
  destruct (mem_write s2 _ _) as [s3| | | |] eqn:H3; cbn [bind]; [|done..].
  intros [= <-]. apply machine_ok_advance.
  eapply machine_ok_mem_write; [|apply u8_range|exact H3].
  eapply machine_ok_mem_write; [|apply u8_range|exact H2].
  eapply machine_ok_mem_write; [|apply u8_range|exact H1]. done.
Qed.

Lemma machine_ok_load_reg_to_mem_loop fuel : forall i reg_final s s',
  machine_ok s -> 0 <= i < 16 ->
  load_reg_to_mem_loop fuel i reg_final s = Ok s' -> machine_ok s'.
Proof.
  induction fuel as [|fuel IH]; intros i reg_final s s' Hok Hi; [done|].
  cbn [load_reg_to_mem_loop]. destruct (i <=? reg_final); [|by intros [= <-]].
  change (@mbind outcome _) with (fun A B k m => @bind A B m k). cbv beta.
  destruct (mem_write s _ _) as [s1| | | |] eqn:H1; cbn [bind]; [|done..].
  apply IH; [|apply u4_incr_range].
  eapply machine_ok_mem_write; [done| |exact H1]. by apply machine_ok_reg.
Qed.

Lemma machine_ok_load_mem_to_reg_loop fuel : forall i reg_final s s',
  machine_ok s -> 0 <= i < 16 ->
  load_mem_to_reg_loop fuel i reg_final s = Ok s' -> machine_ok s'.
Proof.
  induction fuel as [|fuel IH]; intros i reg_final s s' Hok Hi; [done|].
  cbn [load_mem_to_reg_loop]. destruct (i <=? reg_final); [|by intros [= <-]].
  change (@mbind outcome _) with (fun A B k m => @bind A B m k). cbv beta.
  destruct (mem_read s _) as [v| | | |] eqn:H1; cbn [bind]; [|done..].
  apply IH; [|apply u4_incr_range].
  apply machine_ok_set_reg; [done|]. by eapply machine_ok_mem_read.
Qed.

Lemma machine_ok_ret s s' : machine_ok s -> ret s = Ok s' -> machine_ok s'.
Proof.
  intros [Hwf Hf Hd]. unfold ret. destruct (stack_pointer s =? 0) eqn:E; [done|].
  apply Z.eqb_neq in E. pose proof (wf_sp _ Hwf).
  cbn [stack_frames stack_pointer with_stack].
  destruct (stack_frames s !! _) as [frame|] eqn:El; [|done]. intros [= <-].
  apply machine_ok_with_pc.
  - destruct Hwf. split; [by split; cbn; try done; apply u8_range|done|].
    cbn. unfold u8. rewrite Z.mod_small; lia.
  - exact (Forall_lookup_1 _ (stack_frames s) _ _ Hf El).
Qed.

Lemma machine_ok_call target s s' :
  machine_ok s -> 0 <= target < 65536 -> call target s = Ok s' -> machine_ok s'.
Proof.
  intros [Hwf Hf Hd] Ht. unfold call.
  destruct (15 <? stack_pointer s) eqn:E; [done|]. apply Z.ltb_ge in E.
  destruct (_ <=? target); [done|]. intros [= <-].
  pose proof (wf_sp _ Hwf). pose proof (wf_frames _ Hwf).
  apply machine_ok_with_pc; [|done].
  destruct Hwf. split; cbn.
  - split; cbn; rewrite ?length_insert; try done. apply u8_range.
  - apply Forall_insert; [done|apply u16_range].
  - unfold u8. rewrite Z.mod_small; lia.
Qed.

Lemma machine_ok_load_reg_to_mem fuel x s s' :
  machine_ok s -> load_reg_to_mem fuel x s = Ok s' -> machine_ok s'.
Proof.
  intros Hok. unfold load_reg_to_mem.
  destruct (load_reg_to_mem_loop _ _ _ _) as [s1| | | |] eqn:Hrun;
    change (@mbind outcome _) with (fun A B k m => @bind A B m k);
    cbv beta; cbn [bind]; [|done..].
  intros [= <-]. apply machine_ok_advance.
  eapply machine_ok_load_reg_to_mem_loop; [done| |exact Hrun]. by vm_compute.
Qed.

Lemma machine_ok_load_mem_to_reg fuel x s s' :
  machine_ok s -> load_mem_to_reg fuel x s = Ok s' -> machine_ok s'.
Proof.
  intros Hok. unfold load_mem_to_reg. destruct (15 <? x); [done|].
  destruct (load_mem_to_reg_loop _ _ _ _) as [s1| | | |] eqn:Hrun;
    change (@mbind outcome _) with (fun A B k m => @bind A B m k);
    cbv beta; cbn [bind]; [|done..].
  intros [= <-]. apply machine_ok_advance.
  eapply machine_ok_load_mem_to_reg_loop; [done| |exact Hrun]. by vm_compute.
Qed.

Lemma machine_ok_cls s : machine_ok s -> machine_ok (cls s).
Proof.
  intros Hok. apply machine_ok_advance, machine_ok_with_buffer; [done|].
  rewrite length_replicate. apply Hok.
Qed.

Lemma machine_ok_load_from_next_keypress w x s s' :
  machine_ok s -> load_from_next_keypress w x s = Ok s' -> machine_ok s'.
Proof.
  intros Hok. unfold load_from_next_keypress.
  destruct (next_keypress w) as [key|]; [|done]. intros [= <-].
  apply machine_ok_advance, machine_ok_set_reg; [done|apply u8_range].
Qed.

Lemma machine_ok_shift_right r s :
  machine_ok s -> 0 <= r < 16 -> machine_ok (shift_right r s).
Proof.
  intros Hok Hr. pose proof (machine_ok_reg s r Hok Hr) as Hv.
  unfold shift_right. apply machine_ok_advance.
  assert (Hok1 : machine_ok (set_reg s r (Z.shiftr (reg s r) 1))).
  { apply machine_ok_set_reg; [done|].
    rewrite Z.shiftr_div_pow2 by lia. change (2 ^ 1) with 2.
    Z.div_mod_to_equations. lia. }
  apply machine_ok_set_reg; [done|].
  apply land_byte; [lia|]. by apply machine_ok_reg.
Qed.

Lemma nibble_range w k : 0 <= (w / k) mod 16 < 16.
Proof. apply Z.mod_pos_bound. lia. Qed.

Lemma low_byte_range w : 0 <= Z.land w 0x00ff < 256.
Proof. rewrite mask_00ff. apply Z.mod_pos_bound. lia. Qed.

Lemma address_range w : 0 <= Z.land w 0x0fff < 65536.
Proof. rewrite mask_0fff. pose proof (Z.mod_pos_bound w 4096). lia. Qed.

Create HintDb machine.
#[local] Hint Resolve machine_ok_reg machine_ok_set_reg machine_ok_with_pc
  machine_ok_advance machine_ok_with_i machine_ok_with_buffer
  machine_ok_with_delay machine_ok_with_sound u8_range u16_range
  Z_of_bool_range timer_value_range nibble_range low_byte_range address_range
  lor_byte land_byte lxor_byte machine_ok_cls machine_ok_shift_right
  : machine.

(** X12. Every instruction that completes keeps the invariant of the machine:
    the arrays keep their sizes, registers and memory cells stay bytes, PC
    and I stay 16-bit values, and the stack holds at most 16 frames, each a
    16-bit address. *)
Theorem evaluate_instruction_keeps_invariant fuel w instruction s s' flag :
  machine_ok s ->
  evaluate_instruction fuel w instruction s = Ok (s', flag) ->
  machine_ok s'.
Proof.
  intros Hok. unfold evaluate_instruction, matches.
  rewrite !get_nibble_spec by lia.
  change (@mbind outcome _) with (fun A B k m => @bind A B m k).
  cbv beta. cbn [bind].
  repeat match goal with
         | |- context [if ?c then _ else _] => destruct c
         end;
    try (intros [= <- <-]);
    try match goal with
        | |- context [bind ?m _] =>
            let H := fresh "Hrun" in
            destruct m eqn:H; cbn [bind]; try discriminate; intros [= <- <-]
        end.
  all: try discriminate.
  all: try (first
              [ eapply machine_ok_ret; [exact Hok|exact Hrun]
              | eapply machine_ok_call; [exact Hok|apply address_range|exact Hrun]
              | eapply machine_ok_draw_sprite; [exact Hok|exact Hrun]
              | eapply machine_ok_load_bcd; [exact Hok|exact Hrun]
              | eapply machine_ok_load_from_next_keypress; [exact Hok|exact Hrun]
              | eapply machine_ok_load_reg_to_mem; [exact Hok|exact Hrun]
              | eapply machine_ok_load_mem_to_reg; [exact Hok|exact Hrun] ]; fail).
  all: try (eauto 4 with machine; fail).
  all: unfold sys, jp, skip_equal, skip_not_equal, skip_equal_reg,
         load, add, load_reg, bitwise_or, bitwise_and, bitwise_xor,
         carry_add_reg, carry_sub_reg, subtract_reversed,
         shift_left, skip_not_equal_reg, load_address, jump_reg0,
         random_int, skip_if_key_press, skip_if_not_key_press,
         load_from_delay_timer, set_delay, set_sound, increment_i_reg,
         load_sprite;
       repeat match goal with
              | |- context [if ?c then _ else _] => destruct c
              end;
       eauto 10 with machine.
Qed.

Lemma blank_machine_ok : machine_ok blank.
Proof.
  split; [apply blank_well_formed| |by vm_compute].
  apply Forall_replicate. lia.
Qed.

Lemma evaluate_instruction_keeps_invariant_witness :
  exists s', evaluate_instruction 0 still 0x2ffe blank = Ok (s', false)
             /\ machine_ok s'.
Proof.
  eexists. split; [reflexivity|].
  eapply (evaluate_instruction_keeps_invariant 0 still 0x2ffe blank);
    [apply blank_machine_ok|reflexivity].
Defined.

(** ** What leaves the defined behaviour, and what does not *)

Lemma machine_ok_ret_defined s : machine_ok s -> ret s <> OutOfRange.
Proof.
  intros [Hwf Hf Hd]. unfold ret.
  destruct (stack_pointer s =? 0) eqn:E; [done|]. apply Z.eqb_neq in E.
  pose proof (wf_sp _ Hwf). pose proof (wf_frames _ Hwf) as Hlen.
  cbn [stack_frames stack_pointer with_stack].
  destruct (stack_frames s !! _) as [frame|] eqn:El; [done|].
  apply lookup_ge_None in El. unfold u8 in El.
  rewrite Z.mod_small in El; lia.
Qed.

Lemma ret_returns s : ret s <> OutOfFuel /\ ret s <> Waiting.
Proof.
  unfold ret. destruct (_ =? _); [done|]. by destruct (_ !! _).
Qed.

Lemma machine_ok_load_bcd_defined x s : machine_ok s -> load_bcd x s <> OutOfRange.
Proof.
  intros [Hwf Hf Hd]. unfold load_bcd.
  pose proof (wf_memory _ Hwf) as Hm. pose proof (wf_i _ Hwf) as HI.
  rewrite Hm. change (Z.of_nat 4096 - 2) with 4094.
  destruct (4094 <=? i_register s) eqn:E; [done|]. apply Z.leb_gt in E.
  rewrite mem_write_in_range by (rewrite Hm; lia). unbind.
  rewrite mem_write_in_range by (cbn; rewrite length_insert, Hm; lia). unbind.
  rewrite mem_write_in_range by (cbn; rewrite !length_insert, Hm; lia). unbind.
  done.
Qed.

Lemma load_bcd_returns x s : load_bcd x s <> OutOfFuel /\ load_bcd x s <> Waiting.
Proof.
  unfold load_bcd. unbind. destruct (_ <=? _); [done|].
  unfold mem_write.
  repeat (match goal with
          | |- context [if ?c then _ else _] => destruct c
          end; cbn [bind]; try done).
Qed.

Lemma call_defined a s :
  call a s <> OutOfRange /\ call a s <> OutOfFuel /\ call a s <> Waiting.
Proof.
  unfold call.
  repeat match goal with
         | |- context [if ?c then _ else _] => destruct c
         end; done.
Qed.

Lemma draw_rows_returns ux uy rows s :
  draw_rows ux uy rows s <> OutOfFuel /\ draw_rows ux uy rows s <> Waiting.
Proof.
  revert s. induction rows as [|r rows IH]; intros s; [done|].
  cbn [draw_rows]. unbind. unfold mem_read.
  destruct (memory s !! _); cbn [bind]; [apply IH|done].
Qed.

Lemma draw_sprite_returns x y n s :
  draw_sprite x y n s <> OutOfFuel /\ draw_sprite x y n s <> Waiting.
Proof.
  unfold draw_sprite. unbind.
  destruct (draw_rows_returns (reg (set_reg s 15 0) x) (reg (set_reg s 15 0) y)
              (seq 0 (Z.to_nat n)) (set_reg s 15 0)) as [H1 H2].
  destruct (draw_rows _ _ _ _); cbn [bind]; split; congruence.
Qed.

(** The copy loops index the memory and may run on, but they do not wait. *)
Lemma load_reg_to_mem_never_waits fuel x s : load_reg_to_mem fuel x s <> Waiting.
Proof.
  unfold load_reg_to_mem. unbind.
  assert (H : forall i s, load_reg_to_mem_loop fuel i x s <> Waiting).
  { induction fuel as [|fuel IH]; intros i s0; [done|].
    cbn [load_reg_to_mem_loop]. destruct (i <=? x); [|done]. unbind.
    unfold mem_write. destruct (_ <? _); cbn [bind]; [apply IH|done]. }
  specialize (H (u4 0) s). by destruct (load_reg_to_mem_loop _ _ _ _).
Qed.

Lemma load_mem_to_reg_never_waits fuel x s : load_mem_to_reg fuel x s <> Waiting.
Proof.
  unfold load_mem_to_reg. destruct (15 <? x); [done|]. unbind.
  assert (H : forall i s, load_mem_to_reg_loop fuel i x s <> Waiting).
  { induction fuel as [|fuel IH]; intros i s0; [done|].
    cbn [load_mem_to_reg_loop]. destruct (i <=? x); [|done]. unbind.
    unfold mem_read. destruct (_ !! _); cbn [bind]; [apply IH|done]. }
  specialize (H (u4 0) s). by destruct (load_mem_to_reg_loop _ _ _ _).
Qed.

(** Fx0A comes back exactly when a key-down arrives. *)
Lemma load_from_next_keypress_outcome w x s :
  load_from_next_keypress w x s <> OutOfRange
  /\ load_from_next_keypress w x s <> OutOfFuel
  /\ (load_from_next_keypress w x s = Waiting <-> next_keypress w = None).
Proof. unfold load_from_next_keypress. by destruct (next_keypress w). Qed.

Lemma bind_ok_stuck {A B} (m : outcome A) (f : A -> B) (o : outcome B) :
  bind m (fun a => Ok (f a)) = o ->
  (o = OutOfRange -> m = OutOfRange)
  /\ (o = OutOfFuel -> m = OutOfFuel)
  /\ (o = Waiting -> m = Waiting).
Proof. intros <-. by destruct m. Qed.

Lemma masks_of_fx0a instruction :
  Z.land instruction 0xf0ff = 0xf00a ->
  Z.land instruction 0xf000 = 0xf000 /\ Z.land instruction 0xf00f = 0xf00a.
Proof.
  intros H. split.
  - change 0xf000 with (Z.land 0xf0ff 0xf000) at 1.
    by rewrite Z.land_assoc, H.
  - change 0xf00f with (Z.land 0xf0ff 0xf00f).
    by rewrite Z.land_assoc, H.
Qed.

(** X13. On a machine that satisfies the invariant, the only instructions that
    can index an array outside its bounds are DxyN, Fx55 and Fx65, whose
    accesses at I are unchecked; the only ones whose loop can fail to end
    are Fx55 and Fx65; and an instruction stays blocked exactly when it is
    Fx0A and no key-down arrives. Every other instruction either completes
    or raises the fatal error. *)
Theorem only_unchecked_accesses_leave_bounds fuel w instruction s :
  machine_ok s ->
  (evaluate_instruction fuel w instruction s = OutOfRange ->
   Z.land instruction 0xf000 = 0xd000
   \/ Z.land instruction 0xf0ff = 0xf055
   \/ Z.land instruction 0xf0ff = 0xf065)
  /\ (evaluate_instruction fuel w instruction s = OutOfFuel ->
      Z.land instruction 0xf0ff = 0xf055
      \/ Z.land instruction 0xf0ff = 0xf065)
  /\ (evaluate_instruction fuel w instruction s = Waiting <->
      Z.land instruction 0xf0ff = 0xf00a /\ next_keypress w = None).
Proof.
  intros Hok.
  pose proof (machine_ok_ret_defined s Hok) as Hret.
  pose proof (ret_returns s) as [Hret1 Hret2].
  unfold evaluate_instruction, matches.
  rewrite !get_nibble_spec by lia. unbind.
  repeat match goal with
         | |- context [if ?c then _ else _] =>
             let E := fresh "Hguard" in destruct c eqn:E
         end.
  all: repeat match goal with
         | H : (_ =? _) = true |- _ => apply Z.eqb_eq in H
         | H : (_ =? _) = false |- _ => apply Z.eqb_neq in H
         end.
  all: split; [intros Hrun|split; [intros Hrun|split; [intros Hrun|intros [Hf Hkey]]]].
  (* the last direction: the word is Fx0A *)
  all: try (exfalso; destruct (masks_of_fx0a _ Hf) as [Hm1 Hm2];
            first [ subst instruction; vm_compute in Hf; discriminate
                  | congruence ]; fail).
  all: try (unfold load_from_next_keypress; rewrite Hkey; reflexivity).
  (* the other directions *)
  all: try discriminate.
  all: try (by left).
  all: try (by right; left).
  all: try (by right; right).
  all: try (by right).
  all: try (split; [assumption|];
            apply bind_ok_stuck in Hrun; destruct Hrun as (_ & _ & Hrun);
            specialize (Hrun eq_refl);
            match type of Hrun with
            | load_from_next_keypress ?w0 ?x ?s0 = _ =>
                by apply (proj1 (proj2 (proj2
                            (load_from_next_keypress_outcome w0 x s0))))
            end).
  all: exfalso.
  all: try (apply bind_ok_stuck in Hrun; destruct Hrun as (Hr1 & Hr2 & Hr3);
            try specialize (Hr1 eq_refl); try specialize (Hr2 eq_refl);
            try specialize (Hr3 eq_refl)).
  all: try congruence.
  all: try match goal with
           | H : call ?a ?s0 = _ |- _ =>
               destruct (call_defined a s0) as (? & ? & ?); congruence
           | H : load_bcd ?x ?s0 = OutOfRange |- _ =>
               by apply (machine_ok_load_bcd_defined x s0)
           | H : load_bcd ?x ?s0 = _ |- _ =>
               destruct (load_bcd_returns x s0); congruence
           | H : draw_sprite ?x ?y ?n ?s0 = _ |- _ =>
               destruct (draw_sprite_returns x y n s0); congruence
           | H : load_reg_to_mem ?f ?x ?s0 = Waiting |- _ =>
               by apply (load_reg_to_mem_never_waits f x s0)
           | H : load_mem_to_reg ?f ?x ?s0 = Waiting |- _ =>
               by apply (load_mem_to_reg_never_waits f x s0)
           | H : load_from_next_keypress ?w0 ?x ?s0 = _ |- _ =>
               destruct (load_from_next_keypress_outcome w0 x s0) as (? & ? & Hw);
               first [congruence | by apply Hw]
           end.
Qed.

Lemma only_unchecked_accesses_leave_bounds_witness :
  (Z.land 0xd002 0xf000 = 0xd000
   \/ Z.land 0xd002 0xf0ff = 0xf055 \/ Z.land 0xd002 0xf0ff = 0xf065)
  /\ evaluate_instruction 0 still 0xf30a edge_state = Waiting.
Proof.
  assert (Hok : machine_ok edge_state).
  { split; [apply well_formed_with_i; [apply blank_well_formed|lia]| |by vm_compute].
    apply Forall_replicate. lia. }
  split.
  - apply (only_unchecked_accesses_leave_bounds 0 still 0xd002 edge_state Hok).
    by vm_compute.
  - by apply (only_unchecked_accesses_leave_bounds 0 still 0xf30a edge_state Hok).
Defined.

(** ** The 60 Hz timers *)

(** The ticks [Timer60hz::value] counts for a duration in microseconds. *)
Lemma ticks_bounds d :
  0 <= d ->
  let ticks := 60 * (d / (1000 * 1000)) + (d mod (1000 * 1000)) / 16667 in
  0 <= ticks /\ 1000000 * ticks <= 60 * d /\ d < 16667 * (ticks + 1).
Proof.
  intros Hd ticks. subst ticks. change (1000 * 1000) with 1000000.
  Z.div_mod_to_equations. lia.
Qed.

Lemma ticks_monotone d1 d2 :
  0 <= d1 <= d2 ->
  60 * (d1 / (1000 * 1000)) + (d1 mod (1000 * 1000)) / 16667
  <= 60 * (d2 / (1000 * 1000)) + (d2 mod (1000 * 1000)) / 16667.
Proof.
  intros Hd. change (1000 * 1000) with 1000000.
  Z.div_mod_to_equations. lia.
Qed.

Lemma timer_value_spec t now :
  0 <= _value t < 256 -> timestamp t <= now ->
  let d := now - timestamp t in
  let ticks := 60 * (d / (1000 * 1000)) + (d mod (1000 * 1000)) / 16667 in
  Timer.value t now = Z.max 0 (_value t - ticks).
Proof.
  intros Hv Hnow d ticks. unfold Timer.value, Timer.size_t_of_count. fold d.
  assert (Hd : 0 <= d) by (subst d; lia).
  rewrite (Z.rem_mod_nonneg d (1000 * 1000)) by lia.
  rewrite (Z.quot_div_nonneg d (1000 * 1000)) by lia.
  rewrite (Z.quot_div_nonneg (d mod (1000 * 1000)) 16667)
    by (try apply Z.mod_pos; lia).
  fold ticks.
  destruct (ticks_bounds d) as (Hticks & _); [done|]. fold ticks in Hticks.
  destruct (ticks <? 0) eqn:Hneg; [apply Z.ltb_lt in Hneg; lia|].
  destruct (_value t =? 0) eqn:E; [apply Z.eqb_eq in E; lia|].
  destruct (_value t <=? ticks) eqn:E'; [apply Z.leb_le in E'; lia|].
  apply Z.leb_gt in E'. unfold u8.
  rewrite (Z.mod_small ticks) by lia. rewrite Z.mod_small by lia. lia.
Qed.

(** X14. A timer set to [v] counts down with the steady clock and stops at
    zero: its value never rises, it is [v] at the instant it was set, it has
    lost at most 60 for each second elapsed, and it is zero once [v] periods
    of 16667 microseconds have gone by. *)
Theorem timer_counts_down_at_60hz t now1 now2 :
  0 <= _value t < 256 -> timestamp t <= now1 -> now1 <= now2 ->
  0 <= Timer.value t now2 <= Timer.value t now1
  /\ Timer.value t now1 <= _value t
  /\ Timer.value t (timestamp t) = _value t
  /\ 1000000 * (_value t - Timer.value t now1) <= 60 * (now1 - timestamp t)
  /\ (16667 * _value t <= now1 - timestamp t -> Timer.value t now1 = 0).
Proof.
  intros Hv H1 H2.
  rewrite !timer_value_spec by lia.
  pose proof (ticks_monotone (now1 - timestamp t) (now2 - timestamp t)) as Hm.
  destruct (ticks_bounds (now1 - timestamp t)) as (Hp & Hslow & Hfast); [lia|].
  rewrite Z.sub_diag. change (0 mod _) with 0. change (0 / _) with 0.
  cbv zeta in *. specialize (Hm ltac:(lia)). lia.
Qed.

Lemma timer_counts_down_at_60hz_witness :
  Timer.value (Timer.set 60 0) 500000 = 31
  /\ Timer.value (Timer.set 60 0) 1000000 = 0.
Proof.
  pose proof (timer_counts_down_at_60hz (Timer.set 60 0) 500000 1000000) as H.
  cbn [_value timestamp Timer.set] in H.
  destruct H as (_ & _ & _ & _ & _); [lia..|].
  split; reflexivity.
Defined.

(** X15. Fx15 followed by Fy07: the register read back holds the value that
    was set less the ticks the clock has counted in between, never below
    zero; with no tick in between it is the value that was set. *)
Theorem delay_timer_set_then_read fuel1 w1 fuel2 w2 s x y :
  well_formed s -> 0 <= x < 16 -> 0 <= y < 16 -> now w1 <= now w2 ->
  exists s1 s2,
    evaluate_instruction fuel1 w1 (instruction_word 0xf x 1 5) s = Ok (s1, false)
    /\ evaluate_instruction fuel2 w2 (instruction_word 0xf y 0 7) s1 = Ok (s2, false)
    /\ 0 <= reg s2 y <= reg s x
    /\ 1000000 * (reg s x - reg s2 y) <= 60 * (now w2 - now w1)
    /\ (now w2 - now w1 < 16667 -> reg s2 y = reg s x)
    /\ (16667 * reg s x <= now w2 - now w1 -> reg s2 y = 0)
    /\ (forall r, 0 <= r < 16 -> r <> y -> reg s2 r = reg s r)
    /\ program_counter s2 = u16 (u16 (program_counter s + 2) + 2).
Proof.
  intros Hwf Hx Hy Hnow. pose proof (reg_range s x Hwf Hx) as Hv.
  exists (set_delay w1 x s), (load_from_delay_timer w2 y (set_delay w1 x s)).
  split; [dispatch 0xf x 1 5; reflexivity|].
  split; [dispatch 0xf y 0 7; reflexivity|].
  set (t := Timer.set (reg s x) (now w1)).
  assert (Ht : delay_timer (set_delay w1 x s) = t) by reflexivity.
  assert (Hregs : forall r, reg (set_delay w1 x s) r = reg s r) by reflexivity.
  assert (Hlen : (Z.to_nat y < length (gp_registers (set_delay w1 x s)))%nat)
    by (cbn; rewrite (wf_registers _ Hwf); lia).
  unfold load_from_delay_timer. rewrite Ht. cbv zeta.
  rewrite reg_advance, reg_set_reg_eq by done.
  pose proof (timer_value_spec t (now w2)) as Hspec.
  cbn [_value timestamp t Timer.set] in Hspec. specialize (Hspec Hv Hnow).
  cbv zeta in Hspec. rewrite Hspec.
  destruct (ticks_bounds (now w2 - now w1)) as (Hp & Hslow & Hfast); [lia|].
  cbv zeta in Hp, Hslow, Hfast.
  split; [lia|]. split; [lia|]. split; [lia|]. split; [lia|].
  split; [|reflexivity].
  intros r Hr Hne. rewrite reg_advance, reg_set_reg_ne, Hregs by lia. done.
Qed.

Lemma delay_timer_set_then_read_witness :
  exists s1 s2,
    evaluate_instruction 0 still (instruction_word 0xf 0 1 5) carry_state = Ok (s1, false)
    /\ evaluate_instruction 0 still (instruction_word 0xf 1 0 7) s1 = Ok (s2, false)
    /\ reg s2 1 = 200.
Proof.
  assert (Hwf : well_formed carry_state).
  { unfold carry_state. repeat apply well_formed_set_reg; try lia.
    apply blank_well_formed. }
  destruct (delay_timer_set_then_read 0 still 0 still carry_state 0 1 Hwf)
    as (s1 & s2 & H1 & H2 & _ & _ & Hsame & _); [lia..|].
  exists s1, s2. split; [done|]. split; [done|].
  rewrite Hsame by (cbn; lia). reflexivity.
Defined.

(** ** Fetching, the byte loader and the built-in sprites *)

Lemma fetch_word s hi lo :
  0 <= program_counter s ->
  memory s !! Z.to_nat (program_counter s) = Some hi ->
  memory s !! Z.to_nat (program_counter s + 1) = Some lo ->
  0 <= hi < 256 -> 0 <= lo < 256 ->
  fetch s = Ok (256 * hi + lo).
Proof.
  intros Hpc Hhi Hlo Hh Hl. unfold fetch, mem_read. rewrite Hhi, Hlo. unbind.
  rewrite Z.shiftl_mul_pow2 by lia. change (2 ^ 8) with 256.
  unfold u16. rewrite Z.mod_small by lia. f_equal; lia.
Qed.

(** X16. One round of the execution loop runs the word whose high byte is at
    the program counter and whose low byte follows it; the fetch is not
    checked, and reads past the memory once the program counter is 4095 or
    more. *)
Theorem cycle_runs_big_endian_word fuel w s :
  well_formed s ->
  (program_counter s < 4095 ->
   cycle fuel w s
   = evaluate_instruction fuel w
       (256 * (memory s !!! Z.to_nat (program_counter s))
        + memory s !!! Z.to_nat (program_counter s + 1)) s)
  /\ (4095 <= program_counter s -> cycle fuel w s = OutOfRange).
Proof.
  intros Hwf. pose proof (wf_memory _ Hwf) as Hlen.
  pose proof (wf_pc _ Hwf) as Hpc. pose proof (wf_cells _ Hwf) as Hcells.
  split; intros Hlt; unfold cycle.
  - destruct (lookup_lt_is_Some_2 (memory s) (Z.to_nat (program_counter s)))
      as [hi Hhi]; [lia|].
    destruct (lookup_lt_is_Some_2 (memory s) (Z.to_nat (program_counter s + 1)))
      as [lo Hlo]; [lia|].
    rewrite (list_lookup_total_correct _ _ _ Hhi), (list_lookup_total_correct _ _ _ Hlo).
    rewrite (fetch_word s hi lo); [done|lia|done|done|..].
    + exact (Forall_lookup_1 _ (memory s) _ _ Hcells Hhi).
    + exact (Forall_lookup_1 _ (memory s) _ _ Hcells Hlo).
  - unfold fetch, mem_read.
    destruct (memory s !! Z.to_nat (program_counter s)) as [hi|]; [|done].
    unbind.
    destruct (memory s !! Z.to_nat (program_counter s + 1)) as [lo|] eqn:E; [|done].
    apply lookup_lt_Some in E. lia.
Qed.

Lemma cycle_runs_big_endian_word_witness :
  cycle 0 still (with_pc blank 4095) = OutOfRange.
Proof.
  apply (cycle_runs_big_endian_word 0 still (with_pc blank 4095)).
  - destruct blank_well_formed. by split.
  - cbn. lia.
Defined.

(** The stores of [load_program_bytes], one after the other. *)
Lemma load_program_bytes_stores bytes s k :
  length (memory s) = 4096%nat -> (k <= length bytes)%nat -> (k <= 3584)%nat ->
  exists m,
    foldl (fun s i =>
             with_memory s
               (<[Z.to_nat (PROGRAM_STARTING_ADDRESS + Z.of_nat i)
                  := bytes !!! i]> (memory s)))
          s (seq 0 k) = with_memory s m
    /\ length m = 4096%nat
    /\ forall a, m !! a = if decide (512 <= a < 512 + k)%nat
                          then bytes !! (a - 512)%nat else memory s !! a.
Proof.
  intros Hlen. induction k as [|k IH]; intros Hk Hk'.
  - exists (memory s). split; [by destruct s|]. split; [done|].
    intros a. destruct (decide _); [lia|done].
  - destruct IH as (m & Hm & Hlm & Hlook); [lia..|].
    rewrite seq_S, foldl_app, Hm. cbn [foldl seq Nat.add with_memory memory].
    eexists. split; [reflexivity|]. split; [by rewrite length_insert|].
    intros a. unfold PROGRAM_STARTING_ADDRESS.
    replace (Z.to_nat (0x200 + Z.of_nat k)) with (512 + k)%nat by lia.
    destruct (decide (a = 512 + k)%nat) as [->|Hne].
    + rewrite list_lookup_insert_eq by lia.
      destruct (decide _); [|lia].
      replace (512 + k - 512)%nat with k by lia.
      destruct (lookup_lt_is_Some_2 bytes k) as [v Hv]; [lia|].
      by rewrite (list_lookup_total_correct _ _ _ Hv).
    + rewrite list_lookup_insert_ne by lia. rewrite Hlook.
      repeat destruct (decide _); try lia; done.
Qed.

Lemma load_program_bytes_lookup bytes s s' :
  length (memory s) = 4096%nat ->
  load_program_bytes bytes s = (true, s') ->
  (length bytes <= 3584)%nat
  /\ exists m, s' = with_memory s m /\ length m = 4096%nat
     /\ forall a, m !! a = if decide (512 <= a < 512 + length bytes)%nat
                           then bytes !! (a - 512)%nat else memory s !! a.
Proof.
  intros Hlen. unfold load_program_bytes. rewrite Hlen.
  change (Z.of_nat 4096 - PROGRAM_STARTING_ADDRESS) with 3584.
  destruct (_ <? _) eqn:E; [done|]. apply Z.ltb_ge in E.
  intros [= <-]. split; [lia|].
  destruct (load_program_bytes_stores bytes s (length bytes)) as (m & -> & Hm);
    [done|lia|lia|].
  by exists m.
Qed.

(** X17. [load_program_bytes] refuses a program of more than 3584 bytes,
    leaving the memory alone; otherwise it puts the bytes at 0x200 and up
    and changes nothing around them, nor any other part of the engine. *)
Theorem load_program_bytes_places_program bytes s :
  length (memory s) = 4096%nat ->
  load_program_bytes bytes s
  = if decide (length bytes <= 3584)%nat
    then (true,
          with_memory s
            (take 512 (memory s) ++ bytes
             ++ drop (512 + length bytes) (memory s)))
    else (false, s).
Proof.
  intros Hlen. destruct (load_program_bytes bytes s) as [b s'] eqn:Hload.
  destruct b.
  - destruct (load_program_bytes_lookup bytes s s' Hlen Hload)
      as (Hfit & m & -> & Hm & Hlook).
    destruct (decide _); [|lia]. do 2 f_equal.
    apply list_eq. intros a. rewrite Hlook.
    destruct (decide _) as [[H1 H2]|Hout].
    + rewrite lookup_app_r by (rewrite length_take; lia).
      rewrite length_take, Hlen, lookup_app_l by lia. f_equal; lia.
    + destruct (decide (a < 512)%nat).
      * rewrite lookup_app_l by (rewrite length_take; lia).
        by rewrite lookup_take_lt.
      * rewrite lookup_app_r by (rewrite length_take; lia).
        rewrite length_take, Hlen, lookup_app_r by lia.
        rewrite lookup_drop. f_equal; lia.
  - unfold load_program_bytes in Hload. rewrite Hlen in Hload.
    unfold PROGRAM_STARTING_ADDRESS in Hload.
    destruct (_ <? _) eqn:E; [|done]. apply Z.ltb_lt in E.
    injection Hload as <-. destruct (decide _); [lia|done].
Qed.

Lemma load_program_bytes_places_program_witness :
  exists s', load_program_bytes [0x12; 0x34] blank = (true, s')
             /\ memory s' !! 512%nat = Some 0x12
             /\ memory s' !! 513%nat = Some 0x34
             /\ memory s' !! 514%nat = Some 0.
Proof.
  eexists. split;
    [exact (load_program_bytes_places_program [0x12; 0x34] blank eq_refl)|].
  repeat split; reflexivity.
Defined.

Lemma data_rows d : (d < 16)%nat -> length (data !!! d) = 5%nat.
Proof. intros Hd. by do 16 (destruct d as [|d]; [done|]); lia. Qed.

(** The copies of the constructor, one sprite after the other. *)
Lemma copy_sprites s n :
  (n <= 16)%nat -> Z.of_nat (length (memory s)) = 4096 ->
  exists m,
    foldl (fun s i =>
             copy (data !!! i)
                  (BUILT_IN_CHAR_STARTING_ADDRESS + Z.of_nat i * 5) s)
          s (seq 0 n) = with_memory s m
    /\ Z.of_nat (length m) = 4096
    /\ forall d row, 0 <= d < Z.of_nat n -> 0 <= row < 5 ->
         m !! Z.to_nat (0x100 + 5 * d + row)
         = Some ((data !!! Z.to_nat d) !!! Z.to_nat row).
Proof.
  intros Hn Hlen. induction n as [|n IH].
  - exists (memory s). split; [by destruct s|]. split; [done|]. lia.
  - destruct IH as (m & Hm & Hlm & Hlook); [lia|].
    rewrite seq_S, foldl_app, Hm. cbn [foldl Nat.add]. unfold copy.
    cbn [memory with_memory]. eexists. split; [reflexivity|].
    split; [by rewrite length_inserts|].
    intros d row Hd Hrow. unfold BUILT_IN_CHAR_STARTING_ADDRESS.
    destruct (decide (d = Z.of_nat n)) as [->|Hne].
    + rewrite Nat2Z.id.
      rewrite list_lookup_inserts by (rewrite ?data_rows; lia).
      replace (Z.to_nat (0x100 + 5 * Z.of_nat n + row)
               - Z.to_nat (0x100 + Z.of_nat n * 5))%nat
        with (Z.to_nat row) by lia.
      apply list_lookup_lookup_total_lt. rewrite data_rows; lia.
    + rewrite list_lookup_inserts_lt by lia. apply Hlook; lia.
Qed.

Lemma new_emulator_built now_sound now_delay raw :
  length (memory raw) = 4096%nat ->
  exists m,
    new_emulator now_sound now_delay raw
    = {| display_buffer := display_buffer raw;
         keyboard_state := keyboard_state raw;
         sound_timer := Timer.set 0 now_sound;
         delay_timer := Timer.set 0 now_delay;
         memory := m;
         program_counter := PROGRAM_STARTING_ADDRESS;
         stack_frames := stack_frames raw;
         stack_pointer := 0;
         gp_registers := gp_registers raw;
         i_register := 0 |}
    /\ length m = 4096%nat
    /\ forall d row, 0 <= d < 16 -> 0 <= row < 5 ->
         m !! Z.to_nat (0x100 + 5 * d + row)
         = Some ((data !!! Z.to_nat d) !!! Z.to_nat row).
Proof.
  intros Hlen. unfold new_emulator. cbv zeta.
  change (length data) with 16%nat.
  match goal with
  | |- context [foldl ?f ?s0 (seq 0 16)] =>
      destruct (copy_sprites s0 16) as (m & -> & Hm & Hlook);
        [lia|cbn [memory]; by rewrite Hlen|]
  end.
  exists m. split; [reflexivity|]. split; [|exact Hlook].
  apply Nat2Z.inj. by rewrite Hm.
Qed.

Lemma evaluate_fx29 fuel w s x :
  0 <= x < 16 ->
  evaluate_instruction fuel w (instruction_word 0xf x 2 9) s
  = Ok (load_sprite x s, false).
Proof. intros Hx. dispatch 0xf x 2 9. reflexivity. Qed.

(** X18. On an engine that has been constructed and then loaded, Fx29 points
    I at the five-byte sprite of the digit in the low nibble of Vx, whatever
    the program is: the sprites lie below the program space and the loader
    does not write there. *)
Theorem load_sprite_selects_digit fuel w now_sound now_delay raw bytes s x :
  length (memory raw) = 4096%nat ->
  load_program_bytes bytes (new_emulator now_sound now_delay raw) = (true, s) ->
  0 <= x < 16 ->
  exists s',
    evaluate_instruction fuel w (instruction_word 0xf x 2 9) s = Ok (s', false)
    /\ i_register s' = 0x100 + 5 * (reg s x mod 16)
    /\ forall row, (row < 5)%nat ->
         mem_read s' (i_register s' + Z.of_nat row)
         = Ok ((data !!! Z.to_nat (reg s x mod 16)) !!! row).
Proof.
  intros Hlen Hload Hx.
  destruct (new_emulator_built now_sound now_delay raw Hlen)
    as (m0 & Hnew & Hlen' & Hsprites).
  set (s0 := new_emulator now_sound now_delay raw) in *.
  assert (Hm0 : memory s0 = m0) by (by rewrite Hnew).
  rewrite <- Hm0 in Hlen', Hsprites.
  destruct (load_program_bytes_lookup _ _ _ Hlen' Hload)
    as (Hfit & m & -> & Hm & Hlook).
  exists (load_sprite x (with_memory s0 m)).
  split; [by apply evaluate_fx29|].
  assert (Hd : 0 <= reg (with_memory s0 m) x mod 16 < 16)
    by (apply Z.mod_pos_bound; lia).
  set (d := reg (with_memory s0 m) x mod 16) in *.
  assert (HI : i_register (load_sprite x (with_memory s0 m)) = 0x100 + 5 * d).
  { unfold load_sprite, advance. cbn [i_register with_pc with_i]. fold d.
    unfold BUILT_IN_CHAR_STARTING_ADDRESS, u16.
    rewrite Z.mod_small; lia. }
  split; [exact HI|]. intros row Hrow. rewrite HI.
  unfold mem_read, load_sprite, advance.
  cbn [memory with_pc with_i with_memory].
  rewrite Hlook. destruct (decide _); [lia|].
  rewrite Hsprites by lia. by rewrite Nat2Z.id.
Qed.

Lemma load_sprite_selects_digit_witness :
  exists s s',
    load_program_bytes [0xf0; 0x29] (new_emulator 0 0 (set_reg blank 0 0x1a)) = (true, s)
    /\ evaluate_instruction 0 still 0xf029 s = Ok (s', false)
    /\ i_register s' = 0x132
    /\ mem_read s' 0x132 = Ok 0xf0
    /\ mem_read s' 0x136 = Ok 0x90.
Proof.
  set (raw := set_reg blank 0 0x1a).
  set (s := (load_program_bytes [0xf0; 0x29] (new_emulator 0 0 raw)).2).
  assert (Hload : load_program_bytes [0xf0; 0x29] (new_emulator 0 0 raw) = (true, s))
    by (vm_compute; reflexivity).
  assert (Hlen : length (memory raw) = 4096%nat) by (vm_compute; reflexivity).
  assert (Hreg : reg s 0 mod 16 = 10) by (vm_compute; reflexivity).
  destruct (load_sprite_selects_digit 0 still 0 0 raw [0xf0; 0x29] s 0 Hlen Hload)
    as (s' & He & HI & Hrows); [lia|].
  rewrite Hreg in HI, Hrows. rewrite HI in Hrows.
  exists s, s'. split; [exact Hload|]. split; [exact He|]. split; [exact HI|].
  split; [exact (Hrows 0%nat ltac:(lia))|exact (Hrows 4%nat ltac:(lia))].
Defined.

(** X19. A constructed engine loaded with a program starts with the first
    word of the program: the first round of the execution loop runs the
    word made of the first two bytes. *)
Theorem loaded_program_starts_at_first_word
    fuel w now_sound now_delay raw hi lo rest s :
  length (memory raw) = 4096%nat ->
  0 <= hi < 256 -> 0 <= lo < 256 ->
  load_program_bytes (hi :: lo :: rest) (new_emulator now_sound now_delay raw)
  = (true, s) ->
  cycle fuel w s = evaluate_instruction fuel w (256 * hi + lo) s.
Proof.
  intros Hlen Hhi Hlo Hload.
  destruct (new_emulator_built now_sound now_delay raw Hlen)
    as (m0 & Hnew & Hlen' & _).
  set (s0 := new_emulator now_sound now_delay raw) in *.
  assert (Hm0 : memory s0 = m0) by (by rewrite Hnew).
  assert (Hpc : program_counter s0 = 0x200) by (by rewrite Hnew).
  rewrite <- Hm0 in Hlen'.
  destruct (load_program_bytes_lookup _ _ _ Hlen' Hload)
    as (Hfit & m & -> & Hm & Hlook).
  unfold cycle. rewrite (fetch_word _ hi lo); [done| | | |done|done].
  - cbn [program_counter with_memory]. rewrite Hpc. lia.
  - cbn [program_counter with_memory memory]. rewrite Hpc, Hlook.
    cbn [length]. destruct (decide _); [done|lia].
  - cbn [program_counter with_memory memory]. rewrite Hpc, Hlook.
    cbn [length]. destruct (decide _); [done|lia].
Qed.

Lemma loaded_program_starts_at_first_word_witness :
  exists s,
    load_program_bytes [0x00; 0xe0] (new_emulator 0 0 blank) = (true, s)
    /\ cycle 0 still s = evaluate_instruction 0 still 0x00e0 s.
Proof.
  set (s := (load_program_bytes [0x00; 0xe0] (new_emulator 0 0 blank)).2).
  assert (Hload : load_program_bytes [0x00; 0xe0] (new_emulator 0 0 blank) = (true, s))
    by (vm_compute; reflexivity).
  assert (Hlen : length (memory blank) = 4096%nat) by (vm_compute; reflexivity).
  exists s. split; [exact Hload|].
  apply (loaded_program_starts_at_first_word 0 still 0 0 blank 0x00 0xe0 [] s Hlen);
    [lia|lia|exact Hload].
Defined.

(** ** The loader, line by line *)

Lemma load_program_loop_at_end stoi fuel program_text bytes :
  load_program_loop stoi (S fuel) program_text (length program_text) bytes
  = Ok (Some bytes).
Proof. cbn [load_program_loop]. by rewrite Nat.ltb_irrefl. Qed.

(** The loop takes the lines of the text one after the other. *)
Lemma load_program_loop_lines stoi lines : forall fuel done rest bytes,
  Forall terminated lines -> nl ∉ rest ->
  (length (concat lines ++ rest) < fuel)%nat ->
  load_program_loop stoi fuel (done ++ concat lines ++ rest) (length done) bytes
  = Ok (bytes_of_lines stoi (lines ++ last_line rest) bytes).
Proof.
  induction lines as [|line lines IH]; intros fuel done rest bytes Hlines Hrest Hfuel.
  - cbn [concat app]. destruct rest as [|c rest].
    + rewrite app_nil_r. destruct fuel as [|fuel]; [cbn in Hfuel; lia|].
      by rewrite load_program_loop_at_end.
    + destruct fuel as [|[|fuel]]; [cbn in Hfuel; lia..|].
      cbn [load_program_loop last_line bytes_of_lines].
      rewrite next_line_pos_end by done.
      assert ((length done <? length (done ++ c :: rest))%nat = true) as ->
        by (apply Nat.ltb_lt; rewrite length_app; cbn; lia).
      unfold substr. rewrite drop_app_length, take_ge by (rewrite length_app; lia).
      rewrite Nat.ltb_irrefl.
      destruct (load_line stoi (c :: rest)) eqn:Hhere; try done.
      by apply load_line_word_start in Hhere.
  - apply list.Forall_cons in Hlines as [(body & -> & Hnl) Hlines].
    destruct fuel as [|fuel]; [lia|].
    cbn [load_program_loop concat app bytes_of_lines].
    rewrite <- !app_assoc. cbn [app].
    rewrite next_line_pos_newline by done.
    assert ((length done <? length (done ++ body ++ nl :: concat lines ++ rest))%nat
            = true) as -> by (apply Nat.ltb_lt; rewrite !length_app; cbn; lia).
    unfold substr. rewrite drop_app_length.
    replace (length done + length body + 1 - length done)%nat
      with (length (body ++ [nl])) by (rewrite length_app; cbn; lia).
    replace (body ++ nl :: concat lines ++ rest)
      with ((body ++ [nl]) ++ concat lines ++ rest)
      by (by rewrite <- !app_assoc).
    rewrite take_app_length.
    replace (done ++ (body ++ [nl]) ++ concat lines ++ rest)
      with ((done ++ body ++ [nl]) ++ concat lines ++ rest)
      by (by rewrite <- !app_assoc).
    replace (length done + length body + 1)%nat
      with (length (done ++ body ++ [nl])) by (rewrite !length_app; cbn; lia).
    assert (Hless : (length (concat lines ++ rest) < fuel)%nat).
    { cbn [concat] in Hfuel. rewrite !length_app in *. cbn [length] in *. lia. }
    destruct (load_line stoi (body ++ [nl])) eqn:Hhere; try by apply IH.
    + reflexivity.
    + by apply load_line_word_start in Hhere.
Qed.

(** X20. Whatever [std::stoi] does, [load_program] takes the text line by
    line: for a text made of lines that end with a newline and, possibly, a
    last line without one, the result is what the body of its loop gives on
    each of them in turn: false, with the engine unchanged, when one of them
    is malformed, and otherwise the store of all their bytes by
    [load_program_bytes]. *)
Theorem load_program_line_by_line stoi lines rest s :
  Forall terminated lines -> nl ∉ rest ->
  load_program stoi (concat lines ++ rest) s
  = Ok (match bytes_of_lines stoi (lines ++ last_line rest) [] with
        | Some bytes => load_program_bytes bytes s
        | None => (false, s)
        end).
Proof.
  intros Hlines Hrest. unfold load_program.
  rewrite (load_program_loop_lines stoi lines _ [] rest []) by (done || cbn; lia).
  unbind. by destruct (bytes_of_lines _ _ _).
Qed.

Lemma load_program_line_by_line_witness :
  load_program std_stoi
    (ascii_text "; clear" ++ [nl] ++ ascii_text "0x00e0" ++ [cr; nl]
     ++ ascii_text " 0x1200") blank
  = Ok (load_program_bytes [0x00; 0xe0; 0x12; 0x00] blank).
Proof.
  apply (load_program_line_by_line std_stoi
           [ascii_text "; clear" ++ [nl]; ascii_text "0x00e0" ++ [cr; nl]]
           (ascii_text " 0x1200") blank).
  - repeat apply list.Forall_cons_2; [| |apply Forall_nil_2].
    + exists (ascii_text "; clear"). split; [done|]. by apply not_elem_of_text.
    + exists (ascii_text "0x00e0" ++ [cr]). split; [by rewrite <- app_assoc|].
      by apply not_elem_of_text.
  - by apply not_elem_of_text.
Defined.

(** *** The bytes of a word *)

Lemma high_byte_mask w : 0 <= w < 65536 -> Z.shiftr (Z.land w 0xff00) 8 = w / 256.
Proof.
  intros Hw. rewrite Z.shiftr_land. change (Z.shiftr 0xff00 8) with (Z.ones 8).
  rewrite Z.land_ones, Z.shiftr_div_pow2 by lia. change (2 ^ 8) with 256.
  apply Z.mod_small. Z.div_mod_to_equations. lia.
Qed.

(** A line on which [stoi] converts gives the two bytes of the value, as a
    16-bit word. *)
Lemma load_line_converted stoi line rest v :
  starts_with_0x line rest -> stoi rest = Converted v ->
  load_line stoi line = Word (u16 v / 256) (u16 v mod 256).
Proof.
  intros (blanks & Hb & ->) Hstoi. unfold load_line.
  assert (forallb isspace (blanks ++ ["0"; "x"]%char ++ rest) = false) as ->.
  { rewrite forallb_app. cbn [forallb app].
    change (isspace "0") with false. by rewrite andb_false_r. }
  cbn [app].
  rewrite find_first_not_of_blanks by done.
  unfold substr. rewrite drop_app_length.
  rewrite take_ge by (rewrite length_app; lia).
  cbn [starts_with]. cbn [Ascii.eqb Bool.eqb andb negb].
  replace (length blanks + 2)%nat with (length (blanks ++ ["0"%char; "x"%char]))
    by (rewrite length_app; cbn; lia).
  replace (blanks ++ "0"%char :: "x"%char :: rest)
    with ((blanks ++ ["0"%char; "x"%char]) ++ rest) by (by rewrite <- app_assoc).
  rewrite drop_app_length, take_ge by (rewrite !length_app; cbn; lia).
  rewrite Hstoi.
  assert (Hw : 0 <= u16 v < 65536) by (apply Z.mod_pos_bound; lia).
  by rewrite high_byte_mask, mask_00ff.
Qed.

Lemma bytes_of_converted_lines stoi entries : forall bytes,
  Forall (fun '(line, rest, v) =>
            starts_with_0x line rest /\ stoi rest = Converted v) entries ->
  bytes_of_lines stoi ((fun e => e.1.1) <$> entries) bytes
  = Some (bytes ++ (entries ≫= fun e => bytes_of_value e.2)).
Proof.
  induction entries as [|[[line rest] v] entries IH]; intros bytes Hentries.
  - cbn. by rewrite app_nil_r.
  - apply list.Forall_cons in Hentries as [[H0x Hstoi] Hentries].
    cbn [fmap list_fmap bytes_of_lines fst snd].
    rewrite (load_line_converted stoi line rest v) by done.
    rewrite IH by done. cbn [mbind list_bind app snd bytes_of_value].
    by rewrite <- app_assoc.
Qed.

(** X21. Whatever [std::stoi] does: when the text is made of lines that end
    with a newline, each of which starts, after blanks, with [0x] and goes
    on with something that [stoi] converts, [load_program] stores, for each
    line in turn, the value converted, cut to 16 bits, as two bytes, the
    high byte first. What follows the digits, their number and their sign
    matter only through the value that [stoi] gives. *)
Theorem load_program_stores_converted_words stoi entries s :
  Forall (fun '(line, rest, v) =>
            terminated line /\ starts_with_0x line rest
            /\ stoi rest = Converted v) entries ->
  load_program stoi (concat ((fun e => e.1.1) <$> entries)) s
  = Ok (load_program_bytes (entries ≫= fun e => bytes_of_value e.2) s).
Proof.
  intros Hentries. unfold load_program.
  pose proof (load_program_loop_lines stoi ((fun e => e.1.1) <$> entries)
                (S (length (concat ((fun e => e.1.1) <$> entries)))) [] [] [])
    as Hloop.
  rewrite !app_nil_r in Hloop. cbn [app length] in Hloop.
  rewrite Hloop.
  - unbind. rewrite bytes_of_converted_lines; [done|].
    eapply list.Forall_impl; [exact Hentries|]. by intros [[line rest] v] (_ & ? & ?).
  - apply Forall_fmap. eapply list.Forall_impl; [exact Hentries|].
    by intros [[line rest] v] (? & _).
  - apply not_elem_of_nil.
  - lia.
Qed.

Lemma load_program_stores_converted_words_witness :
  exists s',
    load_program std_stoi
      (ascii_text "0x00e0" ++ [nl] ++ ascii_text "  0xa123 ; jump" ++ [nl]
       ++ ascii_text "0x-1" ++ [nl]) blank
    = Ok (true, s')
    /\ memory s' !! 512%nat = Some 0x00 /\ memory s' !! 513%nat = Some 0xe0
    /\ memory s' !! 514%nat = Some 0xa1 /\ memory s' !! 515%nat = Some 0x23
    /\ memory s' !! 516%nat = Some 0xff /\ memory s' !! 517%nat = Some 0xff.
Proof.
  eexists. split.
  - apply (load_program_stores_converted_words std_stoi
             [ (ascii_text "0x00e0" ++ [nl], ascii_text "00e0" ++ [nl], 0x00e0);
               (ascii_text "  0xa123 ; jump" ++ [nl],
                ascii_text "a123 ; jump" ++ [nl], 0xa123);
               (ascii_text "0x-1" ++ [nl], ascii_text "-1" ++ [nl], -1) ] blank).
    repeat apply list.Forall_cons_2; [..|apply Forall_nil_2].
    all: split; [eexists; split; [reflexivity|by apply not_elem_of_text]|].
    all: split; [|reflexivity].
    + by exists [].
    + by exists (ascii_text "  ").
    + by exists [].
  - repeat split; reflexivity.
Defined.

(** ** Saving and restoring registers (Fx55 then Fx65) *)

Lemma evaluate_fx55 fuel w s x :
  0 <= x < 16 ->
  evaluate_instruction fuel w (instruction_word 0xf x 5 5) s
  = bind (load_reg_to_mem fuel x s) (fun s => Ok (s, false)).
Proof. intros Hx. dispatch 0xf x 5 5. reflexivity. Qed.

Lemma evaluate_fx65 fuel w s x :
  0 <= x < 16 ->
  evaluate_instruction fuel w (instruction_word 0xf x 6 5) s
  = bind (load_mem_to_reg fuel x s) (fun s => Ok (s, false)).
Proof. intros Hx. dispatch 0xf x 6 5. reflexivity. Qed.

(** X22. For an operand below 15, Fx55 saves V0 to Vx at I and Fx65 brings
    them back: whatever happened to the registers in between, as long as
    the saved cells and I were left alone, V0 to Vx are again what they
    were, the registers above Vx are not touched, and neither instruction
    moves I. *)
Theorem registers_saved_and_restored fuel1 w1 fuel2 w2 s s2 x :
  well_formed s -> well_formed s2 -> 0 <= x < 15 ->
  (16 <= fuel1)%nat -> (16 <= fuel2)%nat ->
  i_register s + x < 4096 ->
  exists s1,
    evaluate_instruction fuel1 w1 (instruction_word 0xf x 5 5) s = Ok (s1, false)
    /\ i_register s1 = i_register s
    /\ gp_registers s1 = gp_registers s
    /\ (i_register s2 = i_register s ->
        (forall j, 0 <= j <= x ->
           memory s2 !! Z.to_nat (i_register s + j)
           = memory s1 !! Z.to_nat (i_register s + j)) ->
        exists s3,
          evaluate_instruction fuel2 w2 (instruction_word 0xf x 6 5) s2
          = Ok (s3, false)
          /\ (forall j, 0 <= j <= x -> reg s3 j = reg s j)
          /\ (forall j, x < j -> reg s3 j = reg s2 j)
          /\ i_register s3 = i_register s
          /\ memory s3 = memory s2).
Proof.
  intros Hwf Hwf2 Hx Hfuel1 Hfuel2 HI.
  pose proof (wf_memory _ Hwf) as Hlen. pose proof (wf_i _ Hwf) as Hi.
  destruct (load_reg_to_mem_loop_below fuel1 0 x s)
    as (s1 & Hrun & Hg & Hir & Hpc & Hlen1 & Hcopy & _); try (done || lia).
  exists (advance s1 INSTRUCTION_SIZE). split.
  { rewrite evaluate_fx55 by lia. unfold load_reg_to_mem. change (u4 0) with 0.
    rewrite Hrun. reflexivity. }
  split; [exact Hir|]. split; [exact Hg|].
  intros HI2 Hkept.
  pose proof (wf_memory _ Hwf2) as Hlen2. pose proof (wf_registers _ Hwf2) as Hregs2.
  destruct (load_mem_to_reg_loop_below fuel2 0 x s2)
    as (s3 & Hrun3 & Hmem3 & Hir3 & Hpc3 & Hcopy3 & Hrest3); try (done || lia).
  exists (advance s3 INSTRUCTION_SIZE). split.
  { rewrite evaluate_fx65 by lia. unfold load_mem_to_reg.
    destruct (15 <? x) eqn:Hguard; [lia|]. change (u4 0) with 0.
    rewrite Hrun3. reflexivity. }
  split; [|split; [|split]].
  - intros j Hj. rewrite reg_advance, Hcopy3 by lia. rewrite HI2.
    apply list_lookup_total_correct.
    rewrite Hkept by lia. cbn [memory advance with_pc]. by apply Hcopy.
  - intros j Hj. rewrite reg_advance. apply Hrest3. lia.
  - cbn. by rewrite Hir3.
  - cbn. exact Hmem3.
Qed.

Lemma registers_saved_and_restored_witness :
  exists s1 s3,
    evaluate_instruction 16 still 0xf155 carry_state = Ok (s1, false)
    /\ evaluate_instruction 16 still 0xf165
         (set_reg (set_reg s1 0 7) 1 9) = Ok (s3, false)
    /\ reg s3 0 = 200 /\ reg s3 1 = 100.
Proof.
  assert (Hwf : well_formed carry_state).
  { unfold carry_state. repeat apply well_formed_set_reg; try lia.
    apply blank_well_formed. }
  set (s1 := (with_memory carry_state
                (<[1%nat := 100]> (<[0%nat := 200]> (memory carry_state))))).
  set (s2 := set_reg (set_reg (advance s1 INSTRUCTION_SIZE) 0 7) 1 9).
  assert (Hwf2 : well_formed s2).
  { subst s2 s1. repeat apply well_formed_set_reg; try lia.
    destruct Hwf. split; try done.
    cbn [memory with_memory advance with_pc].
    repeat (apply Forall_insert; [|lia]). done. }
  destruct (registers_saved_and_restored 16 still 16 still carry_state s2 1 Hwf Hwf2)
    as (s1' & He1 & _ & _ & Hback); [lia..|vm_compute; reflexivity|].
  assert (Hs1 : s1' = advance s1 INSTRUCTION_SIZE).
  { assert (H : evaluate_instruction 16 still (instruction_word 15 1 5 5) carry_state
                = Ok (advance s1 INSTRUCTION_SIZE, false)) by (vm_compute; reflexivity).
    rewrite H in He1. by injection He1. }
  destruct Hback as (s3 & He3 & Hlow & _).
  { reflexivity. }
  { intros j Hj. rewrite Hs1. reflexivity. }
  exists s1', s3. split; [exact He1|]. rewrite Hs1. split; [exact He3|].
  split; [apply (Hlow 0)|apply (Hlow 1)]; lia.
Defined.
